(** * UI testing agents: script compiler, direct driver and report renderers

    A shallow embedding of the three agents of the repository

    - [Cypress]: the fluent test builder of [testing-agent-cypress.js]
      (class [UITestingAgent]), which compiles actions into Cypress
      statements, assembles them into a spec file and renders a report;
    - [Playwright]: the direct driver (class [UITestingAgent] of the
      Playwright variant), which runs assertions against a live page and
      renders a report of the collected results;
    - [Generator]: the route/viewport test generator (class
      [CypressTestAgent]), whose report groups screenshot files;

    followed by the properties of the specification that concern them. *)

From Stdlib Require Import ZArith Ascii String List Bool Lia.
From Stdlib Require Import Floats.SpecFloat.
From stdpp Require Import base option list gmap strings pretty.

Local Open Scope Z_scope.

(** ** JavaScript values, strings and completions *)

Module JS.

(** Strings are sequences of code units; an [ascii] stands for one code
    unit in the range U+0000..U+00FF, a range that [toLowerCase] and the
    regular expression class [\s] do not leave. *)

(** *** Numbers: IEEE 754 binary64 *)

Definition number : Type := spec_float.

Definition prec : Z := 53.
Definition emax : Z := 1024.

(** The Number nearest to an integer, ties to even, as the integer it is
    worth; [None] when the integer is out of range (an infinity). *)
Definition nearest (n : Z) : option Z :=
  match binary_normalize prec emax n 0 false with
  | S754_zero _ => Some 0
  | S754_finite s m e =>
      let sm := if s then Z.neg m else Z.pos m in
      Some (if 0 <=? e then sm * 2 ^ e else sm / 2 ^ (- e))
  | _ => None
  end.

(** Number::toString on an integer-valued Number [a > 0]: the integer
    with the fewest significant digits that the Number [a] is nearest
    to, the closest to [a] among those with as few, the even one of two
    equally close. *)
Definition best (a : Z) (k : nat) : option Z :=
  let j := Z.of_nat (String.length (pretty a)) - Z.of_nat k in
  if j <? 0 then Some a
  else
    let lo := a / 10 ^ j in
    let below := lo * 10 ^ j in
    let above := (lo + 1) * 10 ^ j in
    match bool_decide (nearest below = Some a), bool_decide (nearest above = Some a) with
    | true, true =>
        if a - below <? above - a then Some below
        else if above - a <? a - below then Some above
        else if Z.even lo then Some below else Some above
    | true, false => Some below
    | false, true => Some above
    | false, false => None
    end.

Fixpoint shortest (a : Z) (k fuel : nat) : Z :=
  match fuel with
  | O => a
  | S fuel' =>
      match best a k with
      | Some w => w
      | None => shortest a (S k) fuel'
      end
  end.

Fixpoint stripZeros (s : string) : string :=
  match s with
  | EmptyString => EmptyString
  | String c s' =>
      match stripZeros s' with
      | EmptyString => if Ascii.eqb c "0" then EmptyString else String c EmptyString
      | t => String c t
      end
  end.

(** The exponential form of an integer from 1e21 on: [d.ddde+n]. *)
Definition exponential (w : Z) : string :=
  let all := pretty w in
  let exponent := pretty (Z.of_nat (String.length all - 1)) in
  match stripZeros all with
  | String d EmptyString => String d EmptyString +:+ "e+" +:+ exponent
  | String d more => String d EmptyString +:+ "." +:+ more +:+ "e+" +:+ exponent
  | EmptyString => all
  end.

(** [`${n}`] for the Number nearest to the integer [n]: up to 2^53 every
    integer is a Number and prints as its decimal digits. *)
Definition Number_ToString (n : Z) : string :=
  if Z.abs n <=? 2 ^ 53 then pretty n
  else
    match nearest n with
    | None => if n <? 0 then "-Infinity" else "Infinity"
    | Some v =>
        let w := shortest (Z.abs v) 1 17 in
        (if v <? 0 then "-" else EmptyString)
          +:+ (if w <? 10 ^ 21 then pretty w else exponential w)
    end.

(** The primitive values that reach the agents.  [JNum n] is the Number
    nearest to the integer [n]. *)
Inductive value : Type :=
| JUndefined
| JNull
| JBool (b : bool)
| JNum (n : Z)
| JStr (s : string).

#[global] Instance value_eq_dec : EqDecision value.
Proof. solve_decision. Defined.

(** [`${v}`]: the ToString conversion of a template literal. *)
Definition ToString (v : value) : string :=
  match v with
  | JUndefined => "undefined"
  | JNull => "null"
  | JBool true => "true"
  | JBool false => "false"
  | JNum n => Number_ToString n
  | JStr s => s
  end.

(** The truth value of [v] in a condition. *)
Definition ToBoolean (v : value) : bool :=
  match v with
  | JUndefined | JNull => false
  | JBool b => b
  | JNum n => negb (n =? 0)
  | JStr s => negb (bool_decide (s = EmptyString))
  end.

(** [typeof v === 'boolean'] *)
Definition typeof_is_boolean (v : value) : bool :=
  match v with JBool _ => true | _ => false end.

(** [v1 === v2] on primitives. *)
Definition strict_equal (v1 v2 : value) : bool := bool_decide (v1 = v2).

(** Thrown values: [new Error(message)] and the engine's [TypeError]. *)
Inductive exn : Type :=
| Error (message : string)
| TypeError (message : string).

Definition message (e : exn) : string :=
  match e with Error m | TypeError m => m end.

(** How the evaluation of a call ends. *)
Inductive completion (A : Type) : Type :=
| Return (a : A)
| Throw (e : exn).
Arguments Return {A} a.
Arguments Throw {A} e.

(** A method of an object with state [S]: it ends in a completion and
    leaves a state behind, also when it throws. *)
Definition method (S A : Type) : Type := S -> completion A * S.

Definition ret {S A} (a : A) : method S A := fun s => (Return a, s).
Definition throw {S A} (e : exn) : method S A := fun s => (Throw e, s).
Definition bind {S A B} (m : method S A) (k : A -> method S B) : method S B :=
  fun s =>
    match m s with
    | (Return a, s') => k a s'
    | (Throw e, s') => (Throw e, s')
    end.
Definition get {S} : method S S := fun s => (Return s, s).
Definition put {S} (s : S) : method S unit := fun _ => (Return tt, s).

(** A completion that does not touch the state. *)
Definition lift {S A} (c : completion A) : method S A := fun s => (c, s).

(** [try { m } catch (error) { h error }] *)
Definition try_catch {S A} (m : method S A) (h : exn -> method S A) : method S A :=
  fun s =>
    match m s with
    | (Return a, s') => (Return a, s')
    | (Throw e, s') => h e s'
    end.

(** *** String primitives *)

(** [s.startsWith(p)] *)
Definition startsWith (s p : string) : bool := String.prefix p s.

(** [s.endsWith(p)] *)
Definition endsWith (s p : string) : bool :=
  let n := String.length s in
  let k := String.length p in
  if (k <=? n)%nat then bool_decide (String.substring (n - k) k s = p) else false.

(** [s.includes(sub)]: [sub] starts at some position of [s]. *)
Fixpoint includes (s sub : string) : bool :=
  String.prefix sub s ||
  match s with
  | EmptyString => false
  | String _ s' => includes s' sub
  end.

(** [s.split(c)] for a separator [c] of one code unit: the pieces
    between the occurrences of [c], never an empty array. *)
Fixpoint split (c : ascii) (s : string) : list string :=
  match s with
  | EmptyString => [EmptyString]
  | String a s' =>
      if Ascii.eqb a c then EmptyString :: split c s'
      else match split c s' with
           | piece :: rest => String a piece :: rest
           | [] => [String a EmptyString]
           end
  end.

(** [l.join(sep)] on an array of strings. *)
Fixpoint join (sep : string) (l : list string) : string :=
  match l with
  | [] => EmptyString
  | [x] => x
  | x :: rest => x +:+ sep +:+ join sep rest
  end.

(** The line feed of a template literal that spans lines, and a text
    between double quotes. *)
Definition newline : string := String (ascii_of_nat 10) EmptyString.
Definition quoted (s : string) : string :=
  String (ascii_of_nat 34) s +:+ String (ascii_of_nat 34) EmptyString.

(** [expectedValue.split('=')]: [split] is a method of strings only;
    on another value the engine throws (messages as V8 words them). *)
Definition split_expected (expectedValue : value) : completion (list string) :=
  match expectedValue with
  | JStr s => Return (split "=" s)
  | JUndefined => Throw (TypeError "Cannot read properties of undefined (reading 'split')")
  | JNull => Throw (TypeError "Cannot read properties of null (reading 'split')")
  | JBool _ | JNum _ => Throw (TypeError "expectedValue.split is not a function")
  end.

(** An array element read by destructuring, [undefined] past the end. *)
Definition element (l : list string) (i : nat) : value :=
  match l !! i with Some s => JStr s | None => JUndefined end.

(** The class [\s] of regular expressions, on code units below U+0100:
    tab, line feed, vertical tab, form feed, carriage return, space and
    the no-break space U+00A0. *)
Definition isWhitespace (c : ascii) : bool :=
  let n := nat_of_ascii c in
  ((9 <=? n)%nat && (n <=? 13)%nat) || (n =? 32)%nat || (n =? 160)%nat.

(** [s.replace(/\s+/g, r)]: every maximal run of whitespace becomes one
    copy of [r].  [inRun] tells that the code unit before was whitespace,
    already replaced. *)
Fixpoint replaceWhitespaceRuns_aux (inRun : bool) (r s : string) : string :=
  match s with
  | EmptyString => EmptyString
  | String c s' =>
      if isWhitespace c then
        if inRun then replaceWhitespaceRuns_aux true r s'
        else r +:+ replaceWhitespaceRuns_aux true r s'
      else String c (replaceWhitespaceRuns_aux false r s')
  end.

Definition replaceWhitespaceRuns (r s : string) : string :=
  replaceWhitespaceRuns_aux false r s.

(** [toLowerCase] on one code unit below U+0100: A-Z and the Latin-1
    capitals U+00C0..U+00DE, the multiplication sign U+00D7 apart, move
    up by 32. *)
Definition toLowerCase_unit (c : ascii) : ascii :=
  let n := nat_of_ascii c in
  if ((65 <=? n)%nat && (n <=? 90)%nat)
     || ((192 <=? n)%nat && (n <=? 222)%nat && negb (n =? 215)%nat)
  then ascii_of_nat (n + 32) else c.

Fixpoint toLowerCase (s : string) : string :=
  match s with
  | EmptyString => EmptyString
  | String c s' => String (toLowerCase_unit c) (toLowerCase s')
  end.

(** *** Objects as property lists *)

(** The own enumerable properties of an object literal, in the order
    they were created, each key once. *)
Definition object : Type := list (string * value).

Definition digit (c : ascii) : option N :=
  let n := N_of_ascii c in
  if ((48 <=? n) && (n <=? 57))%N then Some (n - 48)%N else None.

Fixpoint digits (acc : N) (s : string) : option N :=
  match s with
  | EmptyString => Some acc
  | String c s' =>
      match digit c with
      | Some d => digits (10 * acc + d)%N s'
      | None => None
      end
  end.

(** A key is an array index when it is the canonical decimal form of an
    integer below 2^32 - 1. *)
Definition arrayIndex (k : string) : option N :=
  match k with
  | EmptyString => None
  | _ =>
      match digits 0%N k with
      | Some n =>
          if bool_decide (pretty n = k) && (n <? 4294967295)%N then Some n else None
      | None => None
      end
  end.

Fixpoint insert_by_index (e : N * (string * value)) (l : list (N * (string * value)))
  : list (N * (string * value)) :=
  match l with
  | [] => [e]
  | e' :: l' => if (fst e <=? fst e')%N then e :: l else e' :: insert_by_index e l'
  end.

(** [Object.entries(o)]: array-index keys in ascending order, then the
    other keys in creation order. *)
Definition Object_entries (o : object) : list (string * value) :=
  let indexed := omap (fun kv => (fun n => (n, kv)) <$> arrayIndex (fst kv)) o in
  let named := List.filter (fun kv => bool_decide (arrayIndex (fst kv) = None)) o in
  (snd <$> foldr insert_by_index [] indexed) ++ named.

(** A plain object [{}] used as a map from strings inherits the
    properties of [Object.prototype]; reading one of these names on an
    object that has no own property of that name yields a built-in
    function (for [__proto__], the prototype object itself). *)
Definition Object_prototype_keys : list string :=
  ["constructor"; "__proto__"; "hasOwnProperty"; "isPrototypeOf";
   "propertyIsEnumerable"; "toLocaleString"; "toString"; "valueOf";
   "__defineGetter__"; "__defineSetter__"; "__lookupGetter__"; "__lookupSetter__"].

Inductive property (A : Type) : Type :=
| Own (a : A)
| Inherited
| Missing.
Arguments Own {A} a.
Arguments Inherited {A}.
Arguments Missing {A}.

(** [o[k]] on such a map. *)
Definition get_property {A} (o : gmap string A) (k : string) : property A :=
  match o !! k with
  | Some a => Own a
  | None => if bool_decide (k ∈ Object_prototype_keys) then Inherited else Missing
  end.

(** *** Numbers of the report arithmetic *)

(** A count as a number: exact below 2^53. *)
Definition Number_of_N (n : N) : number := binary_normalize prec emax (Z.of_N n) 0 false.

Definition divide (x y : number) : number := SFdiv prec emax x y.
Definition multiply (x y : number) : number := SFmul prec emax x y.

(** The result of [Math.round]: not a number, an infinity, or an
    integer (the sign of a zero result is not kept; it does not print). *)
Inductive rounded : Type :=
| RNaN
| RInfinity (negative : bool)
| RInt (z : Z).

(** [Math.round(x)]: the integer nearest to [x], ties towards +infinity,
    that is floor(x + 1/2) computed exactly on the value m * 2^e. *)
Definition Math_round (x : number) : rounded :=
  match x with
  | S754_nan => RNaN
  | S754_infinity s => RInfinity s
  | S754_zero _ => RInt 0
  | S754_finite s m e =>
      let sm := if s then Z.neg m else Z.pos m in
      if 0 <=? e then RInt (sm * 2 ^ e)
      else RInt ((2 * sm + 2 ^ (- e)) / 2 ^ (- e + 1))
  end.

(** [`${r}`] for the result of [Math.round]. *)
Definition rounded_ToString (r : rounded) : string :=
  match r with
  | RNaN => "NaN"
  | RInfinity false => "Infinity"
  | RInfinity true => "-Infinity"
  | RInt z => pretty z
  end.

End JS.

Notation "x <~ m ;; k" := (JS.bind m (fun x => k))
  (at level 100, m at next level, k at level 200, right associativity,
   format "'[v' x  <~  m  ;;  '/' k ']'").
Notation "m ;;; k" := (JS.bind m (fun _ => k))
  (at level 100, k at level 200, right associativity,
   format "'[v' m  ;;;  '/' k ']'").

(** ** The file system under [fs] of Node (POSIX, as Linux has it)

    The process may read and write everywhere, space does not run out
    and there are no symbolic links.  A name has at most 255 bytes and a
    path fewer than 4096. *)

Module FS.
Import JS.

Inductive node : Type :=
| File (content : string)
| Directory.

(** A location: the names from the root directory down. *)
Definition location : Type := list string.

(** The working directory of the process and what there is at each
    location; the root directory is always there. *)
Record t : Type := Make {
  cwd : location;
  nodes : gmap location node
}.

Definition nodeAt (nodes : gmap location node) (loc : location) : option node :=
  match loc with
  | [] => Some Directory
  | _ => nodes !! loc
  end.

Inductive errno : Type := ENOENT | ENOTDIR | EISDIR | EEXIST | ENAMETOOLONG.

Definition describe (e : errno) : string :=
  match e with
  | ENOENT => "ENOENT: no such file or directory"
  | ENOTDIR => "ENOTDIR: not a directory"
  | EISDIR => "EISDIR: illegal operation on a directory"
  | EEXIST => "EEXIST: file already exists"
  | ENAMETOOLONG => "ENAMETOOLONG: name too long"
  end.

(** The error that [fs] throws for a failed system call. *)
Definition failure (e : errno) (syscall path : string) : exn :=
  Error (describe e +:+ ", " +:+ syscall +:+ " '" +:+ path +:+ "'").

(** What [fs] throws for a path that holds a null byte (the message
    goes on to print the argument). *)
Definition nul : string := String (ascii_of_nat 0) EmptyString.
Definition invalidPath : exn :=
  TypeError "The argument 'path' must be a string, Uint8Array, or URL without null bytes.".

(** The length in bytes of a text in UTF-8, code units below U+0100. *)
Fixpoint bytes (s : string) : nat :=
  match s with
  | EmptyString => 0
  | String c s' => (if (nat_of_ascii c <? 128)%nat then 1 else 2) + bytes s'
  end.

Definition NAME_MAX : nat := 255.
Definition PATH_MAX : nat := 4096.

(** Path resolution, one segment after the other from [here]: every
    segment is looked up in a directory; the last one need not exist. *)
Fixpoint walk (nodes : gmap location node) (here : location) (segments : list string)
  : errno + location :=
  match segments with
  | [] => inr here
  | segment :: rest =>
      match nodeAt nodes here with
      | None => inl ENOENT
      | Some (File _) => inl ENOTDIR
      | Some Directory =>
          if bool_decide (segment = EmptyString) || bool_decide (segment = ".") then
            walk nodes here rest
          else if bool_decide (segment = "..") then walk nodes (removelast here) rest
          else if (NAME_MAX <? bytes segment)%nat then inl ENAMETOOLONG
          else walk nodes (here ++ [segment]) rest
      end
  end.

Definition origin (fs : t) (path : string) : location :=
  if startsWith path "/" then [] else cwd fs.

Definition resolve (fs : t) (path : string) : errno + location :=
  if bool_decide (path = EmptyString) then inl ENOENT
  else if (PATH_MAX <=? bytes path)%nat then inl ENAMETOOLONG
  else walk (nodes fs) (origin fs path) (split "/" path).

(** [fs.existsSync(path)]: never throws. *)
Definition existsSync (path : string) (fs : t) : bool :=
  if includes path nul then false
  else
    match resolve fs path with
    | inr loc => match nodeAt (nodes fs) loc with Some _ => true | None => false end
    | inl _ => false
    end.

(** [fs.statSync(path).isDirectory()], false also where [statSync]
    would throw. *)
Definition isDirectory (path : string) (fs : t) : bool :=
  if includes path nul then false
  else
    match resolve fs path with
    | inr loc => match nodeAt (nodes fs) loc with Some Directory => true | _ => false end
    | inl _ => false
    end.

(** [fs.writeFileSync(path, content)] with a text: the file is created
    or replaced; nothing changes when it throws. *)
Definition writeFileSync (path content : string) : method t unit :=
  fun fs =>
    if includes path nul then (Throw invalidPath, fs)
    else
      match resolve fs path with
      | inl e => (Throw (failure e "open" path), fs)
      | inr loc =>
          match nodeAt (nodes fs) loc with
          | Some Directory => (Throw (failure EISDIR "open" path), fs)
          | _ => (Return tt, {| cwd := cwd fs; nodes := <[loc := File content]> (nodes fs) |})
          end
      end.

(** [fs.mkdirSync(path, { recursive: true })]: the directories that are
    missing on the way are made, also those made before it fails. *)
Fixpoint mkdirp (nodes : gmap location node) (here : location) (segments : list string)
  : option errno * gmap location node :=
  match segments with
  | [] => (None, nodes)
  | segment :: rest =>
      match nodeAt nodes here with
      | None => (Some ENOENT, nodes)
      | Some (File _) => (Some ENOTDIR, nodes)
      | Some Directory =>
          if bool_decide (segment = EmptyString) || bool_decide (segment = ".") then
            mkdirp nodes here rest
          else if bool_decide (segment = "..") then mkdirp nodes (removelast here) rest
          else if (NAME_MAX <? bytes segment)%nat then (Some ENAMETOOLONG, nodes)
          else
            match nodes !! (here ++ [segment]) with
            | None => mkdirp (<[here ++ [segment] := Directory]> nodes) (here ++ [segment]) rest
            | Some Directory => mkdirp nodes (here ++ [segment]) rest
            | Some (File _) =>
                (Some (match rest with [] => EEXIST | _ => ENOTDIR end), nodes)
            end
      end
  end.

Definition mkdirSync (path : string) : method t unit :=
  fun fs =>
    if includes path nul then (Throw invalidPath, fs)
    else if bool_decide (path = EmptyString) then (Throw (failure ENOENT "mkdir" path), fs)
    else if (PATH_MAX <=? bytes path)%nat then (Throw (failure ENAMETOOLONG "mkdir" path), fs)
    else
      match mkdirp (nodes fs) (origin fs path) (split "/" path) with
      | (None, nodes') => (Return tt, {| cwd := cwd fs; nodes := nodes' |})
      | (Some e, nodes') => (Throw (failure e "mkdir" path), {| cwd := cwd fs; nodes := nodes' |})
      end.

(** The content of the file at a path, if the path leads to a file. *)
Definition readFile (path : string) (fs : t) : option string :=
  match resolve fs path with
  | inr loc => match nodeAt (nodes fs) loc with Some (File content) => Some content | _ => None end
  | inl _ => None
  end.

End FS.

(** ** The fluent test builder ([testing-agent-cypress.js]) *)

Module Cypress.
Import JS.

(** What [generateElementTest] records for a compiled assertion. *)
Record logEntry : Type := LogEntry {
  entry_selector : string;
  entry_testType : string;
  entry_expected : value;
  entry_testAction : string
}.

(** The result object of [cypress.run], as far as the report reads it.
    Counts are numbers below 2^53; [None] is a property that is absent. *)
Record runStats : Type := RunStats {
  tests : N; passes : N; failures : N; duration : N
}.
Record run : Type := Run {
  spec_name : string;
  stats : runStats;
  video : option string;
  screenshots : list (string * string)
}.
Record runResults : Type := RunResults {
  runs : option (list run);
  totalTests : option N;
  totalPassed : option N;
  totalFailed : option N
}.

(** [this.testResults] starts as an array that [generateElementTest]
    pushes to; [runTests] replaces it by the result object. *)
Inductive results : Type :=
| Compiled (log : list logEntry)
| Ran (r : runResults).

Record agent : Type := Agent {
  baseUrl : value;
  outputDir : string;
  testResults : results;
  specFiles : list string
}.

(** The agent together with the file system of its process. *)
Record state : Type := State {
  this : agent;
  files : FS.t
}.

(** [new UITestingAgent(config)], [config.outputDir] being a string or
    absent; [||] takes the default for the empty string too. *)
Definition constructor (config_baseUrl : value) (config_outputDir : option string) : agent :=
  {| baseUrl := config_baseUrl;
     outputDir := match config_outputDir with
                  | Some dir => if ToBoolean (JStr dir) then dir else "./cypress/results"
                  | None => "./cypress/results"
                  end;
     testResults := Compiled [];
     specFiles := [] |}.

(** The calls of [fs] on the file system of the state. *)
Definition on_files {A} (m : method FS.t A) : method state A :=
  fun st =>
    match m (files st) with
    | (c, fs) => (c, {| this := this st; files := fs |})
    end.

Definition writeFileSync (path content : string) : method state unit :=
  on_files (FS.writeFileSync path content).

Definition mkdirSync (path : string) : method state unit :=
  on_files (FS.mkdirSync path).

Definition existsSync (path : string) (st : state) : bool :=
  FS.existsSync path (files st).

(** [createTest(testName, testActions)] *)
Definition specFileName (testName : string) : string :=
  toLowerCase (replaceWhitespaceRuns "_" testName) +:+ ".cy.js".

Definition testContent (testName : string) (testActions : list string) : string :=
  newline +:+ "    describe('" +:+ testName +:+ "', () => {" +:+ newline +:+
  "      it('performs UI testing', () => {" +:+ newline +:+
  "        " +:+ join (newline +:+ "        ") testActions +:+ newline +:+
  "      })" +:+ newline +:+
  "    })" +:+ newline +:+
  "    ".

Definition createTest (testName : string) (testActions : list string) : method state string :=
  let specFilePath := "./cypress/e2e/" +:+ specFileName testName in
  writeFileSync specFilePath (testContent testName testActions) ;;;
  (st <~ get ;;
   put {| this := {| baseUrl := baseUrl (this st);
                     outputDir := outputDir (this st);
                     testResults := testResults (this st);
                     specFiles := specFiles (this st) ++ [specFilePath] |};
          files := files st |} ;;;
   ret specFilePath).

(** The [switch (testType)] of [generateElementTest]. *)
Definition switch_testType (selector testType : string) (expectedValue : value)
  : method state string :=
  let get_ := "cy.get('" +:+ selector +:+ "')" in
  if decide (testType = "exists") then
    ret (get_ +:+ ".should('exist')")
  else if decide (testType = "text") then
    ret (get_ +:+ ".should('have.text', '" +:+ ToString expectedValue +:+ "')")
  else if decide (testType = "attribute") then
    parts <~ lift (split_expected expectedValue) ;;
    let attrName := element parts 0 in
    let attrValue := element parts 1 in
    ret (get_ +:+ ".should('have.attr', '" +:+ ToString attrName +:+ "', '"
           +:+ ToString attrValue +:+ "')")
  else if decide (testType = "clickable") then
    ret (get_ +:+ ".click()")
  else if decide (testType = "visible") then
    ret (get_ +:+ ".should('be.visible')")
  else if decide (testType = "count") then
    ret (get_ +:+ ".should('have.length', " +:+ ToString expectedValue +:+ ")")
  else if decide (testType = "containsText") then
    ret (get_ +:+ ".should('contain', '" +:+ ToString expectedValue +:+ "')")
  else if decide (testType = "cssProperty") then
    parts <~ lift (split_expected expectedValue) ;;
    let property := element parts 0 in
    let value := element parts 1 in
    ret (get_ +:+ ".should('have.css', '" +:+ ToString property +:+ "', '"
           +:+ ToString value +:+ "')")
  else
    throw (Error ("Unknown test type: " +:+ testType)).

(** [this.testResults.push(entry)] *)
Definition push_testResults (entry : logEntry) : method state unit :=
  st <~ get ;;
  match testResults (this st) with
  | Compiled log =>
      put {| this := {| baseUrl := baseUrl (this st);
                        outputDir := outputDir (this st);
                        testResults := Compiled (log ++ [entry]);
                        specFiles := specFiles (this st) |};
             files := files st |}
  | Ran _ => throw (TypeError "this.testResults.push is not a function")
  end.

(** [generateElementTest(selector, testType, expectedValue)] *)
Definition generateElementTest (selector testType : string) (expectedValue : value)
  : method state string :=
  testAction <~ switch_testType selector testType expectedValue ;;
  push_testResults (LogEntry selector testType expectedValue testAction) ;;;
  ret testAction.

(** [generateNavigationAction(url)]; [fullUrl] is its local constant. *)
Definition fullUrl (a : agent) (url : string) : string :=
  if startsWith url "http" then url else ToString (baseUrl a) +:+ url.

Definition generateNavigationAction (url : string) : method state string :=
  st <~ get ;;
  let fullUrl := fullUrl (this st) url in
  ret ("cy.visit('" +:+ url +:+ "')").

(** [generateScreenshotAction(name)] *)
Definition generateScreenshotAction (name : string) : method state string :=
  ret ("cy.screenshot('" +:+ name +:+ "')").

(** [generateFormFillAction(formData)]: the loop over the entries,
    [actions] being the array pushed to. *)
Fixpoint generateFormFillAction_loop (entries : list (string * value)) (actions : list string)
  : list string :=
  match entries with
  | [] => actions
  | (selector, value) :: rest =>
      if typeof_is_boolean value then
        if ToBoolean value then
          generateFormFillAction_loop rest (actions ++ ["cy.get('" +:+ selector +:+ "').check()"])
        else
          generateFormFillAction_loop rest (actions ++ ["cy.get('" +:+ selector +:+ "').uncheck()"])
      else if includes selector "select" then
        generateFormFillAction_loop rest
          (actions ++ ["cy.get('" +:+ selector +:+ "').select('" +:+ ToString value +:+ "')"])
      else
        generateFormFillAction_loop rest
          (actions ++ ["cy.get('" +:+ selector +:+ "').clear().type('" +:+ ToString value +:+ "')"])
  end.

Definition generateFormFillAction (formData : object) : method state (list string) :=
  ret (generateFormFillAction_loop (Object_entries formData) []).

(** An action object: its [type] tag and the properties the builder
    reads for that tag.  A property that a tag does not carry is never
    read. *)
Record action : Type := Action {
  type : string;
  url : string;
  selector : string;
  testType : string;
  expectedValue : value;
  formData : object;
  name : string;
  milliseconds : value
}.

(** The convenience methods that build action objects; [absent] fills
    the string properties that the built object does not have. *)
Definition absent : string := EmptyString.

Definition navigateTo (url : string) : action :=
  Action "navigate" url absent absent JUndefined [] absent JUndefined.
Definition testElement (selector testType : string) (expectedValue : value) : action :=
  Action "testElement" absent selector testType expectedValue [] absent JUndefined.
Definition fillForm (formData : object) : action :=
  Action "fillForm" absent absent absent JUndefined formData absent JUndefined.
Definition captureScreenshot (name : string) : action :=
  Action "screenshot" absent absent absent JUndefined [] name JUndefined.
Definition wait (milliseconds : value) : action :=
  Action "wait" absent absent absent JUndefined [] absent milliseconds.

(** The loop of [buildTestSuite], [testActions] being the array pushed
    to. *)
Fixpoint buildTestSuite_loop (actions : list action) (testActions : list string)
  : method state (list string) :=
  match actions with
  | [] => ret testActions
  | action :: rest =>
      if decide (type action = "navigate") then
        s <~ generateNavigationAction (url action) ;;
        buildTestSuite_loop rest (testActions ++ [s])
      else if decide (type action = "testElement") then
        s <~ generateElementTest (selector action) (testType action) (expectedValue action) ;;
        buildTestSuite_loop rest (testActions ++ [s])
      else if decide (type action = "fillForm") then
        l <~ generateFormFillAction (formData action) ;;
        buildTestSuite_loop rest (testActions ++ l)
      else if decide (type action = "screenshot") then
        s <~ generateScreenshotAction (name action) ;;
        buildTestSuite_loop rest (testActions ++ [s])
      else if decide (type action = "wait") then
        buildTestSuite_loop rest
          (testActions ++ ["cy.wait(" +:+ ToString (milliseconds action) +:+ ")"])
      else
        buildTestSuite_loop rest testActions
  end.

(** [buildTestSuite(suiteName, actions)] *)
Definition buildTestSuite (suiteName : string) (actions : list action) : method state string :=
  testActions <~ buildTestSuite_loop actions [] ;;
  createTest suiteName testActions.

(** [runTests()], given what [cypress.run] resolves to. *)
Definition runTests (r : runResults) : method state runResults :=
  st <~ get ;;
  put {| this := {| baseUrl := baseUrl (this st);
                    outputDir := outputDir (this st);
                    testResults := Ran r;
                    specFiles := specFiles (this st) |};
         files := files st |} ;;;
  ret r.

(** The pass rate of the summary block of [generateReport]:
    [totalTests > 0 ? Math.round((passedTests / totalTests) * 100) : 0];
    the comparison of two counts is exact. *)
Definition passRate (passedTests totalTests : N) : rounded :=
  if (0 <? totalTests)%N then
    Math_round (multiply (divide (Number_of_N passedTests) (Number_of_N totalTests))
                         (Number_of_N 100))
  else RInt 0.

(** The summary block of the HTML document, from [x || 0] of the totals. *)
Definition summary (r : runResults) : string :=
  let totalTests := default 0%N (totalTests r) in
  let passedTests := default 0%N (totalPassed r) in
  let failedTests := default 0%N (totalFailed r) in
  "<div class=" +:+ quoted "summary" +:+ ">" +:+ newline +:+
  "        <p>Passed: <span class=" +:+ quoted "passed" +:+ ">" +:+ pretty passedTests
    +:+ "</span> / " +:+ pretty totalTests +:+ "</p>" +:+ newline +:+
  "        <p>Failed: <span class=" +:+ quoted "failed" +:+ ">" +:+ pretty failedTests
    +:+ "</span> / " +:+ pretty totalTests +:+ "</p>" +:+ newline +:+
  "        <p>Pass Rate: " +:+ rounded_ToString (passRate passedTests totalTests)
    +:+ "%</p>" +:+ newline +:+
  "      </div>".

(** [generateReport()]: the summary block of the document it writes, or
    [None] when it warns that no results are available and returns. *)
Definition generateReport (st : state) : option string :=
  match testResults (this st) with
  | Compiled _ => None
  | Ran r =>
      match runs r with
      | None => None
      | Some _ => Some (summary r)
      end
  end.

End Cypress.

(** ** The direct driver (Playwright variant of [UITestingAgent]) *)

Module Playwright.
Import JS.

(** The page of the external browser engine.  Every operation may throw
    (element not found, timeout) and may change the page. *)
Class Page (W : Type) : Type := {
  (** [page.waitForSelector(selector, { state: 'visible', timeout: 5000 })] *)
  waitForSelector : string -> method W unit;
  isVisible : string -> method W bool;
  (** [string | null] *)
  textContent : string -> method W (option string);
  getAttribute : string -> string -> method W (option string);
  click : string -> method W unit;
  (** [new Date().toISOString()] *)
  now : W -> string
}.

(** An entry of [this.testResults]; [None] is a property the entry does
    not have. *)
Record testResult : Type := TestResult {
  selector : string;
  testType : string;
  expected : value;
  actual : option value;
  error : option string;
  passed : bool;
  timestamp : string
}.

Record agent : Type := Agent {
  baseUrl : value;
  outputDir : string;
  testResults : list testResult
}.

Section Driver.
Context {W : Type} `{Page W}.

Record state : Type := State {
  this : agent;
  page : W
}.

(** [await this.page.op(...)] *)
Definition on_page {A} (op : method W A) : method state A :=
  fun st =>
    let '(c, w) := op (page st) in
    (c, {| this := this st; page := w |}).

Definition string_or_null (o : option string) : value :=
  match o with Some s => JStr s | None => JNull end.

(** [this.testResults.push(entry)] with the time of the push. *)
Definition push_testResults (entry : string -> testResult) : method state unit :=
  fun st =>
    (Return tt,
     {| this := {| baseUrl := baseUrl (this st);
                   outputDir := outputDir (this st);
                   testResults := testResults (this st) ++ [entry (now (page st))] |};
        page := page st |}).

(** The [switch (testType)] of [testElement]: [result] and
    [actualValue] after it. *)
Definition switch_testType (selector testType : string) (expectedValue : value)
  : method state (bool * value) :=
  if decide (testType = "exists") then
    result <~ on_page (isVisible selector) ;;
    ret (result, JNull)
  else if decide (testType = "text") then
    text <~ on_page (textContent selector) ;;
    let actualValue := string_or_null text in
    ret (strict_equal actualValue expectedValue, actualValue)
  else if decide (testType = "attribute") then
    parts <~ lift (split_expected expectedValue) ;;
    let attrName := element parts 0 in
    let attrValue := element parts 1 in
    attr <~ on_page (getAttribute selector (ToString attrName)) ;;
    let actualValue := string_or_null attr in
    ret (strict_equal actualValue attrValue, actualValue)
  else if decide (testType = "clickable") then
    on_page (click selector) ;;;
    ret (true, JNull)
  else
    throw (Error ("Unknown test type: " +:+ testType)).

(** [testElement(selector, testType, expectedValue)] *)
Definition testElement_try (selector testType : string) (expectedValue : value)
  : method state bool :=
  on_page (waitForSelector selector) ;;;
  (r <~ switch_testType selector testType expectedValue ;;
   push_testResults (fun t =>
     {| selector := selector; testType := testType; expected := expectedValue;
        actual := Some (snd r); error := None; passed := fst r; timestamp := t |}) ;;;
   ret (fst r)).

Definition testElement (selector testType : string) (expectedValue : value)
  : method state bool :=
  try_catch (testElement_try selector testType expectedValue)
    (fun error =>
       push_testResults (fun t =>
         {| selector := selector; testType := testType; expected := expectedValue;
            actual := None; error := Some (message error); passed := false;
            timestamp := t |}) ;;;
       ret false).

(** A run: assertions awaited one after the other, as [runExample]
    does. *)
Fixpoint testElements (assertions : list (string * string * value))
  : method state (list bool) :=
  match assertions with
  | [] => ret []
  | (selector, testType, expectedValue) :: rest =>
      r <~ testElement selector testType expectedValue ;;
      rs <~ testElements rest ;;
      ret (r :: rs)
  end.

End Driver.

(** The counts and the pass rate of [generateReport]:
    [Math.round((passedTests / totalTests) * 100)] *)
Definition passedTests (results : list testResult) : N :=
  N.of_nat (length (List.filter passed results)).
Definition totalTests (results : list testResult) : N :=
  N.of_nat (length results).

Definition passRate (results : list testResult) : rounded :=
  Math_round (multiply (divide (Number_of_N (passedTests results))
                               (Number_of_N (totalTests results)))
                       (Number_of_N 100)).

(** The summary block of the HTML document [generateReport] writes. *)
Definition summary (results : list testResult) : string :=
  "<div class=" +:+ quoted "summary" +:+ ">" +:+ newline +:+
  "        <p>Passed: <span class=" +:+ quoted "passed" +:+ ">"
    +:+ pretty (passedTests results) +:+ "</span> / "
    +:+ pretty (totalTests results) +:+ "</p>" +:+ newline +:+
  "        <p>Failed: <span class=" +:+ quoted "failed" +:+ ">"
    +:+ pretty (totalTests results - passedTests results)%N +:+ "</span> / "
    +:+ pretty (totalTests results) +:+ "</p>" +:+ newline +:+
  "        <p>Pass Rate: " +:+ rounded_ToString (passRate results) +:+ "%</p>" +:+ newline +:+
  "      </div>".

Definition generateReport (a : agent) : string := summary (testResults a).

End Playwright.

(** ** The route/viewport test generator (class [CypressTestAgent]) *)

Module Generator.
Import JS.

(** [path.basename(p, ext)] of Node on POSIX paths: the last component
    of [p], trailing slashes dropped, without [ext] when the component
    ends in it and is longer than it; the empty string when [p] is [ext]
    itself. *)
Definition basename (p ext : string) : string :=
  if bool_decide (p = ext) then EmptyString
  else
    let component :=
      List.last (List.filter (fun c => negb (bool_decide (c = EmptyString))) (split "/" p))
                EmptyString in
    if endsWith component ext && negb (bool_decide (component = ext)) then
      String.substring 0 (String.length component - String.length ext) component
    else component.

(** [reportData]: route to viewport to the files pushed, in push order. *)
Abbreviation reportData := (gmap string (gmap string (list string))).

(** How the grouping ends. *)
Inductive grouping : Type :=
| Groups (data : reportData)
    (** every file was handled *)
| Raised (e : exn)
    (** the callback threw *)
| OnBuiltin (route : string)
    (** [reportData[route]] was a property inherited from
        [Object.prototype]: the callback went on to read and write that
        built-in object in place of a group of [reportData]; what
        happens to it is not followed further *).

(** The callback of [screenshotFiles.forEach]. *)
Definition group_file (file : string) (data : reportData) : grouping :=
  let filename := basename file ".png" in
  let parts := split "-" filename in
  if (2 <=? length parts)%nat then
    let route := nth 0 parts EmptyString in
    let viewport := nth 1 parts EmptyString in
    (* if (!reportData[route]) reportData[route] = {} *)
    match get_property data route with
    | Inherited => OnBuiltin route
    | (Own _ | Missing) as r =>
        let views : gmap string (list string) :=
          match r with Own v => v | _ => ∅ end in
        (* if (!reportData[route][viewport]) reportData[route][viewport] = [] *)
        match get_property views viewport with
        | Inherited =>
            (* a built-in function has no [push] *)
            Raised (TypeError "reportData[route][viewport].push is not a function")
        | Own l => Groups (<[route := <[viewport := l ++ [file]]> views]> data)
        | Missing => Groups (<[route := <[viewport := [file]]> views]> data)
        end
    end
  else Groups data.

Fixpoint forEach_group (files : list string) (data : reportData) : grouping :=
  match files with
  | [] => Groups data
  | file :: rest =>
      match group_file file data with
      | Groups data' => forEach_group rest data'
      | stopped => stopped
      end
  end.

(** The grouping of [generateReport], from the listing that
    [getAllFiles(this.screenshotsDir)] returns. *)
Definition generateReport (allFiles : list string) : grouping :=
  let screenshotFiles := List.filter (fun file => endsWith file ".png") allFiles in
  forEach_group screenshotFiles ∅.

End Generator.

(** ** Notions of the specification *)

Module Spec.
Import JS.

(** The recognized assertion kinds of the Action Builder. *)
Definition supportedKinds : list string :=
  ["exists"; "text"; "attribute"; "clickable"; "visible"; "count";
   "containsText"; "cssProperty"].

Definition supported (kind : string) : bool := bool_decide (kind ∈ supportedKinds).

(** The type tags of the Action DSL. *)
Definition actionTypes : list string :=
  ["navigate"; "testElement"; "fillForm"; "screenshot"; "wait"].

Definition recognized (type : string) : bool := bool_decide (type ∈ actionTypes).

(** Form-fill translation, in the words of the specification: a boolean
    value gives a check or uncheck statement, a selector that names a
    selection control a select statement, anything else a
    clear-then-type statement. *)
Inductive fieldControl : Type :=
| Check
| Uncheck
| Select (option_ : string)
| ClearThenType (text : string).

Definition fieldControl_of (selector : string) (v : value) : fieldControl :=
  match v with
  | JBool true => Check
  | JBool false => Uncheck
  | _ => if includes selector "select" then Select (ToString v)
         else ClearThenType (ToString v)
  end.

Definition fieldStatement (selector : string) (c : fieldControl) : string :=
  "cy.get('" +:+ selector +:+ "')" +:+
  match c with
  | Check => ".check()"
  | Uncheck => ".uncheck()"
  | Select o => ".select('" +:+ o +:+ "')"
  | ClearThenType t => ".clear().type('" +:+ t +:+ "')"
  end.

(** A project directory in which the directories of Cypress are there
    and no file is written yet. *)
Definition project : FS.t :=
  {| FS.cwd := ["project"];
     FS.nodes := {[ ["project"] := FS.Directory;
                    ["project"; "cypress"] := FS.Directory;
                    ["project"; "cypress"; "e2e"] := FS.Directory ]} |}.

(** A project directory with nothing in it. *)
Definition emptyProject : FS.t :=
  {| FS.cwd := ["project"]; FS.nodes := {[ ["project"] := FS.Directory ]} |}.

(** The state of a fresh agent of the fluent builder, nothing written. *)
Definition fresh : Cypress.state :=
  Cypress.State (Cypress.constructor (JStr "https://example.com") None) project.

(** A fluent builder after [runTests], with an empty result object. *)
Definition afterRun : Cypress.state :=
  snd (Cypress.runTests (Cypress.RunResults (Some []) None None None) fresh).

(** Whether [this.testResults] is still the array that the element-test
    compiler pushes to. *)
Definition pushes (st : Cypress.state) : bool :=
  match Cypress.testResults (Cypress.this st) with
  | Cypress.Compiled _ => true
  | Cypress.Ran _ => false
  end.

(** The state after [this.testResults.push(entry)] on that array. *)
Definition pushed (entry : Cypress.logEntry) (st : Cypress.state) : Cypress.state :=
  match Cypress.testResults (Cypress.this st) with
  | Cypress.Compiled log =>
      Cypress.State
        (Cypress.Agent (Cypress.baseUrl (Cypress.this st)) (Cypress.outputDir (Cypress.this st))
                       (Cypress.Compiled (log ++ [entry])) (Cypress.specFiles (Cypress.this st)))
        (Cypress.files st)
  | Cypress.Ran _ => st
  end.

(** The statements that the suite builder emits for one action on its
    own, and the same as a plain list, empty when the action throws. *)
Definition statementsOf (st : Cypress.state) (a : Cypress.action) : completion (list string) :=
  fst (Cypress.buildTestSuite_loop [a] [] st).

Definition group (st : Cypress.state) (a : Cypress.action) : list string :=
  match statementsOf st a with
  | Return l => l
  | Throw _ => []
  end.

(** Compiling one action, in the words of the specification: the
    statements that the one action stands for, by its type, whatever
    the actions around it: a visit, the statement of the element-test
    compiler, the statements of the form-fill compiler, a screenshot, a
    wait, and nothing for any other type. *)
Definition compile (st : Cypress.state) (a : Cypress.action) : completion (list string) :=
  if decide (Cypress.type a = "navigate") then
    Return ["cy.visit('" +:+ Cypress.url a +:+ "')"]
  else if decide (Cypress.type a = "testElement") then
    match fst (Cypress.generateElementTest (Cypress.selector a) (Cypress.testType a)
                 (Cypress.expectedValue a) st) with
    | Return statement => Return [statement]
    | Throw e => Throw e
    end
  else if decide (Cypress.type a = "fillForm") then
    Return (Cypress.generateFormFillAction_loop (Object_entries (Cypress.formData a)) [])
  else if decide (Cypress.type a = "screenshot") then
    Return ["cy.screenshot('" +:+ Cypress.name a +:+ "')"]
  else if decide (Cypress.type a = "wait") then
    Return ["cy.wait(" +:+ ToString (Cypress.milliseconds a) +:+ ")"]
  else Return [].

(** A page for examples: the visible elements, each with its text; an
    operation on a selector that matches none of them times out. *)
Fixpoint textOf (elements : list (string * string)) (selector : string) : option string :=
  match elements with
  | [] => None
  | (s, t) :: rest => if decide (s = selector) then Some t else textOf rest selector
  end.

Definition onElement {A} (selector : string) (a : string -> A)
  : method (list (string * string)) A :=
  fun elements =>
    match textOf elements selector with
    | Some t => (Return (a t), elements)
    | None => (Throw (Error "Timeout 5000ms exceeded."), elements)
    end.

#[global] Instance listPage : Playwright.Page (list (string * string)) := {|
  Playwright.waitForSelector selector := onElement selector (fun _ => tt);
  Playwright.isVisible selector := onElement selector (fun _ => true);
  Playwright.textContent selector := onElement selector Some;
  Playwright.getAttribute selector _ := onElement selector (fun _ => None);
  Playwright.click selector := onElement selector (fun _ => tt);
  Playwright.now _ := "2025-01-01T00:00:00.000Z"
|}.

(** The result list of the direct driver has grown by one entry. *)
Definition recorded {W} (st st' : @Playwright.state W) (entry : Playwright.testResult) : Prop :=
  Playwright.testResults (Playwright.this st')
  = Playwright.testResults (Playwright.this st) ++ [entry].

(** A direct driver on the page of example.com, no assertion run yet. *)
Definition examplePage : Playwright.state :=
  Playwright.State (Playwright.Agent (JStr "https://example.com") "./test-results" [])
                   [("h1", "Example Domain")].

(** Screenshot grouping, in the words of the specification: the segments
    of a file are the hyphen-delimited pieces of its base name without
    extension; a file with at least two segments belongs to the group of
    its first segment (route) and second segment (viewport). *)
Definition segments (file : string) : list string :=
  split "-" (Generator.basename file ".png").
Definition routeOf (file : string) : string := nth 0 (segments file) EmptyString.
Definition viewportOf (file : string) : string := nth 1 (segments file) EmptyString.
Definition grouped (file : string) : bool := (2 <=? length (segments file))%nat.

Definition groupOf (files : list string) (route viewport : string) : list string :=
  List.filter (fun file => grouped file && bool_decide (routeOf file = route)
                           && bool_decide (viewportOf file = viewport)) files.

(** The files of a group of [reportData], if the group exists. *)
Definition lookup2 (data : Generator.reportData) (route viewport : string)
  : option (list string) :=
  match data !! route with
  | Some views => views !! viewport
  | None => None
  end.

(** A group after more files were pushed to it; a group is created by
    its first file. *)
Definition extend (old : option (list string)) (new : list string) : option (list string) :=
  match old with
  | Some l => Some (l ++ new)
  | None => match new with [] => None | _ => Some new end
  end.

(** Neither segment of a grouped file names a property that plain
    objects inherit. *)
Definition plain (file : string) : Prop :=
  grouped file = true ->
  (routeOf file ∉ Object_prototype_keys) /\ (viewportOf file ∉ Object_prototype_keys).

End Spec.

(** ** Paths of Node ([path.join], [path.normalize], POSIX) *)

Module Path.
Import JS.

(** One segment of a path against the segments kept so far, the last kept
    first: empty segments and [.] are dropped, [..] removes the segment
    before it, or is kept when there is none to remove and the path is
    relative. *)
Definition normalizeStep (allowAboveRoot : bool) (kept : list string) (segment : string)
  : list string :=
  if bool_decide (segment = EmptyString) || bool_decide (segment = ".") then kept
  else if bool_decide (segment = "..") then
    match kept with
    | last :: before =>
        if bool_decide (last = "..") then (if allowAboveRoot then ".." :: kept else kept)
        else before
    | [] => if allowAboveRoot then [".."] else []
    end
  else segment :: kept.

Definition normalizeString (path : string) (allowAboveRoot : bool) : string :=
  join "/" (rev (fold_left (normalizeStep allowAboveRoot) (split "/" path) [])).

(** [path.normalize(path)] *)
Definition normalize (path : string) : string :=
  if bool_decide (path = EmptyString) then "."
  else
    let isAbsolute := startsWith path "/" in
    let trailingSeparator := endsWith path "/" in
    let normalized := normalizeString path (negb isAbsolute) in
    if bool_decide (normalized = EmptyString) then
      if isAbsolute then "/" else if trailingSeparator then "./" else "."
    else
      (if isAbsolute then "/" else EmptyString) +:+ normalized
        +:+ (if trailingSeparator then "/" else EmptyString).

(** [path.join(...paths)] *)
Definition join (paths : list string) : string :=
  match List.filter (fun arg => negb (bool_decide (arg = EmptyString))) paths with
  | [] => "."
  | joined => normalize (JS.join "/" joined)
  end.

(** [path.basename(p)] *)
Definition basename (p : string) : string := Generator.basename p EmptyString.

End Path.

(** ** The fluent test builder: configuration and accessibility spec *)

Module CypressFiles.
Import JS Cypress.

(** The configuration file that [initialize] writes. *)
Definition configContent (a : agent) : string :=
  newline +:+
  "      const { defineConfig } = require('cypress')" +:+ newline +:+
  newline +:+
  "      module.exports = defineConfig({" +:+ newline +:+
  "        e2e: {" +:+ newline +:+
  "          baseUrl: '" +:+ ToString (baseUrl a) +:+ "'," +:+ newline +:+
  "          video: true," +:+ newline +:+
  "          screenshotOnRunFailure: true," +:+ newline +:+
  "          reporter: 'junit'," +:+ newline +:+
  "          reporterOptions: {" +:+ newline +:+
  "            mochaFile: '" +:+ outputDir a +:+ "/results-[hash].xml'," +:+ newline +:+
  "            toConsole: true," +:+ newline +:+
  "          }," +:+ newline +:+
  "        }," +:+ newline +:+
  "      })" +:+ newline +:+
  "      ".

(** [if (!fs.existsSync(dir)) fs.mkdirSync(dir, { recursive: true })] *)
Definition ensureDir (dir : string) : method state unit :=
  st <~ get ;;
  if negb (existsSync dir st) then mkdirSync dir else ret tt.

(** [initialize()] *)
Definition initialize : method state unit :=
  ensureDir "./cypress" ;;;
  ensureDir "./cypress/e2e" ;;;
  ensureDir "./cypress/screenshots" ;;;
  ensureDir "./cypress/videos" ;;;
  (st <~ get ;;
   ensureDir (outputDir (this st)) ;;;
   (st <~ get ;;
    if negb (existsSync "./cypress.config.js" st) then
      writeFileSync "./cypress.config.js" (configContent (this st))
    else ret tt)).

(** The support file and the spec of [generateAccessibilityTest]. *)
Definition supportContent : string :=
  newline +:+
  "        import 'cypress-axe';" +:+ newline +:+
  "        " +:+ newline +:+
  "        Cypress.Commands.add('checkPageA11y', () => {" +:+ newline +:+
  "          cy.injectAxe();" +:+ newline +:+
  "          cy.checkA11y();" +:+ newline +:+
  "        });" +:+ newline +:+
  "      ".

Definition a11yContent (testName : string) : string :=
  newline +:+
  "    describe('" +:+ testName +:+ " Accessibility', () => {" +:+ newline +:+
  "      it('checks accessibility', () => {" +:+ newline +:+
  "        cy.visit('/');" +:+ newline +:+
  "        cy.injectAxe();" +:+ newline +:+
  "        cy.checkA11y();" +:+ newline +:+
  "      })" +:+ newline +:+
  "    })" +:+ newline +:+
  "    ".

Definition a11yFileName (testName : string) : string :=
  toLowerCase (replaceWhitespaceRuns "_" testName) +:+ "_a11y.cy.js".

(** The support file is written if nothing exists at its path. *)
Definition ensureSupportFile (supportDir : string) : method state unit :=
  st <~ get ;;
  if negb (existsSync (supportDir +:+ "/e2e.js") st) then
    writeFileSync (supportDir +:+ "/e2e.js") supportContent
  else ret tt.

(** The end of [generateAccessibilityTest]: the spec is written and its
    path pushed and returned. *)
Definition writeSpec (specFilePath testContent : string) : method state string :=
  writeFileSync specFilePath testContent ;;;
  (st <~ get ;;
   put {| this := {| baseUrl := baseUrl (this st);
                     outputDir := outputDir (this st);
                     testResults := testResults (this st);
                     specFiles := specFiles (this st) ++ [specFilePath] |};
          files := files st |} ;;;
   ret specFilePath).

(** [generateAccessibilityTest(testName)].  The command
    [npm list cypress-axe || npm install cypress-axe] runs first and its
    outcome is ignored; [npm] is what it makes of the file system. *)
Definition generateAccessibilityTest (npm : FS.t -> FS.t) (testName : string)
  : method state string :=
  let specFilePath := "./cypress/e2e/" +:+ a11yFileName testName in
  on_files (fun fs => (Return tt, npm fs)) ;;;
  let supportDir := "./cypress/support" in
  ensureDir supportDir ;;;
  ensureSupportFile supportDir ;;;
  writeSpec specFilePath (a11yContent testName).

End CypressFiles.

(** ** The fluent test builder: artifact lists of the report *)

Module CypressReport.
Import JS Cypress.

(** The item of a run in the list of videos: nothing when the run has no
    video ([undefined], [null] or the empty string). *)
Definition videoItem (r : run) : string :=
  let videoPath := match video r with Some v => JStr v | None => JUndefined end in
  if ToBoolean videoPath then
    let videoName := Path.basename (ToString videoPath) in
    "<li><a href=" +:+ quoted ("./videos/" +:+ videoName) +:+ ">" +:+ spec_name r
      +:+ " Video</a></li>"
  else EmptyString.

(** [runs.map(...).join('') || ''] *)
Definition videoList (runs : list run) : string := join EmptyString (map videoItem runs).

(** The item of a screenshot, a pair of its name and its path. *)
Definition screenshotItem (screenshot : string * string) : string :=
  let screenshotName := Path.basename (snd screenshot) in
  "<li><a href=" +:+ quoted ("./screenshots/" +:+ screenshotName) +:+ ">" +:+ fst screenshot
    +:+ "</a></li>".

Definition screenshotItems (r : run) : string :=
  if (0 <? length (screenshots r))%nat then
    join EmptyString (map screenshotItem (screenshots r))
  else EmptyString.

Definition screenshotList (runs : list run) : string :=
  join EmptyString (map screenshotItems runs).

End CypressReport.

(** ** The direct driver: navigation, screenshots, forms and the table of
       the report *)

Module PlaywrightDriver.
Import JS Playwright.

(** The further operations of the page that the driver calls; each may
    throw. *)
Class Browser (W : Type) : Type := {
  (** [page.goto(url, { waitUntil: 'networkidle' })] *)
  goto : string -> method W unit;
  (** [page.screenshot({ path, fullPage: true })] *)
  screenshot : string -> method W unit;
  (** [page.fill(selector, value)] *)
  fill : string -> value -> method W unit
}.

(** The local constant [fullUrl] of [navigateTo]. *)
Definition fullUrl (a : agent) (url : string) : string :=
  if startsWith url "http" then url else ToString (baseUrl a) +:+ url.

Section Driver.
Context {W : Type} `{Browser W}.

(** [navigateTo(url)] *)
Definition navigateTo (url : string) : method (@state W) unit :=
  st <~ get ;;
  on_page (goto (fullUrl (this st) url)).

(** [captureScreenshot(name)] *)
Definition captureScreenshot (name : string) : method (@state W) string :=
  st <~ get ;;
  let screenshotPath := Path.join [outputDir (this st); "screenshots"; name +:+ ".png"] in
  on_page (screenshot screenshotPath) ;;;
  ret screenshotPath.

(** [fillForm(formData)] *)
Fixpoint fillForm_loop (entries : list (string * value)) : method (@state W) unit :=
  match entries with
  | [] => ret tt
  | (selector, value) :: rest =>
      on_page (fill selector value) ;;;
      fillForm_loop rest
  end.

Definition fillForm (formData : object) : method (@state W) unit :=
  fillForm_loop (Object_entries formData).

End Driver.

(** [a || b] *)
Definition orElse (a b : value) : value := if ToBoolean a then a else b.

Definition optional {A} (f : A -> value) (o : option A) : value :=
  match o with Some a => f a | None => JUndefined end.

(** The cells of a row of the table of [generateReport]. *)
Definition rowClass (test : testResult) : string :=
  if passed test then EmptyString else "test-failed".
Definition expectedCell (test : testResult) : string :=
  ToString (orElse (expected test) (JStr "N/A")).
Definition actualCell (test : testResult) : string :=
  ToString (orElse (orElse (optional id (actual test)) (optional JStr (error test)))
                   (JStr "N/A")).
Definition statusCell (test : testResult) : string :=
  if passed test then "PASS" else "FAIL".

Definition row (test : testResult) : string :=
  newline +:+
  "          <tr class=" +:+ quoted (rowClass test) +:+ ">" +:+ newline +:+
  "            <td>" +:+ selector test +:+ "</td>" +:+ newline +:+
  "            <td>" +:+ testType test +:+ "</td>" +:+ newline +:+
  "            <td>" +:+ expectedCell test +:+ "</td>" +:+ newline +:+
  "            <td>" +:+ actualCell test +:+ "</td>" +:+ newline +:+
  "            <td>" +:+ statusCell test +:+ "</td>" +:+ newline +:+
  "            <td>" +:+ timestamp test +:+ "</td>" +:+ newline +:+
  "          </tr>" +:+ newline +:+
  "        ".

(** [this.testResults.map(test => ...).join('')] *)
Definition rows (results : list testResult) : string := join EmptyString (map row results).

End PlaywrightDriver.

(** ** The test generator: names of the generated files and the listing
       of the screenshots *)

Module GeneratorFiles.
Import JS.

(** [route.replace(/\//g, '_')] *)
Fixpoint replaceSlashes (s : string) : string :=
  match s with
  | EmptyString => EmptyString
  | String c s' => String (if Ascii.eqb c "/" then "_"%char else c) (replaceSlashes s')
  end.

(** [s.slice(1)] *)
Definition slice1 (s : string) : string :=
  match s with
  | EmptyString => EmptyString
  | String _ s' => s'
  end.

(** The [routeName] and [testFilePath] of [generateTests]. *)
Definition routeName (route : string) : string :=
  if bool_decide (route = "/") then "home" else slice1 (replaceSlashes route).

Definition testFilePath (testsDir route : string) : string :=
  Path.join [testsDir; routeName route +:+ "_spec.e2e.js"].

(** The names that the generated tests give their screenshots: the
    route name and the name of the viewport, then what tells the
    screenshots of a test apart ([page-loaded],
    [element-0-before-click], ...). *)
Definition screenshotName (routeName viewportName rest : string) : string :=
  routeName +:+ "-" +:+ viewportName +:+ "-" +:+ rest.

(** What [fs.readdirSync] and [fs.statSync] show of a directory: its
    entries by name, each a file or a directory. *)
#[warnings="-register-all"]
Inductive node : Type :=
| File
| Directory (entries : list (string * node)).

(** [getAllFiles(dir, fileList)]: [fileList] is the array pushed to. *)
Fixpoint getAllFiles_entry (filePath : string) (n : node) (fileList : list string)
  : list string :=
  match n with
  | File => fileList ++ [filePath]
  | Directory entries =>
      (fix forEach (files : list (string * node)) (fileList : list string) : list string :=
         match files with
         | [] => fileList
         | (file, child) :: rest =>
             forEach rest (getAllFiles_entry (Path.join [filePath; file]) child fileList)
         end) entries fileList
  end.

Definition getAllFiles (dir : string) (entries : list (string * node)) (fileList : list string)
  : list string :=
  getAllFiles_entry dir (Directory entries) fileList.

(** [generateTests]: one [fs.writeFileSync] per route, in the order of
    [this.routes], on the files written so far.  The text of a test is
    what [generateTestContent] makes of the route and its name. *)
Section Tests.
Variable generateTestContent : string -> string -> string.



End Tests.

End GeneratorFiles.

(** ** Further notions for the properties of the code *)

Module Notions.
Import JS.

(** The code unit [c] does not occur in [s]. *)
Definition lacks (c : ascii) (s : string) : bool :=
  forallb (fun x => negb (Ascii.eqb x c)) (list_ascii_of_string s).

(** The first piece of [s] up to the separator [c]. *)
Definition upTo (c : ascii) (s : string) : string :=
  match split c s with
  | piece :: _ => piece
  | [] => EmptyString
  end.

(** The action is compiled by the element-test compiler. *)
Definition isElementTest (a : Cypress.action) : bool :=
  bool_decide (Cypress.type a = "testElement").

(** The log entry is the record of compiling the action in state [st]. *)
Definition entryFor (st : Cypress.state) (a : Cypress.action) (e : Cypress.logEntry) : Prop :=
  Cypress.entry_selector e = Cypress.selector a /\
  Cypress.entry_testType e = Cypress.testType a /\
  Cypress.entry_expected e = Cypress.expectedValue a /\
  Spec.statementsOf st a = Return [Cypress.entry_testAction e].

(** The entries that compiling the element tests of [actions] adds. *)
Definition elementEntries (st : Cypress.state) (actions : list Cypress.action)
  : list Cypress.logEntry :=
  flat_map (fun a =>
    if isElementTest a then
      match Spec.statementsOf st a with
      | Return [t] =>
          [Cypress.LogEntry (Cypress.selector a) (Cypress.testType a) (Cypress.expectedValue a) t]
      | _ => []
      end
    else []) actions.

(** The log of compiled assertions, empty once the tests have run. *)
Definition logOf (st : Cypress.state) : list Cypress.logEntry :=
  match Cypress.testResults (Cypress.this st) with
  | Cypress.Compiled log => log
  | Cypress.Ran _ => []
  end.

(** Whether the last code unit of [s] is whitespace, and whether a scan
    that has read [a] is inside a run of whitespace. *)
Fixpoint endsInWhitespace (s : string) : bool :=
  match s with
  | EmptyString => false
  | String c EmptyString => isWhitespace c
  | String _ s' => endsInWhitespace s'
  end.

Definition inRunAfter (inRun : bool) (a : string) : bool :=
  match a with
  | EmptyString => inRun
  | _ => endsInWhitespace a
  end.

(** Whether the last code unit of [s] is [c]. *)
Fixpoint lastIs (c : ascii) (s : string) : bool :=
  match s with
  | EmptyString => false
  | String x EmptyString => Ascii.eqb x c
  | String _ s' => lastIs c s'
  end.

(** A name as a directory lists it: not empty, without slash, neither
    [.] nor [..]. *)
Definition plainSegment (s : string) : bool :=
  lacks "/" s && negb (bool_decide (s = EmptyString)) && negb (bool_decide (s = "."))
  && negb (bool_decide (s = "..")).

(** The names of the files of a directory tree, depth first in the order
    of the listings, and whether every entry of the tree has a plain
    name. *)
Fixpoint leafNames_entry (name : string) (n : GeneratorFiles.node) : list string :=
  match n with
  | GeneratorFiles.File => [name]
  | GeneratorFiles.Directory entries =>
      (fix forEach (files : list (string * GeneratorFiles.node)) : list string :=
         match files with
         | [] => []
         | (file, child) :: rest => leafNames_entry file child ++ forEach rest
         end) entries
  end.

Definition leafNames (entries : list (string * GeneratorFiles.node)) : list string :=
  leafNames_entry EmptyString (GeneratorFiles.Directory entries).

Fixpoint wellNamed_node (n : GeneratorFiles.node) : bool :=
  match n with
  | GeneratorFiles.File => true
  | GeneratorFiles.Directory entries =>
      (fix forEach (files : list (string * GeneratorFiles.node)) : bool :=
         match files with
         | [] => true
         | (file, child) :: rest => plainSegment file && wellNamed_node child && forEach rest
         end) entries
  end.

Definition wellNamed (entries : list (string * GeneratorFiles.node)) : bool :=
  wellNamed_node (GeneratorFiles.Directory entries).

(** A browser on the page of the examples: an input is filled by
    replacing its text, a selector that matches no element times out. *)
Fixpoint setText (elements : list (string * string)) (selector text : string)
  : list (string * string) :=
  match elements with
  | [] => []
  | (s, t) :: rest =>
      if decide (s = selector) then (s, text) :: rest else (s, t) :: setText rest selector text
  end.

#[global] Instance listBrowser : PlaywrightDriver.Browser (list (string * string)) := {|
  PlaywrightDriver.goto _ := ret tt;
  PlaywrightDriver.screenshot _ := ret tt;
  PlaywrightDriver.fill selector v := fun elements =>
    match Spec.textOf elements selector with
    | Some _ => (Return tt, setText elements selector (ToString v))
    | None => (Throw (Error "Timeout 30000ms exceeded."), elements)
    end
|}.

(** A direct driver on a login form, both inputs empty. *)
Definition loginPage : Playwright.state :=
  Playwright.State (Playwright.Agent (JStr "https://example.com") "./test-results" [])
                   [("#username", EmptyString); ("#password", EmptyString)].

(** The run has a video to link to. *)
Definition hasVideo (r : Cypress.run) : bool :=
  match Cypress.video r with
  | Some v => negb (bool_decide (v = EmptyString))
  | None => false
  end.

(** The file of a screenshot that a generated test takes: the name that
    the test gives it, with the extension [.png], in some directory. *)
Definition screenshotFile (dir routeName viewportName rest : string) : string :=
  dir +:+ GeneratorFiles.screenshotName routeName viewportName rest +:+ ".png".

(** A directory part of a path: nothing, or a text that ends in a slash. *)
Definition directoryPart (dir : string) : Prop :=
  dir = EmptyString \/ exists d, dir = d +:+ "/".

(** A name that a group of the report can bear: without slash and
    hyphen, and not the name of a property that plain objects inherit. *)
Definition groupName (s : string) : bool :=
  lacks "/" s && lacks "-" s && negb (bool_decide (s ∈ Object_prototype_keys)).

(** The file is a screenshot that a generated test took for the route
    name and viewport, both names that a group can bear. *)
Definition takenFor (file routeName viewportName : string) : Prop :=
  exists dir rest,
    file = screenshotFile dir routeName viewportName rest /\
    directoryPart dir /\ lacks "/" rest = true /\
    groupName routeName = true /\ groupName viewportName = true.

Definition taken (file : string) : Prop :=
  exists routeName viewportName, takenFor file routeName viewportName.

(** A file system after directories were made or files written where
    there was nothing: what was there is there as it was. *)
Definition grows (fs fs' : FS.t) : Prop :=
  FS.cwd fs' = FS.cwd fs /\ FS.nodes fs ⊆ FS.nodes fs'.

(** No file is new in [fs']. *)
Definition sameFiles (fs fs' : FS.t) : Prop :=
  forall loc content,
    FS.nodes fs' !! loc = Some (FS.File content) -> FS.nodes fs !! loc = Some (FS.File content).

(** A name that a directory can list: without slash and null byte, of
    at most 255 bytes. *)
Definition fits (name : string) : bool :=
  lacks "/" name && lacks (ascii_of_nat 0) name && (FS.bytes name <=? FS.NAME_MAX)%nat.

End Notions.

(** ** Strings: substrings, whitespace runs and lower case *)

Section Strings.
Import JS.

Lemma append_cons c a b : String c a +:+ b = String c (a +:+ b).
Proof. reflexivity. Qed.

Lemma append_empty b : EmptyString +:+ b = b.
Proof. reflexivity. Qed.

Lemma append_assoc a b c : (a +:+ b) +:+ c = a +:+ (b +:+ c).
Proof.
  induction a as [|x a IH]; [reflexivity|].
  rewrite !append_cons. now rewrite IH.
Qed.

Lemma prefix_spec p : forall s, String.prefix p s = true <-> exists b, s = p +:+ b.
Proof.
  induction p as [|c p IH]; intros s.
  - split; [intros _; now exists s | now destruct s].
  - destruct s as [|d s]; simpl.
    + split; [discriminate | intros [b Hb]; discriminate].
    + destruct (ascii_dec c d) as [->|Hne].
      * rewrite IH. split; intros [b Hb]; exists b; rewrite append_cons in *; congruence.
      * split; [discriminate | intros [b Hb]; rewrite append_cons in Hb; congruence].
Qed.

(** [includes] decides whether [sub] occurs in [s] as a substring. *)
Lemma includes_spec sub : forall s,
  includes s sub = true <-> exists a b, s = a +:+ sub +:+ b.
Proof.
  induction s as [|c s IH]; cbn [includes]; rewrite orb_true_iff, prefix_spec.
  - split.
    + intros [[b Hb]|]; [|discriminate]. exists EmptyString, b. exact Hb.
    + intros (a & b & Hab). left. destruct a; [now exists b | discriminate].
  - rewrite IH. split.
    + intros [[b Hb]|(a & b & Hab)].
      * exists EmptyString, b. exact Hb.
      * exists (String c a), b. now rewrite append_cons, Hab.
    + intros (a & b & Hab). destruct a as [|d a].
      * left. now exists b.
      * right. exists a, b. rewrite append_cons in Hab. congruence.
Qed.

Lemma list_ascii_of_string_app a b :
  list_ascii_of_string (a +:+ b) = list_ascii_of_string a ++ list_ascii_of_string b.
Proof.
  induction a as [|c a IH]; [reflexivity|].
  rewrite append_cons. simpl. now rewrite IH.
Qed.

Lemma toLowerCase_unit_idempotent c : toLowerCase_unit (toLowerCase_unit c) = toLowerCase_unit c.
Proof. destruct c as [[] [] [] [] [] [] [] []]; reflexivity. Qed.

Lemma isWhitespace_toLowerCase_unit c : isWhitespace (toLowerCase_unit c) = isWhitespace c.
Proof. destruct c as [[] [] [] [] [] [] [] []]; reflexivity. Qed.

Lemma list_ascii_of_string_toLowerCase s :
  list_ascii_of_string (toLowerCase s) = map toLowerCase_unit (list_ascii_of_string s).
Proof. induction s as [|c s IH]; simpl; [reflexivity | now rewrite IH]. Qed.

(** After the replacement by underscores no whitespace is left. *)
Lemma replaceWhitespaceRuns_aux_clean s : forall inRun,
  Forall (fun c => isWhitespace c = false)
         (list_ascii_of_string (replaceWhitespaceRuns_aux inRun "_" s)).
Proof.
  induction s as [|c s IH]; intros inRun; cbn [replaceWhitespaceRuns_aux].
  - constructor.
  - destruct (isWhitespace c) eqn:Ec.
    + destruct inRun; [apply IH|]. rewrite append_cons, append_empty. simpl.
      constructor; [reflexivity | apply IH].
    + simpl. constructor; [exact Ec | apply IH].
Qed.

(** A text without whitespace is left as it is, in front of any text. *)
Lemma replaceWhitespaceRuns_aux_word r a : forall inRun s,
  Forall (fun c => isWhitespace c = false) (list_ascii_of_string a) ->
  a <> EmptyString ->
  replaceWhitespaceRuns_aux inRun r (a +:+ s) = a +:+ replaceWhitespaceRuns_aux false r s.
Proof.
  induction a as [|c a IH]; intros inRun s Ha Hne; [congruence|].
  simpl in Ha. inversion Ha as [|? ? Hc Ha']; subst.
  rewrite !append_cons. cbn [replaceWhitespaceRuns_aux]. rewrite Hc. f_equal.
  destruct a as [|d a]; [reflexivity|]. now apply IH.
Qed.

(** A run of whitespace that has begun is consumed. *)
Lemma replaceWhitespaceRuns_aux_run r ws : forall s,
  Forall (fun c => isWhitespace c = true) (list_ascii_of_string ws) ->
  replaceWhitespaceRuns_aux true r (ws +:+ s) = replaceWhitespaceRuns_aux true r s.
Proof.
  induction ws as [|c ws IH]; intros s Hws; [reflexivity|].
  simpl in Hws. inversion Hws as [|? ? Hc Hws']; subst.
  rewrite append_cons. cbn [replaceWhitespaceRuns_aux]. rewrite Hc. now apply IH.
Qed.

(** Past the end of a run the scan is as at the start of the text. *)
Lemma replaceWhitespaceRuns_aux_after r s :
  match s with
  | EmptyString => True
  | String c _ => isWhitespace c = false
  end ->
  replaceWhitespaceRuns_aux true r s = replaceWhitespaceRuns_aux false r s.
Proof.
  destruct s as [|c s]; [reflexivity|]. intros Hc.
  cbn [replaceWhitespaceRuns_aux]. now rewrite Hc.
Qed.

(** The replacement, run by run: a maximal run of whitespace between a
    text [a] without whitespace and a text [b] that does not begin with
    whitespace becomes one copy of [r]. *)
Lemma replaceWhitespaceRuns_run r a ws b :
  Forall (fun c => isWhitespace c = false) (list_ascii_of_string a) ->
  Forall (fun c => isWhitespace c = true) (list_ascii_of_string ws) ->
  ws <> EmptyString ->
  match b with
  | EmptyString => True
  | String c _ => isWhitespace c = false
  end ->
  replaceWhitespaceRuns r (a +:+ ws +:+ b) = a +:+ r +:+ replaceWhitespaceRuns r b.
Proof.
  intros Ha Hws Hne Hb. unfold replaceWhitespaceRuns.
  assert (replaceWhitespaceRuns_aux false r (ws +:+ b)
          = r +:+ replaceWhitespaceRuns_aux false r b) as Hrun.
  { destruct ws as [|c ws]; [congruence|].
    simpl in Hws. inversion Hws as [|? ? Hc Hws']; subst.
    rewrite append_cons. cbn [replaceWhitespaceRuns_aux]. rewrite Hc.
    now rewrite replaceWhitespaceRuns_aux_run, replaceWhitespaceRuns_aux_after. }
  destruct a as [|c a]; [exact Hrun|].
  rewrite replaceWhitespaceRuns_aux_word by (auto; congruence).
  now rewrite Hrun.
Qed.

Lemma replaceWhitespaceRuns_word r a :
  Forall (fun c => isWhitespace c = false) (list_ascii_of_string a) ->
  replaceWhitespaceRuns r a = a.
Proof.
  unfold replaceWhitespaceRuns. induction a as [|c a IH]; intros Ha; [reflexivity|].
  simpl in Ha. inversion Ha as [|? ? Hc Ha']; subst.
  cbn [replaceWhitespaceRuns_aux]. rewrite Hc. f_equal. now apply IH.
Qed.

End Strings.

(** ** Texts: separators and pieces *)

Section Text.
Import JS Notions.

Lemma lacks_cons c x s : lacks c (String x s) = negb (Ascii.eqb x c) && lacks c s.
Proof. reflexivity. Qed.

(** A text without the separator is one piece. *)
Lemma split_lacks c s : lacks c s = true -> split c s = [s].
Proof.
  induction s as [|x s IH]; [reflexivity|].
  rewrite lacks_cons, andb_true_iff, negb_true_iff. intros [Hx Hs].
  cbn [split]. rewrite Hx, (IH Hs). reflexivity.
Qed.

(** The first separator ends the first piece. *)
Lemma split_first c a b :
  lacks c a = true -> split c (a +:+ String c b) = a :: split c b.
Proof.
  induction a as [|x a IH].
  - intros _. rewrite append_empty. cbn [split]. now rewrite Ascii.eqb_refl.
  - rewrite lacks_cons, andb_true_iff, negb_true_iff. intros [Hx Ha].
    rewrite append_cons. cbn [split]. rewrite Hx, (IH Ha). reflexivity.
Qed.

Lemma split_nonempty c s : split c s <> [].
Proof.
  induction s as [|x s IH]; cbn [split]; [discriminate|].
  destruct (Ascii.eqb x c); [discriminate|]. now destruct (split c s).
Qed.

(** No piece holds the separator. *)
Lemma split_pieces_lack c s : Forall (fun piece => lacks c piece = true) (split c s).
Proof.
  induction s as [|x s IH]; cbn [split].
  - repeat constructor.
  - destruct (Ascii.eqb x c) eqn:Hx.
    + constructor; [reflexivity | exact IH].
    + destruct (split c s) as [|piece rest]; [repeat constructor; now rewrite lacks_cons, Hx|].
      inversion IH as [|? ? Hp Hr]; subst.
      constructor; [now rewrite lacks_cons, Hx | exact Hr].
Qed.

Lemma append_empty_r s : s +:+ EmptyString = s.
Proof. induction s as [|c s IH]; [reflexivity|]. now rewrite append_cons, IH. Qed.

(** The text after the last occurrence: pieces of a text followed by a
    separator and another text. *)
Lemma split_app c a b : split c (a +:+ String c b) = split c a ++ split c b.
Proof.
  induction a as [|x a IH].
  - rewrite append_empty. cbn [split]. now rewrite Ascii.eqb_refl.
  - rewrite append_cons. cbn [split]. rewrite IH.
    destruct (Ascii.eqb x c); [reflexivity|].
    pose proof (split_nonempty c a).
    destruct (split c a) as [|piece rest]; [congruence | reflexivity].
Qed.

Lemma append_eq_empty a b : a +:+ b = EmptyString -> a = EmptyString /\ b = EmptyString.
Proof.
  destruct a as [|x a]; [now rewrite append_empty | rewrite append_cons; discriminate].
Qed.

Lemma length_append a b : String.length (a +:+ b) = (String.length a + String.length b)%nat.
Proof. induction a as [|x a IH]; [reflexivity|]. rewrite append_cons. simpl. now rewrite IH. Qed.

Lemma lacks_append c a b : lacks c (a +:+ b) = lacks c a && lacks c b.
Proof.
  induction a as [|x a IH]; [reflexivity|].
  rewrite append_cons, !lacks_cons, IH. now rewrite andb_assoc.
Qed.

End Text.

(** ** The file system: resolution and writing *)

Section FileSystem.
Import JS Notions.

Lemma includes_unit c s : includes s (String c EmptyString) = negb (lacks c s).
Proof.
  induction s as [|x s IH]; [reflexivity|].
  rewrite lacks_cons. cbn [includes String.prefix]. rewrite IH.
  destruct (ascii_dec c x) as [->|Hne].
  - rewrite Ascii.eqb_refl. now destruct s.
  - rewrite (proj2 (Ascii.eqb_neq x c)) by congruence. reflexivity.
Qed.

Lemma bytes_append a b : FS.bytes (a +:+ b) = (FS.bytes a + FS.bytes b)%nat.
Proof.
  induction a as [|x a IH]; [reflexivity|].
  rewrite append_cons. cbn [FS.bytes]. rewrite IH. lia.
Qed.

Lemma startsWith_append_nonempty a b p :
  a <> EmptyString -> startsWith (a +:+ b) (String p EmptyString) = startsWith a (String p EmptyString).
Proof.
  destruct a as [|x a]; [congruence|]. intros _. rewrite append_cons.
  unfold startsWith. cbn [String.prefix].
  destruct (ascii_dec p x); [|reflexivity]. now destruct a, (_ +:+ b).
Qed.

(** Resolution goes segment by segment. *)
Lemma walk_app nodes segs1 : forall here segs2,
  FS.walk nodes here (segs1 ++ segs2)
  = match FS.walk nodes here segs1 with
    | inr loc => FS.walk nodes loc segs2
    | inl e => inl e
    end.
Proof.
  induction segs1 as [|seg segs1 IH]; intros here segs2; [reflexivity|].
  cbn [app FS.walk].
  destruct (FS.nodeAt nodes here) as [[content|]|]; try reflexivity.
  repeat (destruct (_ : bool); [apply IH || reflexivity|]). apply IH.
Qed.

Lemma nodeAt_insert_ne nodes loc n here :
  here <> loc -> FS.nodeAt (<[loc := n]> nodes) here = FS.nodeAt nodes here.
Proof.
  intros Hne. destruct here as [|x here]; [reflexivity|].
  cbn [FS.nodeAt]. now rewrite lookup_insert_ne.
Qed.

Lemma nodeAt_insert nodes loc n :
  loc <> [] -> FS.nodeAt (<[loc := n]> nodes) loc = Some n.
Proof.
  intros Hne. destruct loc as [|x loc]; [congruence|].
  cbn [FS.nodeAt]. apply lookup_insert_eq.
Qed.

(** Writing a file where there is no directory does not change where
    paths lead. *)
Lemma walk_insert_file nodes loc content segs : forall here l,
  FS.nodeAt nodes loc <> Some FS.Directory ->
  FS.walk nodes here segs = inr l ->
  FS.walk (<[loc := FS.File content]> nodes) here segs = inr l.
Proof.
  induction segs as [|seg segs IH]; intros here l Hloc Hwalk; [exact Hwalk|].
  cbn [FS.walk] in *.
  destruct (FS.nodeAt nodes here) as [[c|]|] eqn:Hhere; try discriminate.
  rewrite nodeAt_insert_ne, Hhere by congruence.
  repeat (destruct (_ : bool); [(now apply IH) || discriminate|]). now apply IH.
Qed.

Lemma resolve_insert_file fs path loc content l :
  FS.nodeAt (FS.nodes fs) loc <> Some FS.Directory ->
  FS.resolve fs path = inr l ->
  FS.resolve {| FS.cwd := FS.cwd fs; FS.nodes := <[loc := FS.File content]> (FS.nodes fs) |}
    path = inr l.
Proof.
  intros Hloc. unfold FS.resolve, FS.origin. cbn [FS.cwd FS.nodes].
  destruct (bool_decide (path = EmptyString)); [discriminate|].
  destruct (FS.PATH_MAX <=? FS.bytes path)%nat; [discriminate|].
  now apply walk_insert_file.
Qed.

Lemma writeFileSync_Return path content fs fs' :
  FS.writeFileSync path content fs = (Return tt, fs') ->
  exists loc,
    FS.resolve fs path = inr loc /\
    FS.nodeAt (FS.nodes fs) loc <> Some FS.Directory /\
    fs' = {| FS.cwd := FS.cwd fs; FS.nodes := <[loc := FS.File content]> (FS.nodes fs) |}.
Proof.
  unfold FS.writeFileSync. destruct (includes path FS.nul); [discriminate|].
  destruct (FS.resolve fs path) as [e|loc]; [discriminate|].
  destruct (FS.nodeAt (FS.nodes fs) loc) as [[c|]|] eqn:Hloc; try discriminate;
    intros [= <-]; exists loc; repeat split; congruence.
Qed.

Lemma writeFileSync_Throw path content fs e fs' :
  FS.writeFileSync path content fs = (Throw e, fs') -> fs' = fs.
Proof.
  unfold FS.writeFileSync. destruct (includes path FS.nul); [congruence|].
  destruct (FS.resolve fs path) as [e'|loc]; [congruence|].
  destruct (FS.nodeAt (FS.nodes fs) loc) as [[c|]|]; congruence.
Qed.

(** After a write the path leads to a file with the content written. *)
Lemma writeFileSync_read path content fs fs' :
  FS.writeFileSync path content fs = (Return tt, fs') ->
  FS.readFile path fs' = Some content.
Proof.
  intros Hwrite. destruct (writeFileSync_Return _ _ _ _ Hwrite) as (loc & Hres & Hloc & ->).
  unfold FS.readFile, FS.resolve, FS.origin in *. cbn [FS.cwd FS.nodes].
  destruct (bool_decide (path = EmptyString)); [discriminate|].
  destruct (FS.PATH_MAX <=? FS.bytes path)%nat; [discriminate|].
  rewrite (walk_insert_file _ loc content _ _ loc Hloc Hres).
  rewrite nodeAt_insert; [reflexivity|]. intros ->. now apply Hloc.
Qed.

Lemma isDirectory_true path fs :
  FS.isDirectory path fs = true ->
  exists loc, FS.resolve fs path = inr loc /\ FS.nodeAt (FS.nodes fs) loc = Some FS.Directory.
Proof.
  unfold FS.isDirectory. destruct (includes path FS.nul); [discriminate|].
  destruct (FS.resolve fs path) as [e|loc]; [discriminate|].
  destruct (FS.nodeAt (FS.nodes fs) loc) as [[c|]|] eqn:Hloc; try discriminate.
  intros _. now exists loc.
Qed.

(** A name that fits, in a directory: the path of the directory, a
    slash and the name lead to the place of the name in the directory. *)
Lemma resolve_child fs dir loc name :
  dir <> EmptyString ->
  FS.resolve fs dir = inr loc ->
  FS.nodeAt (FS.nodes fs) loc = Some FS.Directory ->
  fits name = true ->
  name <> EmptyString -> name <> "." -> name <> ".." ->
  (FS.bytes dir + 1 + FS.bytes name < FS.PATH_MAX)%nat ->
  FS.resolve fs (dir +:+ "/" +:+ name) = inr (loc ++ [name]).
Proof.
  intros Hdir Hres Hloc Hfits H0 H1 H2 Hlen.
  unfold fits in Hfits. rewrite !andb_true_iff in Hfits. destruct Hfits as [[Hslash _] Hname].
  apply Nat.leb_le in Hname.
  unfold FS.resolve, FS.origin in *.
  rewrite (bool_decide_false (dir = EmptyString)) in Hres by exact Hdir.
  destruct (FS.PATH_MAX <=? FS.bytes dir)%nat; [discriminate|].
  rewrite bool_decide_false.
  2:{ intros Heq. apply append_eq_empty in Heq as [Heq _]. congruence. }
  rewrite !bytes_append. change (FS.bytes "/") with 1%nat.
  rewrite (proj2 (Nat.leb_gt _ _)) by lia.
  rewrite (startsWith_append_nonempty dir ("/" +:+ name) "/" Hdir).
  change ("/" +:+ name) with (String "/" name).
  rewrite split_app, (split_lacks _ _ Hslash), walk_app, Hres.
  cbn [FS.walk]. rewrite Hloc.
  rewrite !bool_decide_false by assumption. cbn [orb].
  now rewrite (proj2 (Nat.ltb_ge _ _)) by exact Hname.
Qed.

(** A file written where there is no directory: every path leads where
    it led, or nowhere as before, and the directories are the same. *)
Lemma walk_insert_file_both nodes loc content segs : forall here,
  FS.nodeAt nodes loc <> Some FS.Directory ->
  match FS.walk nodes here segs, FS.walk (<[loc := FS.File content]> nodes) here segs with
  | inr l, inr l' => l = l'
  | inl _, inl _ => True
  | _, _ => False
  end.
Proof.
  induction segs as [|seg segs IH]; intros here Hloc; [reflexivity|].
  cbn [FS.walk].
  destruct (decide (here = loc)) as [->|Hne].
  - assert (loc <> []) as Hroot by (intros ->; now apply Hloc).
    rewrite (nodeAt_insert _ _ _ Hroot).
    now destruct (FS.nodeAt nodes loc) as [[c|]|].
  - rewrite (nodeAt_insert_ne _ _ _ _ Hne).
    destruct (FS.nodeAt nodes here) as [[c|]|]; try exact I.
    repeat (destruct (_ : bool); [(now apply IH) || exact I|]). now apply IH.
Qed.

Lemma isDirectory_insert_file path fs loc content :
  FS.nodeAt (FS.nodes fs) loc <> Some FS.Directory ->
  FS.isDirectory path
    {| FS.cwd := FS.cwd fs; FS.nodes := <[loc := FS.File content]> (FS.nodes fs) |}
  = FS.isDirectory path fs.
Proof.
  intros Hloc. unfold FS.isDirectory, FS.resolve, FS.origin. cbn [FS.cwd FS.nodes].
  destruct (includes path FS.nul); [reflexivity|].
  destruct (bool_decide (path = EmptyString)); [reflexivity|].
  destruct (FS.PATH_MAX <=? FS.bytes path)%nat; [reflexivity|].
  pose proof (walk_insert_file_both (FS.nodes fs) loc content (split "/" path)
                (if startsWith path "/" then [] else FS.cwd fs) Hloc) as Hwalk.
  destruct (FS.walk (FS.nodes fs) _ _) as [e|l], (FS.walk (<[loc := _]> _) _ _) as [e'|l'];
    try reflexivity; try contradiction.
  subst l'. destruct (decide (l = loc)) as [->|Hne].
  - assert (loc <> []) as Hroot by (intros ->; now apply Hloc).
    rewrite (nodeAt_insert _ _ _ Hroot).
    now destruct (FS.nodeAt (FS.nodes fs) loc) as [[c|]|].
  - now rewrite (nodeAt_insert_ne _ _ _ _ Hne).
Qed.

(** What is there stays when directories are made. *)
Lemma grows_refl fs : grows fs fs.
Proof. split; reflexivity. Qed.

Lemma grows_trans fs1 fs2 fs3 : grows fs1 fs2 -> grows fs2 fs3 -> grows fs1 fs3.
Proof. intros [Hc1 Hn1] [Hc2 Hn2]. split; [congruence | now transitivity (FS.nodes fs2)]. Qed.

Lemma sameFiles_refl fs : sameFiles fs fs.
Proof. intros loc content H. exact H. Qed.


Lemma nodeAt_mono (nodes nodes' : gmap FS.location FS.node) loc n :
  nodes ⊆ nodes' -> FS.nodeAt nodes loc = Some n -> FS.nodeAt nodes' loc = Some n.
Proof.
  intros Hsub. destruct loc as [|x loc]; [trivial|]. cbn [FS.nodeAt].
  intros Hloc. exact (lookup_weaken _ _ _ _ Hloc Hsub).
Qed.

Lemma walk_mono (nodes nodes' : gmap FS.location FS.node) segs : forall here l,
  nodes ⊆ nodes' ->
  FS.walk nodes here segs = inr l -> FS.walk nodes' here segs = inr l.
Proof.
  induction segs as [|seg segs IH]; intros here l Hsub Hwalk; [exact Hwalk|].
  cbn [FS.walk] in *.
  destruct (FS.nodeAt nodes here) as [[c|]|] eqn:Hhere; try discriminate.
  rewrite (nodeAt_mono _ _ _ _ Hsub Hhere).
  repeat (destruct (_ : bool); [(now apply IH) || discriminate|]). now apply IH.
Qed.

Lemma resolve_grows fs fs' path l :
  grows fs fs' -> FS.resolve fs path = inr l -> FS.resolve fs' path = inr l.
Proof.
  intros [Hcwd Hsub]. unfold FS.resolve, FS.origin. rewrite Hcwd.
  destruct (bool_decide _); [discriminate|]. destruct (_ <=? _)%nat; [discriminate|].
  now apply walk_mono.
Qed.

Lemma readFile_grows fs fs' path content :
  grows fs fs' -> FS.readFile path fs = Some content -> FS.readFile path fs' = Some content.
Proof.
  intros Hgrows. unfold FS.readFile.
  destruct (FS.resolve fs path) as [e|l] eqn:Hres; [discriminate|].
  rewrite (resolve_grows _ _ _ _ Hgrows Hres).
  destruct (FS.nodeAt (FS.nodes fs) l) as [[c|]|] eqn:Hnode; try discriminate.
  intros [= <-]. now rewrite (nodeAt_mono _ _ _ _ (proj2 Hgrows) Hnode).
Qed.

Lemma isDirectory_grows fs fs' path :
  grows fs fs' -> FS.isDirectory path fs = true -> FS.isDirectory path fs' = true.
Proof.
  intros Hgrows. unfold FS.isDirectory. destruct (includes path FS.nul); [trivial|].
  destruct (FS.resolve fs path) as [e|l] eqn:Hres; [discriminate|].
  rewrite (resolve_grows _ _ _ _ Hgrows Hres).
  destruct (FS.nodeAt (FS.nodes fs) l) as [[c|]|] eqn:Hnode; try discriminate.
  now rewrite (nodeAt_mono _ _ _ _ (proj2 Hgrows) Hnode).
Qed.

Lemma mkdirp_grows segs : forall (nodes : gmap FS.location FS.node) here,
  nodes ⊆ snd (FS.mkdirp nodes here segs) /\
  forall loc content,
    snd (FS.mkdirp nodes here segs) !! loc = Some (FS.File content) ->
    nodes !! loc = Some (FS.File content).
Proof.
  induction segs as [|seg segs IH]; intros nodes here; [split; [reflexivity | trivial]|].
  cbn [FS.mkdirp].
  destruct (FS.nodeAt nodes here) as [[c|]|]; try (split; [reflexivity | trivial]).
  repeat (destruct (_ : bool); [apply IH || (split; [reflexivity | trivial])|]).
  destruct (nodes !! (here ++ [seg])) as [[c|]|] eqn:Hloc.
  - split; [reflexivity | trivial].
  - apply IH.
  - destruct (IH (<[here ++ [seg] := FS.Directory]> nodes) (here ++ [seg])) as [Hsub Hfiles].
    split.
    + transitivity (<[here ++ [seg] := FS.Directory]> nodes); [|exact Hsub].
      now apply insert_subseteq.
    + intros loc content Hnew. apply Hfiles in Hnew.
      destruct (decide (loc = here ++ [seg])) as [->|Hne].
      * rewrite lookup_insert_eq in Hnew. discriminate Hnew.
      * now rewrite lookup_insert_ne in Hnew by congruence.
Qed.

Lemma mkdirSync_grows path fs :
  grows fs (snd (FS.mkdirSync path fs)) /\ sameFiles fs (snd (FS.mkdirSync path fs)).
Proof.
  unfold FS.mkdirSync.
  destruct (includes path FS.nul); [split; [apply grows_refl | apply sameFiles_refl]|].
  destruct (bool_decide _); [split; [apply grows_refl | apply sameFiles_refl]|].
  destruct (_ <=? _)%nat; [split; [apply grows_refl | apply sameFiles_refl]|].
  destruct (mkdirp_grows (split "/" path) (FS.nodes fs) (FS.origin fs path)) as [Hsub Hfiles].
  destruct (FS.mkdirp _ _ _) as [[e|] nodes']; (split; [split; [reflexivity | exact Hsub]|]);
    exact Hfiles.
Qed.

(** A path that leads to a file exists. *)
Lemma readFile_existsSync path fs content :
  includes path FS.nul = false ->
  FS.readFile path fs = Some content -> FS.existsSync path fs = true.
Proof.
  intros Hnul. unfold FS.readFile, FS.existsSync. rewrite Hnul.
  destruct (FS.resolve fs path) as [e|l]; [discriminate|].
  now destruct (FS.nodeAt (FS.nodes fs) l).
Qed.

(** A write where nothing exists adds the file and changes nothing
    else. *)
Lemma writeFileSync_new path content fs fs' :
  FS.existsSync path fs = false ->
  FS.writeFileSync path content fs = (Return tt, fs') ->
  exists loc,
    FS.resolve fs path = inr loc /\
    FS.nodes fs !! loc = None /\
    fs' = {| FS.cwd := FS.cwd fs; FS.nodes := <[loc := FS.File content]> (FS.nodes fs) |} /\
    grows fs fs'.
Proof.
  intros Hexists Hwrite.
  destruct (writeFileSync_Return _ _ _ _ Hwrite) as (loc & Hres & Hnode & ->).
  assert (includes path FS.nul = false) as Hnul.
  { unfold FS.writeFileSync in Hwrite. now destruct (includes path FS.nul). }
  unfold FS.existsSync in Hexists. rewrite Hnul, Hres in Hexists.
  assert (FS.nodes fs !! loc = None) as Hnone.
  { destruct loc as [|x loc]; [discriminate Hexists|].
    destruct (FS.nodeAt (FS.nodes fs) (x :: loc)) eqn:E; [discriminate Hexists | exact E]. }
  exists loc. repeat split; try assumption. cbn [FS.nodes]. now apply insert_subseteq.
Qed.

(** A text that ends in a suffix of two code units or more is neither
    empty nor one of the names [.] and [..]. *)
Lemma suffixed_name a suffix :
  (3 <= String.length suffix)%nat ->
  a +:+ suffix <> EmptyString /\ a +:+ suffix <> "." /\ a +:+ suffix <> "..".
Proof.
  intros Hlen.
  assert (3 <= String.length (a +:+ suffix))%nat as Hall by (rewrite length_append; lia).
  repeat split; intros Heq; rewrite Heq in Hall; simpl in Hall; lia.
Qed.

(** A path whose last segment is a name leads to that name in some
    directory. *)
Lemma walk_last nodes init seg here loc :
  seg <> EmptyString -> seg <> "." -> seg <> ".." ->
  FS.walk nodes here (init ++ [seg]) = inr loc ->
  exists parent, loc = parent ++ [seg].
Proof.
  intros H0 H1 H2. rewrite walk_app.
  destruct (FS.walk nodes here init) as [e|parent]; [discriminate|].
  cbn [FS.walk]. destruct (FS.nodeAt nodes parent) as [[c|]|]; try discriminate.
  rewrite !bool_decide_false by assumption. cbn [orb].
  destruct (_ <? _)%nat; [discriminate|]. intros [= <-]. now exists parent.
Qed.

(** The last piece of a text that ends in a suffix without separator
    ends in that suffix. *)
Lemma split_last_suffix c suffix a :
  lacks c suffix = true ->
  exists init piece, split c (a +:+ suffix) = init ++ [piece +:+ suffix].
Proof.
  intros Hsuffix. induction a as [|x a (init & piece & IH)].
  - exists [], EmptyString. now rewrite !append_empty, (split_lacks _ _ Hsuffix).
  - rewrite append_cons. cbn [split]. rewrite IH. destruct (Ascii.eqb x c).
    + now exists (EmptyString :: init), piece.
    + destruct init as [|first init]; cbn [app].
      * exists [], (String x piece). now rewrite append_cons.
      * now exists (String x first :: init), piece.
Qed.

Lemma resolve_last fs path suffix loc :
  lacks "/" suffix = true ->
  (3 <= String.length suffix)%nat ->
  FS.resolve fs (path +:+ suffix) = inr loc ->
  exists parent piece, loc = parent ++ [piece +:+ suffix].
Proof.
  intros Hsuffix Hlen. unfold FS.resolve.
  destruct (bool_decide _); [discriminate|]. destruct (_ <=? _)%nat; [discriminate|].
  destruct (split_last_suffix "/" suffix path Hsuffix) as (init & piece & ->).
  destruct (suffixed_name piece suffix Hlen) as (H0 & H1 & H2).
  intros Hwalk. destruct (walk_last _ _ _ _ _ H0 H1 H2 Hwalk) as [parent ->].
  now exists parent, piece.
Qed.

Lemma existsSync_grows fs fs' path :
  grows fs fs' -> FS.existsSync path fs = true -> FS.existsSync path fs' = true.
Proof.
  intros Hgrows. unfold FS.existsSync. destruct (includes path FS.nul); [trivial|].
  destruct (FS.resolve fs path) as [e|l] eqn:Hres; [discriminate|].
  rewrite (resolve_grows _ _ _ _ Hgrows Hres).
  destruct (FS.nodeAt (FS.nodes fs) l) as [n|] eqn:Hnode; [|discriminate].
  now rewrite (nodeAt_mono _ _ _ _ (proj2 Hgrows) Hnode).
Qed.

(** A file written where there is no directory: what existed exists. *)
Lemma existsSync_insert_file path fs loc content :
  FS.nodeAt (FS.nodes fs) loc <> Some FS.Directory ->
  FS.existsSync path fs = true ->
  FS.existsSync path
    {| FS.cwd := FS.cwd fs; FS.nodes := <[loc := FS.File content]> (FS.nodes fs) |} = true.
Proof.
  intros Hloc. unfold FS.existsSync, FS.resolve, FS.origin. cbn [FS.cwd FS.nodes].
  destruct (includes path FS.nul); [trivial|].
  destruct (bool_decide (path = EmptyString)); [trivial|].
  destruct (FS.PATH_MAX <=? FS.bytes path)%nat; [trivial|].
  destruct (FS.walk (FS.nodes fs) _ _) as [e|l] eqn:Hwalk; [discriminate|].
  rewrite (walk_insert_file _ _ _ _ _ _ Hloc Hwalk).
  destruct (decide (l = loc)) as [->|Hne].
  - assert (loc <> []) as Hroot by (intros ->; now apply Hloc).
    now rewrite (nodeAt_insert _ _ _ Hroot).
  - now rewrite (nodeAt_insert_ne _ _ _ _ Hne).
Qed.

(** A file written elsewhere leaves the content of a file. *)
Lemma readFile_insert_other path fs loc content l old :
  FS.nodeAt (FS.nodes fs) loc <> Some FS.Directory ->
  FS.resolve fs path = inr l ->
  l <> loc ->
  FS.readFile path fs = Some old ->
  FS.readFile path
    {| FS.cwd := FS.cwd fs; FS.nodes := <[loc := FS.File content]> (FS.nodes fs) |} = Some old.
Proof.
  intros Hloc Hres Hne. unfold FS.readFile. rewrite Hres.
  unfold FS.resolve, FS.origin in *. cbn [FS.cwd FS.nodes].
  destruct (bool_decide (path = EmptyString)); [discriminate|].
  destruct (FS.PATH_MAX <=? FS.bytes path)%nat; [discriminate|].
  rewrite (walk_insert_file _ _ _ _ _ _ Hloc Hres).
  now rewrite (nodeAt_insert_ne _ _ _ _ Hne).
Qed.

(** Writing a name that fits into a directory: the write returns unless
    the name is that of a directory. *)
Lemma writeFileSync_child fs dir name content :
  dir <> EmptyString ->
  lacks (ascii_of_nat 0) dir = true ->
  FS.isDirectory dir fs = true ->
  fits name = true ->
  name <> EmptyString -> name <> "." -> name <> ".." ->
  (FS.bytes dir + 1 + FS.bytes name < FS.PATH_MAX)%nat ->
  FS.isDirectory (dir +:+ "/" +:+ name) fs = false ->
  exists loc,
    FS.resolve fs dir = inr loc /\
    FS.resolve fs (dir +:+ "/" +:+ name) = inr (loc ++ [name]) /\
    FS.writeFileSync (dir +:+ "/" +:+ name) content fs
    = (Return tt,
       {| FS.cwd := FS.cwd fs;
          FS.nodes := <[loc ++ [name] := FS.File content]> (FS.nodes fs) |}).
Proof.
  intros Hdir Hnul Hisdir Hfits H0 H1 H2 Hlen Hfile.
  destruct (isDirectory_true _ _ Hisdir) as (loc & Hres & Hloc).
  pose proof (resolve_child fs dir loc name Hdir Hres Hloc Hfits H0 H1 H2 Hlen) as Hchild.
  exists loc. split; [exact Hres|]. split; [exact Hchild|].
  assert (includes (dir +:+ "/" +:+ name) FS.nul = false) as Hincl.
  { unfold FS.nul. rewrite includes_unit, !lacks_append, Hnul.
    unfold fits in Hfits. rewrite !andb_true_iff in Hfits. destruct Hfits as [[_ ->] _].
    reflexivity. }
  unfold FS.isDirectory in Hfile. unfold FS.writeFileSync.
  rewrite Hincl in *. rewrite Hchild in *.
  now destruct (FS.nodeAt (FS.nodes fs) (loc ++ [name])) as [[c|]|].
Qed.

End FileSystem.

(** ** The element-test compiler *)

Section ElementTest.
Import JS Cypress Spec.

(** A kind outside the recognized set differs from each of them. *)
Lemma unsupported_neq kind :
  supported kind = false ->
  kind <> "exists" /\ kind <> "text" /\ kind <> "attribute" /\ kind <> "clickable" /\
  kind <> "visible" /\ kind <> "count" /\ kind <> "containsText" /\ kind <> "cssProperty".
Proof.
  unfold supported, supportedKinds. intros Hk.
  apply bool_decide_eq_false in Hk.
  repeat split; intros ->; apply Hk, list_elem_of_In; simpl; auto 10.
Qed.

Lemma switch_testType_unknown selector kind expectedValue st :
  supported kind = false ->
  switch_testType selector kind expectedValue st
  = (Throw (Error ("Unknown test type: " +:+ kind)), st).
Proof.
  intros Hk. destruct (unsupported_neq kind Hk) as (?&?&?&?&?&?&?&?).
  unfold switch_testType. repeat (case_decide; [congruence|]). reflexivity.
Qed.

(** The switch neither reads nor writes the state. *)
Lemma switch_testType_pure selector kind expectedValue :
  exists c, forall st', switch_testType selector kind expectedValue st' = (c, st').
Proof.
  unfold switch_testType.
  repeat (case_decide; [first
    [ eexists; intros; reflexivity
    | destruct expectedValue; eexists; intros; reflexivity ] |]).
  eexists; intros; reflexivity.
Qed.

Lemma generateElementTest_unfold selector kind expectedValue st c :
  (forall st', switch_testType selector kind expectedValue st' = (c, st')) ->
  generateElementTest selector kind expectedValue st
  = match c with
    | Return t =>
        if pushes st then
          (Return t, pushed (LogEntry selector kind expectedValue t) st)
        else (Throw (TypeError "this.testResults.push is not a function"), st)
    | Throw e => (Throw e, st)
    end.
Proof.
  intros Hc. unfold generateElementTest, bind at 1. rewrite Hc.
  destruct c as [t|e]; [|reflexivity].
  unfold pushes, pushed, push_testResults, bind, get, put, throw, ret.
  destruct st as [[b o [log|r] f] fs]; reflexivity.
Qed.

Lemma pushes_pushed entry st : pushes (pushed entry st) = pushes st.
Proof. destruct st as [[b o [log|r] f] fs]; reflexivity. Qed.

(** The completion of the compiler depends on the state only through
    [pushes], which the compiler keeps. *)
Lemma generateElementTest_pushes selector kind expectedValue st :
  pushes (snd (generateElementTest selector kind expectedValue st)) = pushes st.
Proof.
  destruct (switch_testType_pure selector kind expectedValue) as [c Hc].
  rewrite (generateElementTest_unfold _ _ _ _ c Hc).
  destruct c; [destruct (pushes st) eqn:E|]; simpl; rewrite ?pushes_pushed; congruence.
Qed.

Lemma generateElementTest_same_mode selector kind expectedValue st1 st2 :
  pushes st1 = pushes st2 ->
  fst (generateElementTest selector kind expectedValue st1)
  = fst (generateElementTest selector kind expectedValue st2).
Proof.
  intros Hm. destruct (switch_testType_pure selector kind expectedValue) as [c Hc].
  rewrite !(generateElementTest_unfold _ _ _ _ c Hc), Hm.
  destruct c; [destruct (pushes st2)|]; reflexivity.
Qed.

(** C2. A call of the element-test compiler with an assertion kind outside
    the recognized set throws an error whose message names the kind; it
    returns no statement and leaves the state as it was: no entry is
    pushed to the result list and nothing else changes. *)
Theorem generateElementTest_unknown_kind selector kind expectedValue st :
  supported kind = false ->
  generateElementTest selector kind expectedValue st
  = (Throw (Error ("Unknown test type: " +:+ kind)), st).
Proof.
  intros Hk.
  rewrite (generateElementTest_unfold _ _ _ _ (Throw (Error ("Unknown test type: " +:+ kind)))).
  - reflexivity.
  - intros st'. now apply switch_testType_unknown.
Qed.

Lemma generateElementTest_unknown_kind_witness :
  supported "hover" = false /\
  generateElementTest "h1" "hover" JUndefined fresh
  = (Throw (Error "Unknown test type: hover"), fresh).
Proof.
  split; [reflexivity|].
  apply (generateElementTest_unknown_kind "h1" "hover" JUndefined fresh).
  reflexivity.
Defined.

(** On an agent that still collects compiled assertions, a supported kind
    compiles to a statement, provided the two kinds that split their
    expected value are given a string. *)
Lemma generateElementTest_returns selector kind expectedValue st :
  supported kind = true ->
  pushes st = true ->
  (kind = "attribute" \/ kind = "cssProperty" -> exists s, expectedValue = JStr s) ->
  exists t, fst (generateElementTest selector kind expectedValue st) = Return t.
Proof.
  intros Hk Hp Hs.
  assert (exists t, forall st', switch_testType selector kind expectedValue st' = (Return t, st'))
    as [t Ht].
  { unfold switch_testType.
    repeat (case_decide;
      [first [ eexists; intros; reflexivity
             | destruct Hs as [s ->]; [tauto|]; eexists; intros; reflexivity ] |]).
    exfalso. apply bool_decide_eq_true in Hk. unfold supportedKinds in Hk.
    repeat (apply elem_of_cons in Hk as [->|Hk]; [congruence|]).
    now apply elem_of_nil in Hk. }
  exists t. rewrite (generateElementTest_unfold _ _ _ _ _ Ht), Hp. reflexivity.
Qed.

(** Once [runTests] has replaced the result list, the push of the
    compiler fails, for a supported kind too. *)
Example generateElementTest_after_run :
  generateElementTest "h1" "exists" JUndefined afterRun
  = (Throw (TypeError "this.testResults.push is not a function"), afterRun).
Proof. reflexivity. Qed.

(** C7. For a supported kind and fixed arguments, compiling again in the
    state the first compilation left ends in the same completion; any two
    compilations that return a statement, in whatever states, return the
    same text; and on an agent that still collects compiled assertions
    (with a string to split for the two kinds that split it) both
    compilations do return one and the same statement. *)
Theorem generateElementTest_deterministic selector kind expectedValue :
  supported kind = true ->
  (forall st,
      fst (generateElementTest selector kind expectedValue
             (snd (generateElementTest selector kind expectedValue st)))
      = fst (generateElementTest selector kind expectedValue st)) /\
  (forall st1 st2 t1 t2,
      fst (generateElementTest selector kind expectedValue st1) = Return t1 ->
      fst (generateElementTest selector kind expectedValue st2) = Return t2 ->
      t1 = t2) /\
  (forall st,
      pushes st = true ->
      (kind = "attribute" \/ kind = "cssProperty" -> exists s, expectedValue = JStr s) ->
      exists t,
        fst (generateElementTest selector kind expectedValue st) = Return t /\
        fst (generateElementTest selector kind expectedValue
               (snd (generateElementTest selector kind expectedValue st))) = Return t).
Proof.
  intros Hk.
  assert (forall st,
      fst (generateElementTest selector kind expectedValue
             (snd (generateElementTest selector kind expectedValue st)))
      = fst (generateElementTest selector kind expectedValue st)) as Hagain.
  { intros st. apply generateElementTest_same_mode, generateElementTest_pushes. }
  split; [exact Hagain|split].
  - intros st1 st2 t1 t2.
    destruct (switch_testType_pure selector kind expectedValue) as [c Hc].
    rewrite !(generateElementTest_unfold _ _ _ _ c Hc).
    destruct c as [t|e]; [|discriminate].
    destruct (pushes st1), (pushes st2); simpl; congruence.
  - intros st Hp Hs.
    destruct (generateElementTest_returns selector kind expectedValue st Hk Hp Hs) as [t Ht].
    exists t. split; [exact Ht|]. now rewrite Hagain.
Qed.

Lemma generateElementTest_deterministic_witness :
  supported "text" = true /\
  fst (generateElementTest "h1" "text" (JStr "Example Domain")
         (snd (generateElementTest "h1" "text" (JStr "Example Domain") fresh)))
  = Return "cy.get('h1').should('have.text', 'Example Domain')".
Proof.
  split; [reflexivity|].
  destruct (generateElementTest_deterministic "h1" "text" (JStr "Example Domain") eq_refl)
    as (Hagain & _ & _).
  rewrite (Hagain fresh). reflexivity.
Defined.

End ElementTest.

(** ** The suite builder *)

Section Suite.
Import JS Cypress Spec Notions.

(** C10. The navigation compiler returns the visit statement around the
    url argument as given and leaves the state alone; the statement is the
    same whatever the agent, so whatever its [baseUrl]: for the url [/] on
    an agent based at https://example.com the local [fullUrl] is
    https://example.com/ and the statement visits [/]. *)
Theorem generateNavigationAction_verbatim :
  (forall url st,
      generateNavigationAction url st = (Return ("cy.visit('" +:+ url +:+ "')"), st)) /\
  (forall url st1 st2,
      fst (generateNavigationAction url st1) = fst (generateNavigationAction url st2)) /\
  (fullUrl (this fresh) "/" = "https://example.com/" /\
   fst (generateNavigationAction "/" fresh) = Return "cy.visit('/')").
Proof. repeat split. Qed.

(** One turn of the loop: the statements of the first action on its own
    are appended, then the loop goes on in the state that action left. *)
Lemma buildTestSuite_loop_cons a rest testActions st :
  buildTestSuite_loop (a :: rest) testActions st
  = match buildTestSuite_loop [a] [] st with
    | (Return l, st1) => buildTestSuite_loop rest (testActions ++ l) st1
    | (Throw e, st1) => (Throw e, st1)
    end.
Proof.
  cbn [buildTestSuite_loop].
  repeat case_decide.
  - reflexivity.
  - unfold bind.
    destruct (generateElementTest (selector a) (testType a) (expectedValue a) st) as [[t|e] st1];
      reflexivity.
  - reflexivity.
  - reflexivity.
  - reflexivity.
  - unfold ret. now rewrite app_nil_r.
Qed.

Lemma statementsOf_unfold st a :
  statementsOf st a
  = if decide (type a = "navigate") then Return ["cy.visit('" +:+ url a +:+ "')"]
    else if decide (type a = "testElement") then
      match fst (generateElementTest (selector a) (testType a) (expectedValue a) st) with
      | Return t => Return [t]
      | Throw e => Throw e
      end
    else if decide (type a = "fillForm") then
      Return (generateFormFillAction_loop (Object_entries (formData a)) [])
    else if decide (type a = "screenshot") then Return ["cy.screenshot('" +:+ name a +:+ "')"]
    else if decide (type a = "wait") then
      Return ["cy.wait(" +:+ ToString (milliseconds a) +:+ ")"]
    else Return [].
Proof.
  unfold statementsOf. cbn [buildTestSuite_loop].
  repeat case_decide; try reflexivity.
  unfold bind.
  destruct (generateElementTest (selector a) (testType a) (expectedValue a) st) as [[t|e] st1];
    reflexivity.
Qed.

(** An action leaves the files alone and keeps [pushes]. *)
Lemma buildTestSuite_loop_one_state a st :
  pushes (snd (buildTestSuite_loop [a] [] st)) = pushes st /\
  files (snd (buildTestSuite_loop [a] [] st)) = files st.
Proof.
  cbn [buildTestSuite_loop].
  repeat case_decide; try (split; reflexivity).
  unfold bind.
  pose proof (generateElementTest_pushes (selector a) (testType a) (expectedValue a) st) as Hp.
  destruct (switch_testType_pure (selector a) (testType a) (expectedValue a)) as [c Hc].
  rewrite (generateElementTest_unfold _ _ _ _ c Hc) in Hp |- *.
  destruct c as [t|e]; [destruct (pushes st) eqn:E|]; simpl in *; split; try congruence.
  unfold pushed. destruct st as [[b o [log|r] f] fs]; reflexivity.
Qed.

Lemma statementsOf_same_mode st1 st2 a :
  pushes st1 = pushes st2 -> statementsOf st1 a = statementsOf st2 a.
Proof.
  intros Hm. rewrite !statementsOf_unfold.
  now rewrite (generateElementTest_same_mode _ _ _ st1 st2 Hm).
Qed.

Lemma group_same_mode st1 st2 a : pushes st1 = pushes st2 -> group st1 a = group st2 a.
Proof. intros Hm. unfold group. now rewrite (statementsOf_same_mode st1 st2 a Hm). Qed.

(** The loop emits, after what was there, the statements of each action
    in the order of the actions; it throws what the first failing action
    throws. *)
Lemma buildTestSuite_loop_spec actions : forall testActions st,
  match buildTestSuite_loop actions testActions st with
  | (Return stmts, st') =>
      stmts = testActions ++ concat (map (group st) actions) /\
      Forall (fun a => exists l, statementsOf st a = Return l) actions /\
      pushes st' = pushes st /\ files st' = files st
  | (Throw e, st') =>
      Exists (fun a => statementsOf st a = Throw e) actions /\ files st' = files st
  end.
Proof.
  induction actions as [|a rest IH]; intros testActions st.
  - cbn. rewrite app_nil_r. repeat split; constructor.
  - rewrite buildTestSuite_loop_cons.
    destruct (buildTestSuite_loop_one_state a st) as [Hp Hf].
    pose proof (eq_refl : statementsOf st a = fst (buildTestSuite_loop [a] [] st)) as Hs.
    destruct (buildTestSuite_loop [a] [] st) as [[l|e] st1] eqn:E; simpl in Hp, Hf, Hs.
    + specialize (IH (testActions ++ l) st1).
      destruct (buildTestSuite_loop rest (testActions ++ l) st1) as [[stmts|e] st'].
      * destruct IH as (-> & Hall & Hp' & Hf'). split; [|split; [|split]].
        -- cbn [map concat]. unfold group at 2. rewrite Hs, <- app_assoc. f_equal. f_equal.
           f_equal. apply map_ext. intros b. now apply group_same_mode.
        -- constructor; [eauto|].
           eapply Forall_impl; [exact Hall|]. intros b [l' Hl'].
           exists l'. now rewrite <- (statementsOf_same_mode st1 st b Hp).
        -- congruence.
        -- congruence.
      * destruct IH as (Hex & Hf'). split; [|congruence].
        apply Exists_cons_tl. eapply Exists_impl; [exact Hex|]. intros b Hb.
        now rewrite <- (statementsOf_same_mode st1 st b Hp).
    + split; [|assumption]. now apply Exists_cons_hd.
Qed.

(** [createTest] is the write of the suite to the derived path and, when
    the write returns, the push of the path. *)
Lemma createTest_unfold testName testActions st :
  createTest testName testActions st
  = match FS.writeFileSync ("./cypress/e2e/" +:+ specFileName testName)
            (testContent testName testActions) (files st) with
    | (Return _, fs) =>
        (Return ("./cypress/e2e/" +:+ specFileName testName),
         {| this := {| baseUrl := baseUrl (this st);
                       outputDir := outputDir (this st);
                       testResults := testResults (this st);
                       specFiles := specFiles (this st)
                                    ++ ["./cypress/e2e/" +:+ specFileName testName] |};
            files := fs |})
    | (Throw e, fs) => (Throw e, {| this := this st; files := fs |})
    end.
Proof.
  unfold createTest, bind, writeFileSync, on_files.
  now destruct (FS.writeFileSync _ _ (files st)) as [[[]|e] fs].
Qed.

Lemma createTest_Throw testName testActions st e st' :
  createTest testName testActions st = (Throw e, st') ->
  st' = st /\
  fst (FS.writeFileSync ("./cypress/e2e/" +:+ specFileName testName)
         (testContent testName testActions) (files st)) = Throw e.
Proof.
  rewrite createTest_unfold.
  destruct (FS.writeFileSync _ _ (files st)) as [[[]|e'] fs] eqn:Hwrite; [discriminate|].
  intros [= <- <-]. rewrite (writeFileSync_Throw _ _ _ _ _ Hwrite).
  split; [now destruct st | reflexivity].
Qed.

(** The suite is written when the tests directory is there, the derived
    name fits in a directory and is not the name of a directory. *)
Lemma createTest_writes testName testActions st :
  FS.isDirectory "./cypress/e2e" (files st) = true ->
  fits (specFileName testName) = true ->
  FS.isDirectory ("./cypress/e2e/" +:+ specFileName testName) (files st) = false ->
  exists fs,
    FS.writeFileSync ("./cypress/e2e/" +:+ specFileName testName)
      (testContent testName testActions) (files st) = (Return tt, fs).
Proof.
  intros Hdir Hfits Hfile.
  destruct (suffixed_name (toLowerCase (replaceWhitespaceRuns "_" testName)) ".cy.js")
    as (H0 & H1 & H2); [simpl; lia|].
  destruct (writeFileSync_child (files st) "./cypress/e2e" (specFileName testName)
              (testContent testName testActions)) as (loc & _ & _ & Hwrite);
    try assumption; try discriminate; try reflexivity.
  - unfold fits in Hfits. rewrite !andb_true_iff in Hfits. destruct Hfits as [_ Hlen].
    apply Nat.leb_le in Hlen. unfold FS.NAME_MAX, FS.PATH_MAX in *.
    change (FS.bytes "./cypress/e2e") with 13%nat. lia.
  - eexists. exact Hwrite.
Qed.

(** The same, with the state that [createTest] leaves: the file is the
    entry of the derived name in the tests directory. *)
Lemma createTest_returns testName testActions st :
  FS.isDirectory "./cypress/e2e" (files st) = true ->
  fits (specFileName testName) = true ->
  FS.isDirectory ("./cypress/e2e/" +:+ specFileName testName) (files st) = false ->
  exists dir,
    FS.resolve (files st) "./cypress/e2e" = inr dir /\
    FS.nodeAt (FS.nodes (files st)) (dir ++ [specFileName testName]) <> Some FS.Directory /\
    createTest testName testActions st
    = (Return ("./cypress/e2e/" +:+ specFileName testName),
       {| this := {| baseUrl := baseUrl (this st);
                     outputDir := outputDir (this st);
                     testResults := testResults (this st);
                     specFiles := specFiles (this st)
                                  ++ ["./cypress/e2e/" +:+ specFileName testName] |};
          files := {| FS.cwd := FS.cwd (files st);
                      FS.nodes := <[dir ++ [specFileName testName]
                                    := FS.File (testContent testName testActions)]>
                                    (FS.nodes (files st)) |} |}).
Proof.
  intros Hdir Hfits Hfile.
  destruct (suffixed_name (toLowerCase (replaceWhitespaceRuns "_" testName)) ".cy.js")
    as (H0 & H1 & H2); [simpl; lia|].
  destruct (writeFileSync_child (files st) "./cypress/e2e" (specFileName testName)
              (testContent testName testActions)) as (dir & Hres & Hchild & Hwrite);
    try assumption; try discriminate; try reflexivity.
  { unfold fits in Hfits. rewrite !andb_true_iff in Hfits. destruct Hfits as [_ Hlen].
    apply Nat.leb_le in Hlen. unfold FS.NAME_MAX, FS.PATH_MAX in *.
    change (FS.bytes "./cypress/e2e") with 13%nat. lia. }
  exists dir. split; [exact Hres|]. split.
  - change ("./cypress/e2e/" +:+ specFileName testName)
      with ("./cypress/e2e" +:+ "/" +:+ specFileName testName) in Hfile.
    unfold FS.isDirectory in Hfile. rewrite Hchild in Hfile.
    destruct (includes _ FS.nul); [|now destruct (FS.nodeAt _ _) as [[c|]|]].
    unfold FS.writeFileSync in Hwrite.
    assert (includes ("./cypress/e2e" +:+ "/" +:+ specFileName testName) FS.nul = false)
      as Hincl.
    { unfold FS.nul. rewrite includes_unit, !lacks_append.
      unfold fits in Hfits. rewrite !andb_true_iff in Hfits. destruct Hfits as [[_ ->] _].
      reflexivity. }
    rewrite Hincl, Hchild in Hwrite.
    now destruct (FS.nodeAt _ _) as [[c|]|].
  - rewrite createTest_unfold.
    change ("./cypress/e2e/" +:+ specFileName testName)
      with ("./cypress/e2e" +:+ "/" +:+ specFileName testName).
    now rewrite Hwrite.
Qed.

Lemma compile_statementsOf st a : compile st a = statementsOf st a.
Proof. now rewrite statementsOf_unfold. Qed.

(** When the loop throws, the first action that does not compile on its
    own throws that error. *)
Lemma buildTestSuite_loop_first_throw actions : forall testActions st e st',
  buildTestSuite_loop actions testActions st = (Throw e, st') ->
  exists before a after,
    actions = before ++ a :: after /\
    Forall (fun b => exists l, compile st b = Return l) before /\
    compile st a = Throw e.
Proof.
  induction actions as [|a rest IH]; intros testActions st e st' Hloop; [discriminate|].
  rewrite buildTestSuite_loop_cons in Hloop.
  destruct (buildTestSuite_loop_one_state a st) as [Hp _].
  pose proof (eq_refl : statementsOf st a = fst (buildTestSuite_loop [a] [] st)) as Hs.
  destruct (buildTestSuite_loop [a] [] st) as [[l|e0] st1] eqn:E; simpl in Hp, Hs.
  - destruct (IH _ _ _ _ Hloop) as (before & b & after & -> & Hall & Hb).
    exists (a :: before), b, after. split; [reflexivity|]. split.
    + constructor; [exists l; now rewrite compile_statementsOf|].
      eapply List.Forall_impl; [|exact Hall]. intros c [l' Hl']. exists l'.
      rewrite compile_statementsOf in *. now rewrite <- (statementsOf_same_mode st1 st c Hp).
    + rewrite compile_statementsOf in *. now rewrite <- (statementsOf_same_mode st1 st b Hp).
  - injection Hloop as <- <-. exists [], a, rest.
    split; [reflexivity|]. split; [constructor | now rewrite compile_statementsOf].
Qed.

(** When the loop returns, it returns the statements of the actions,
    action by action. *)
Lemma buildTestSuite_loop_groups actions st statements st' :
  buildTestSuite_loop actions [] st = (Return statements, st') ->
  files st' = files st /\
  exists groups,
    Forall2 (fun a l => compile st a = Return l) actions groups /\
    statements = concat groups.
Proof.
  intros Hloop. pose proof (buildTestSuite_loop_spec actions [] st) as Hspec.
  rewrite Hloop in Hspec. destruct Hspec as (-> & Hall & _ & Hfiles).
  split; [exact Hfiles|]. exists (map (group st) actions). split; [|reflexivity].
  clear Hloop Hfiles. induction Hall as [|a rest [l Hl] _ IH]; cbn [map]; constructor.
  - rewrite compile_statementsOf, Hl. unfold group. now rewrite Hl.
  - exact IH.
Qed.

(** C5. The suite builder emits the statements of the first action, then
    those of the second, and so on: what the loop returns is, group after
    group in the order of the actions, what each action compiles to on
    its own, and the file of a suite that was built holds these
    statements in that order, one to a line in the template of the
    suite.  When the builder throws, no file is written, and either the
    first action that does not compile on its own throws that error, or
    every action compiled and the write of the file failed.  The suite
    is built whenever every action compiles, the tests directory is
    there and the file name fits in it.  The three actions of the
    end-to-end scenario give their three statements in that order. *)
Theorem buildTestSuite_preserves_order :
  (forall actions st,
      match buildTestSuite_loop actions [] st with
      | (Return statements, _) =>
          exists groups,
            Forall2 (fun a l => compile st a = Return l) actions groups /\
            statements = concat groups
      | (Throw e, _) =>
          exists before a after,
            actions = before ++ a :: after /\
            Forall (fun b => exists l, compile st b = Return l) before /\
            compile st a = Throw e
      end) /\
  (forall suiteName actions st,
      match buildTestSuite suiteName actions st with
      | (Return path, st') =>
          exists groups,
            Forall2 (fun a l => compile st a = Return l) actions groups /\
            path = "./cypress/e2e/" +:+ specFileName suiteName /\
            FS.readFile path (files st')
            = Some (newline +:+ "    describe('" +:+ suiteName +:+ "', () => {" +:+ newline +:+
                    "      it('performs UI testing', () => {" +:+ newline +:+
                    "        " +:+ join (newline +:+ "        ") (concat groups) +:+ newline +:+
                    "      })" +:+ newline +:+
                    "    })" +:+ newline +:+
                    "    ")
      | (Throw e, st') =>
          files st' = files st /\
          ((exists before a after,
               actions = before ++ a :: after /\
               Forall (fun b => exists l, compile st b = Return l) before /\
               compile st a = Throw e) \/
           (exists groups content,
               Forall2 (fun a l => compile st a = Return l) actions groups /\
               fst (FS.writeFileSync ("./cypress/e2e/" +:+ specFileName suiteName) content
                      (files st)) = Throw e))
      end) /\
  (forall suiteName actions st,
      Forall (fun a => exists l, compile st a = Return l) actions ->
      FS.isDirectory "./cypress/e2e" (files st) = true ->
      fits (specFileName suiteName) = true ->
      FS.isDirectory ("./cypress/e2e/" +:+ specFileName suiteName) (files st) = false ->
      exists st',
        buildTestSuite suiteName actions st
        = (Return ("./cypress/e2e/" +:+ specFileName suiteName), st')) /\
  fst (buildTestSuite_loop
         [navigateTo "/"; testElement "h1" "text" (JStr "Example Domain");
          captureScreenshot "homepage"] [] fresh)
  = Return ["cy.visit('/')"; "cy.get('h1').should('have.text', 'Example Domain')";
            "cy.screenshot('homepage')"].
Proof.
  split; [|split; [|split; [|reflexivity]]].
  - intros actions st.
    destruct (buildTestSuite_loop actions [] st) as [[statements|e] st1] eqn:Hloop.
    + now destruct (buildTestSuite_loop_groups _ _ _ _ Hloop).
    + exact (buildTestSuite_loop_first_throw _ _ _ _ _ Hloop).
  - intros suiteName actions st. unfold buildTestSuite, bind.
    destruct (buildTestSuite_loop actions [] st) as [[statements|e] st1] eqn:Hloop.
    + destruct (buildTestSuite_loop_groups _ _ _ _ Hloop) as (Hfiles & groups & Hgroups & ->).
      destruct (createTest suiteName (concat groups) st1) as [[path|e] st'] eqn:Hcreate.
      * exists groups. split; [exact Hgroups|].
        rewrite createTest_unfold in Hcreate.
        destruct (FS.writeFileSync _ _ (files st1)) as [[[]|e] fs] eqn:Hwrite; [|discriminate].
        injection Hcreate as <- <-. split; [reflexivity|].
        cbn [files]. exact (writeFileSync_read _ _ _ _ Hwrite).
      * destruct (createTest_Throw _ _ _ _ _ Hcreate) as (-> & Hwrite).
        split; [exact Hfiles|]. right. exists groups, (testContent suiteName (concat groups)).
        split; [exact Hgroups|]. now rewrite <- Hfiles.
    + pose proof (buildTestSuite_loop_spec actions [] st) as Hspec. rewrite Hloop in Hspec.
      split; [apply Hspec|]. left.
      exact (buildTestSuite_loop_first_throw _ _ _ _ _ Hloop).
  - intros suiteName actions st Hall Hdir Hfits Hfile. unfold buildTestSuite, bind.
    destruct (buildTestSuite_loop actions [] st) as [[statements|e] st1] eqn:Hloop.
    + destruct (buildTestSuite_loop_groups _ _ _ _ Hloop) as (Hfiles & _).
      rewrite createTest_unfold.
      destruct (createTest_writes suiteName statements st1) as (fs & ->);
        [rewrite ?Hfiles; assumption..|].
      eexists. reflexivity.
    + destruct (buildTestSuite_loop_first_throw _ _ _ _ _ Hloop)
        as (before & a & after & -> & _ & Ha).
      apply Forall_app in Hall as [_ Hall]. inversion Hall as [|? ? [l Hl] _]; subst.
      congruence.
Qed.

Lemma buildTestSuite_preserves_order_witness :
  exists st',
    buildTestSuite "Example Test"
      [navigateTo "/"; testElement "h1" "text" (JStr "Example Domain");
       captureScreenshot "homepage"] fresh
    = (Return "./cypress/e2e/example_test.cy.js", st').
Proof.
  apply (proj1 (proj2 (proj2 buildTestSuite_preserves_order)) "Example Test"
           [navigateTo "/"; testElement "h1" "text" (JStr "Example Domain");
            captureScreenshot "homepage"] fresh).
  - repeat constructor; eexists; reflexivity.
  - reflexivity.
  - reflexivity.
  - reflexivity.
Defined.

(** The loop over a list of actions followed by another. *)
Lemma buildTestSuite_loop_app before after : forall testActions st,
  buildTestSuite_loop (before ++ after) testActions st
  = match buildTestSuite_loop before testActions st with
    | (Return stmts, st1) => buildTestSuite_loop after stmts st1
    | (Throw e, st1) => (Throw e, st1)
    end.
Proof.
  induction before as [|a before IH]; intros testActions st.
  - reflexivity.
  - rewrite <- app_comm_cons.
    rewrite (buildTestSuite_loop_cons a (before ++ after)), (buildTestSuite_loop_cons a before).
    destruct (buildTestSuite_loop [a] [] st) as [[l|e] st1]; [apply IH|reflexivity].
Qed.

Lemma unrecognized_neq t :
  recognized t = false ->
  t <> "navigate" /\ t <> "testElement" /\ t <> "fillForm" /\ t <> "screenshot" /\ t <> "wait".
Proof.
  unfold recognized, actionTypes. intros Ht. apply bool_decide_eq_false in Ht.
  repeat split; intros ->; apply Ht, list_elem_of_In; simpl; auto 10.
Qed.

(** C9. An action whose type tag is none of navigate, testElement,
    fillForm, screenshot and wait compiles to no statement, throws
    nothing and leaves the state alone; the loop goes past it, and the
    suite built from a list with such an action is the suite built from
    the list without it. *)
Theorem buildTestSuite_drops_unrecognized a :
  recognized (type a) = false ->
  (forall st, buildTestSuite_loop [a] [] st = (Return [], st)) /\
  (forall rest testActions st,
      buildTestSuite_loop (a :: rest) testActions st
      = buildTestSuite_loop rest testActions st) /\
  (forall suiteName before after st,
      buildTestSuite suiteName (before ++ a :: after) st
      = buildTestSuite suiteName (before ++ after) st).
Proof.
  intros Ht. destruct (unrecognized_neq _ Ht) as (?&?&?&?&?).
  assert (forall rest testActions st,
             buildTestSuite_loop (a :: rest) testActions st
             = buildTestSuite_loop rest testActions st) as Hskip.
  { intros rest testActions st. cbn [buildTestSuite_loop].
    repeat (case_decide; [congruence|]). reflexivity. }
  split; [|split].
  - intros st. now rewrite Hskip.
  - exact Hskip.
  - intros suiteName before after st. unfold buildTestSuite, bind.
    rewrite !buildTestSuite_loop_app.
    destruct (buildTestSuite_loop before [] st) as [[stmts|e] st1]; [|reflexivity].
    now rewrite Hskip.
Qed.

Lemma buildTestSuite_drops_unrecognized_witness :
  recognized "hover" = false /\
  buildTestSuite_loop
    [navigateTo "/"; Action "hover" absent "h1" absent JUndefined [] absent JUndefined;
     captureScreenshot "homepage"] [] fresh
  = (Return ["cy.visit('/')"; "cy.screenshot('homepage')"], fresh).
Proof.
  split; [reflexivity|].
  destruct (buildTestSuite_drops_unrecognized
              (Action "hover" absent "h1" absent JUndefined [] absent JUndefined) eq_refl)
    as (_ & Hskip & _).
  rewrite (buildTestSuite_loop_cons (navigateTo "/")). cbn [buildTestSuite_loop].
  change (buildTestSuite_loop
            (Action "hover" absent "h1" absent JUndefined [] absent JUndefined
             :: [captureScreenshot "homepage"]) ([] ++ ["cy.visit('/')"]) fresh
          = (Return ["cy.visit('/')"; "cy.screenshot('homepage')"], fresh)).
  rewrite Hskip. reflexivity.
Defined.

End Suite.

(** ** Form filling and file names *)

Section FormAndFile.
Import JS Cypress Spec Notions.

(** The loop pushes one statement per entry, in the order of the
    entries. *)
Lemma generateFormFillAction_loop_spec entries : forall actions,
  generateFormFillAction_loop entries actions
  = actions ++ map (fun kv => fieldStatement (fst kv) (fieldControl_of (fst kv) (snd kv))) entries.
Proof.
  induction entries as [|[selector v] rest IH]; intros actions.
  - simpl. now rewrite app_nil_r.
  - cbn [generateFormFillAction_loop map fst snd].
    unfold fieldControl_of, fieldStatement.
    destruct v as [| |[|]|n|s]; cbn [typeof_is_boolean ToBoolean];
      try destruct (includes selector "select"); rewrite IH, <- app_assoc; reflexivity.
Qed.

(** C3. The form-fill compiler returns, for the entries of the mapping in
    their iteration order, one statement per field: a check or uncheck
    statement for a boolean value, otherwise a select statement when the
    selector contains the text select, otherwise a clear-then-type
    statement.  The mapping of the example is iterated in the order it is
    written and gives a check, a select and a clear-then-type statement. *)
Theorem generateFormFillAction_per_field :
  (forall formData st,
      generateFormFillAction formData st
      = (Return (map (fun kv => fieldStatement (fst kv) (fieldControl_of (fst kv) (snd kv)))
                     (Object_entries formData)), st)) /\
  (forall selector v,
      fieldControl_of selector v
      = match v with
        | JBool b => if b then Check else Uncheck
        | _ => if includes selector "select" then Select (ToString v)
               else ClearThenType (ToString v)
        end) /\
  (forall selector,
      includes selector "select" = true <-> exists a b, selector = a +:+ "select" +:+ b) /\
  (Object_entries [("#subscribe", JBool true); ("#country select", JStr "US");
                   ("#name", JStr "Alice")]
   = [("#subscribe", JBool true); ("#country select", JStr "US"); ("#name", JStr "Alice")] /\
   fst (generateFormFillAction
          [("#subscribe", JBool true); ("#country select", JStr "US"); ("#name", JStr "Alice")]
          fresh)
   = Return ["cy.get('#subscribe').check()"; "cy.get('#country select').select('US')";
             "cy.get('#name').clear().type('Alice')"]).
Proof.
  split; [|split; [|split; [|split]]].
  - intros formData st. unfold generateFormFillAction, ret.
    now rewrite generateFormFillAction_loop_spec.
  - intros selector [| |[|]|n|s]; reflexivity.
  - intros selector. apply includes_spec.
  - vm_compute. reflexivity.
  - vm_compute. reflexivity.
Qed.

Lemma specFileName_clean testName :
  Forall (fun c => isWhitespace c = false /\ toLowerCase_unit c = c)
         (list_ascii_of_string (specFileName testName)).
Proof.
  unfold specFileName.
  rewrite list_ascii_of_string_app, list_ascii_of_string_toLowerCase.
  apply Forall_app. split.
  - apply Forall_map.
    eapply Forall_impl; [apply (replaceWhitespaceRuns_aux_clean testName false)|].
    intros c Hc. cbn beta.
    now rewrite isWhitespace_toLowerCase_unit, toLowerCase_unit_idempotent.
  - vm_compute. repeat constructor.
Qed.

(** C8. The file of a suite is named after the suite: whenever
    [createTest] returns, it returns the path [./cypress/e2e/] followed
    by the suite name with whitespace replaced by underscores, then
    lower-cased, then followed by [.cy.js]; the suite is the content of
    the file at that path, the one file written, and the path is pushed
    to the spec files.  When the tests directory is there and the derived
    name fits in a directory, [createTest] returns and the file is the
    entry of that name in the tests directory; a name with a slash may
    lead elsewhere or nowhere, and then [createTest] throws and changes
    nothing.  The path depends on the suite name alone; no whitespace
    and no capital letter is left in the name.  The replacement leaves a
    text without whitespace as it is and puts one underscore for each
    maximal run of whitespace. *)
Theorem createTest_file_name :
  (forall testName testActions st,
      match createTest testName testActions st with
      | (Return path, st') =>
          path = "./cypress/e2e/" +:+ toLowerCase (replaceWhitespaceRuns "_" testName)
                   +:+ ".cy.js" /\
          FS.readFile path (files st') = Some (testContent testName testActions) /\
          (exists loc,
              FS.resolve (files st) path = inr loc /\
              FS.nodes (files st')
              = <[loc := FS.File (testContent testName testActions)]> (FS.nodes (files st))) /\
          specFiles (this st') = specFiles (this st) ++ [path]
      | (Throw e, st') => st' = st
      end) /\
  (forall testName testActions st,
      FS.isDirectory "./cypress/e2e" (files st) = true ->
      fits (specFileName testName) = true ->
      FS.isDirectory ("./cypress/e2e/" +:+ specFileName testName) (files st) = false ->
      exists dir st',
        FS.resolve (files st) "./cypress/e2e" = inr dir /\
        createTest testName testActions st
        = (Return ("./cypress/e2e/" +:+ specFileName testName), st') /\
        FS.nodes (files st') !! (dir ++ [specFileName testName])
        = Some (FS.File (testContent testName testActions))) /\
  (forall testName testActions1 testActions2 st1 st2 path1 path2 st1' st2',
      createTest testName testActions1 st1 = (Return path1, st1') ->
      createTest testName testActions2 st2 = (Return path2, st2') ->
      path1 = path2) /\
  (forall testName,
      Forall (fun c => isWhitespace c = false /\ toLowerCase_unit c = c)
             (list_ascii_of_string (specFileName testName))) /\
  (forall a,
      Forall (fun c => isWhitespace c = false) (list_ascii_of_string a) ->
      replaceWhitespaceRuns "_" a = a) /\
  (forall a ws b,
      Forall (fun c => isWhitespace c = false) (list_ascii_of_string a) ->
      Forall (fun c => isWhitespace c = true) (list_ascii_of_string ws) ->
      ws <> EmptyString ->
      match b with
      | EmptyString => True
      | String c _ => isWhitespace c = false
      end ->
      replaceWhitespaceRuns "_" (a +:+ ws +:+ b) = a +:+ "_" +:+ replaceWhitespaceRuns "_" b) /\
  fst (createTest "Example Test" [] fresh) = Return "./cypress/e2e/example_test.cy.js" /\
  createTest "Login/Logout" [] fresh
  = (Throw (Error "ENOENT: no such file or directory, open './cypress/e2e/login/logout.cy.js'"),
     fresh).
Proof.
  assert (forall testName testActions st,
             match createTest testName testActions st with
             | (Return path, st') => path = "./cypress/e2e/" +:+ specFileName testName
             | (Throw e, st') => True
             end) as Hpath.
  { intros. rewrite createTest_unfold.
    now destruct (FS.writeFileSync _ _ (files st)) as [[[]|e] fs]. }
  split; [|split; [|split; [|split; [|split; [|split; [|split]]]]]].
  - intros testName testActions st.
    destruct (createTest testName testActions st) as [[path|e] st'] eqn:Hcreate.
    + rewrite createTest_unfold in Hcreate.
      destruct (FS.writeFileSync _ _ (files st)) as [[[]|e] fs] eqn:Hwrite; [|discriminate].
      injection Hcreate as <- <-. cbn [files this specFiles].
      split; [reflexivity|]. split; [exact (writeFileSync_read _ _ _ _ Hwrite)|].
      split; [|reflexivity].
      destruct (writeFileSync_Return _ _ _ _ Hwrite) as (loc & Hres & _ & ->).
      now exists loc.
    + now destruct (createTest_Throw _ _ _ _ _ Hcreate).
  - intros testName testActions st Hdir Hfits Hfile.
    destruct (suffixed_name (toLowerCase (replaceWhitespaceRuns "_" testName)) ".cy.js")
      as (H0 & H1 & H2); [simpl; lia|].
    destruct (writeFileSync_child (files st) "./cypress/e2e" (specFileName testName)
                (testContent testName testActions)) as (dir & Hres & _ & Hwrite);
      try assumption; try discriminate; try reflexivity.
    { unfold fits in Hfits. rewrite !andb_true_iff in Hfits. destruct Hfits as [_ Hlen].
      apply Nat.leb_le in Hlen. unfold FS.NAME_MAX, FS.PATH_MAX in *.
      change (FS.bytes "./cypress/e2e") with 13%nat. lia. }
    exists dir. eexists. split; [exact Hres|].
    rewrite createTest_unfold.
    change ("./cypress/e2e/" +:+ specFileName testName)
      with ("./cypress/e2e" +:+ "/" +:+ specFileName testName).
    rewrite Hwrite. split; [reflexivity|]. cbn [files FS.nodes]. apply lookup_insert_eq.
  - intros testName testActions1 testActions2 st1 st2 path1 path2 st1' st2' H1 H2.
    pose proof (Hpath testName testActions1 st1) as Hp1. rewrite H1 in Hp1.
    pose proof (Hpath testName testActions2 st2) as Hp2. rewrite H2 in Hp2.
    congruence.
  - apply specFileName_clean.
  - apply replaceWhitespaceRuns_word.
  - apply replaceWhitespaceRuns_run.
  - vm_compute. reflexivity.
  - vm_compute. reflexivity.
Qed.

Lemma createTest_file_name_witness :
  exists dir st',
    FS.resolve project "./cypress/e2e" = inr dir /\
    createTest "Example Test" ["cy.visit('/')"] fresh
    = (Return "./cypress/e2e/example_test.cy.js", st') /\
    FS.nodes (files st') !! (dir ++ ["example_test.cy.js"])
    = Some (FS.File (testContent "Example Test" ["cy.visit('/')"])).
Proof.
  apply (proj1 (proj2 createTest_file_name) "Example Test" ["cy.visit('/')"] fresh);
    reflexivity.
Defined.

(** Runs of spaces and tabs, also at the ends of the name. *)
Example specFileName_runs :
  specFileName (" My   Suite" +:+ String (ascii_of_nat 9) "Name ") = "_my_suite_name_.cy.js".
Proof. vm_compute. reflexivity. Qed.

End FormAndFile.

(** ** The direct driver *)

Section Direct.
Import JS Playwright Spec.
Context {W : Type} `{Page W}.

Lemma on_page_this {A} (op : method W A) (st : @state W) :
  this (snd (on_page op st)) = this st.
Proof. unfold on_page. now destruct (op (page st)). Qed.

Lemma on_page_Throw {A} (op : method W A) (st : @state W) e w :
  op (page st) = (Throw e, w) -> on_page op st = (Throw e, {| this := this st; page := w |}).
Proof. intros E. unfold on_page. now rewrite E. Qed.

Lemma on_page_Return {A} (op : method W A) (st : @state W) a w :
  op (page st) = (Return a, w) -> on_page op st = (Return a, {| this := this st; page := w |}).
Proof. intros E. unfold on_page. now rewrite E. Qed.

(** The switch touches the page only. *)
Lemma switch_testType_this selector kind expectedValue (st : @state W) :
  this (snd (switch_testType selector kind expectedValue st)) = this st.
Proof.
  unfold switch_testType. repeat case_decide.
  - unfold bind. pose proof (on_page_this (isVisible selector) st).
    destruct (on_page (isVisible selector) st) as [[?|?] ?]; assumption.
  - unfold bind. pose proof (on_page_this (textContent selector) st).
    destruct (on_page (textContent selector) st) as [[?|?] ?]; assumption.
  - unfold bind at 1, lift.
    destruct (split_expected expectedValue) as [parts|e]; [|reflexivity].
    unfold bind.
    pose proof (on_page_this (getAttribute selector (ToString (element parts 0))) st).
    destruct (on_page (getAttribute selector (ToString (element parts 0))) st) as [[?|?] ?];
      assumption.
  - unfold bind. pose proof (on_page_this (click selector) st).
    destruct (on_page (click selector) st) as [[?|?] ?]; assumption.
  - reflexivity.
Qed.

(** What the body of the [try] does to the result list: one entry when
    it returns, none when it throws. *)
Lemma testElement_try_spec selector kind expectedValue (st : @state W) :
  match testElement_try selector kind expectedValue st with
  | (Return b, st') =>
      exists entry, recorded st st' entry /\
        Playwright.selector entry = selector /\ testType entry = kind /\
        expected entry = expectedValue /\ passed entry = b /\ error entry = None
  | (Throw e, st') => this st' = this st
  end.
Proof.
  unfold testElement_try, bind at 1.
  pose proof (on_page_this (waitForSelector selector) st) as Hw.
  destruct (on_page (waitForSelector selector) st) as [[[]|e] st1]; simpl in Hw; [|exact Hw].
  unfold bind at 1.
  pose proof (switch_testType_this selector kind expectedValue st1) as Hs.
  destruct (switch_testType selector kind expectedValue st1) as [[r|e] st2]; simpl in Hs;
    [|congruence].
  unfold bind, push_testResults, ret, recorded. cbn.
  eexists. split; [rewrite Hs, Hw; reflexivity|]. repeat split.
Qed.

(** [testElement] returns and records exactly one entry, whose [passed]
    is the value returned. *)
Lemma testElement_total selector kind expectedValue (st : @state W) :
  exists b entry st',
    testElement selector kind expectedValue st = (Return b, st') /\
    recorded st st' entry /\
    Playwright.selector entry = selector /\ testType entry = kind /\
    expected entry = expectedValue /\ passed entry = b.
Proof.
  unfold testElement, try_catch.
  pose proof (testElement_try_spec selector kind expectedValue st) as Htry.
  destruct (testElement_try selector kind expectedValue st) as [[b|e] st1].
  - destruct Htry as (entry & Hrec & ? & ? & ? & ? & ?). exists b, entry, st1.
    repeat split; assumption.
  - unfold bind, push_testResults, ret, recorded. cbn.
    do 3 eexists. split; [reflexivity|]. rewrite Htry. repeat split.
Qed.

(** When the body of the [try] throws, the error is caught: the entry
    recorded carries its message and the call returns [false]. *)
Lemma testElement_catches selector kind expectedValue (st : @state W) e st1 :
  testElement_try selector kind expectedValue st = (Throw e, st1) ->
  exists entry st',
    testElement selector kind expectedValue st = (Return false, st') /\
    recorded st st' entry /\
    passed entry = false /\ error entry = Some (message e) /\ actual entry = None.
Proof.
  intros Htry. unfold testElement, try_catch.
  pose proof (testElement_try_spec selector kind expectedValue st) as Hthis.
  rewrite Htry in Hthis |- *.
  unfold bind, push_testResults, ret, recorded. cbn.
  do 2 eexists. split; [reflexivity|]. rewrite Hthis. repeat split.
Qed.

(** A run of assertions returns one verdict per assertion and records
    one entry per assertion, whatever the page does. *)
Lemma testElements_total assertions : forall st : @state W,
  exists verdicts st',
    testElements assertions st = (Return verdicts, st') /\
    length verdicts = length assertions /\
    length (testResults (this st'))
    = (length (testResults (this st)) + length assertions)%nat.
Proof.
  induction assertions as [|[[selector kind] expectedValue] rest IH]; intros st.
  - exists [], st. cbn. repeat split. lia.
  - cbn [testElements].
    destruct (testElement_total selector kind expectedValue st)
      as (b & entry & st1 & Hcall & Hrec & _).
    destruct (IH st1) as (verdicts & st' & Hrest & Hlen & Hres).
    exists (b :: verdicts), st'.
    unfold bind at 1. rewrite Hcall. unfold bind at 1. rewrite Hrest.
    unfold ret. split; [reflexivity|]. split; [simpl; congruence|].
    rewrite Hres, Hrec, length_app. simpl. lia.
Qed.

(** A page operation that throws makes the body of the [try] throw the
    same error: the wait for the element, or the operation of the kind
    once the wait is over. *)
Lemma testElement_try_wait_throws selector kind expectedValue (st : @state W) e w :
  waitForSelector selector (page st) = (Throw e, w) ->
  testElement_try selector kind expectedValue st = (Throw e, {| this := this st; page := w |}).
Proof.
  intros Hw. unfold testElement_try, bind at 1.
  now rewrite (on_page_Throw _ _ _ _ Hw).
Qed.

Lemma testElement_try_operation_throws selector kind expectedValue (st : @state W) e w1 w2 :
  waitForSelector selector (page st) = (Return tt, w1) ->
  (kind = "exists" /\ isVisible selector w1 = (Throw e, w2)) \/
  (kind = "text" /\ textContent selector w1 = (Throw e, w2)) \/
  (kind = "attribute" /\ exists s,
      expectedValue = JStr s /\
      getAttribute selector (ToString (element (split "=" s) 0)) w1 = (Throw e, w2)) \/
  (kind = "clickable" /\ click selector w1 = (Throw e, w2)) ->
  testElement_try selector kind expectedValue st = (Throw e, {| this := this st; page := w2 |}).
Proof.
  intros Hw Hop. unfold testElement_try, bind at 1.
  rewrite (on_page_Return _ _ _ _ Hw). unfold bind at 1, switch_testType.
  destruct Hop as [[-> Hop]|[[-> Hop]|[[-> (s & -> & Hop)]|[-> Hop]]]];
    repeat case_decide; try congruence;
    unfold bind, lift; cbn [split_expected];
    rewrite (on_page_Throw _ {| this := this st; page := w1 |} e w2 Hop); reflexivity.
Qed.

(** C6. A call of [testElement] always returns, never throws, and the
    result list gains exactly one entry, whose [passed] is the value
    returned.  When the wait for the element or the page operation of the
    assertion throws (element not found, timeout), the entry is a failed
    one that carries the message of the error and the call returns
    [false].  So a run of assertions executes every one of them: it
    returns one verdict and records one entry per assertion. *)
Theorem testElement_partial_failure selector kind expectedValue (st : @state W) :
  (exists b entry st',
      testElement selector kind expectedValue st = (Return b, st') /\
      recorded st st' entry /\
      Playwright.selector entry = selector /\ testType entry = kind /\
      expected entry = expectedValue /\ passed entry = b) /\
  (forall e w1 w2,
      waitForSelector selector (page st) = (Throw e, w2) \/
      (waitForSelector selector (page st) = (Return tt, w1) /\
       ((kind = "exists" /\ isVisible selector w1 = (Throw e, w2)) \/
        (kind = "text" /\ textContent selector w1 = (Throw e, w2)) \/
        (kind = "attribute" /\ exists s,
            expectedValue = JStr s /\
            getAttribute selector (ToString (element (split "=" s) 0)) w1 = (Throw e, w2)) \/
        (kind = "clickable" /\ click selector w1 = (Throw e, w2)))) ->
      exists entry st',
        testElement selector kind expectedValue st = (Return false, st') /\
        recorded st st' entry /\
        passed entry = false /\ error entry = Some (message e) /\ actual entry = None) /\
  (forall assertions,
      exists verdicts st',
        testElements assertions st = (Return verdicts, st') /\
        length verdicts = length assertions /\
        length (testResults (this st'))
        = (length (testResults (this st)) + length assertions)%nat).
Proof.
  split; [|split].
  - apply testElement_total.
  - intros e w1 w2 [Hw|[Hw Hop]].
    + eapply testElement_catches, testElement_try_wait_throws, Hw.
    + eapply testElement_catches, testElement_try_operation_throws; eassumption.
  - intros assertions. apply testElements_total.
Qed.

End Direct.

Section DirectExamples.
Import JS Playwright Spec.

(** On the page of example.com there is no [h2]: the wait times out, the
    call returns [false] and records the message. *)
Lemma testElement_partial_failure_witness :
  waitForSelector "h2" (page examplePage)
  = (Throw (Error "Timeout 5000ms exceeded."), page examplePage) /\
  exists entry st',
    testElement "h2" "exists" JUndefined examplePage = (Return false, st') /\
    recorded examplePage st' entry /\
    passed entry = false /\ error entry = Some "Timeout 5000ms exceeded." /\
    actual entry = None.
Proof.
  split; [reflexivity|].
  destruct (testElement_partial_failure "h2" "exists" JUndefined examplePage)
    as (_ & Hthrows & _).
  apply (Hthrows (Error "Timeout 5000ms exceeded.") (page examplePage) (page examplePage)).
  left. reflexivity.
Defined.

(** The three assertions of [runExample] on that page, with one on a
    missing element put first: all four run. *)
Example testElements_example :
  fst (testElements
         [("h2", "exists", JUndefined); ("h1", "text", JStr "Example Domain");
          ("h1", "exists", JUndefined); ("h1", "hover", JUndefined)] examplePage)
  = Return [false; true; true; false].
Proof. vm_compute. reflexivity. Qed.

(** The direct driver catches its own error for an unknown kind: the
    call returns [false] and the entry carries the message. *)
Example testElement_unknown_kind_example :
  fst (testElement "h1" "hover" JUndefined examplePage) = Return false /\
  (error <$> testResults (this (snd (testElement "h1" "hover" JUndefined examplePage))))
  = [Some "Unknown test type: hover"].
Proof. vm_compute. split; reflexivity. Qed.

End DirectExamples.

(** ** The screenshot-grouping report *)

Section Grouping.
Import JS Generator Spec.

Lemma groupOf_one file route viewport :
  groupOf [file] route viewport
  = if grouped file && bool_decide (routeOf file = route)
       && bool_decide (viewportOf file = viewport)
    then [file] else [].
Proof. unfold groupOf. cbn [List.filter]. now destruct (_ && _ && _). Qed.

Lemma groupOf_cons file files route viewport :
  groupOf (file :: files) route viewport
  = groupOf [file] route viewport ++ groupOf files route viewport.
Proof. unfold groupOf. cbn [List.filter]. now destruct (_ && _ && _). Qed.

Lemma extend_nil old : extend old [] = old.
Proof. destruct old as [l|]; cbn; [now rewrite app_nil_r | reflexivity]. Qed.

Lemma extend_app old new1 new2 :
  extend (extend old new1) new2 = extend old (new1 ++ new2).
Proof.
  destruct old as [l|]; cbn; [now rewrite app_assoc|].
  destruct new1 as [|x new1]; cbn; [|reflexivity].
  reflexivity.
Qed.

Lemma get_property_plain {A} (o : gmap string A) k :
  k ∉ Object_prototype_keys ->
  get_property o k = match o !! k with Some a => Own a | None => Missing end.
Proof.
  intros Hk. unfold get_property. destruct (o !! k); [reflexivity|].
  now rewrite bool_decide_false.
Qed.

(** The callback on a file whose segments are plain names: the file is
    pushed to its group, created if need be; a file with fewer than two
    segments changes nothing; nothing is thrown. *)
Lemma group_file_plain file (data : reportData) :
  plain file ->
  exists data',
    group_file file data = Groups data' /\
    forall route viewport,
      lookup2 data' route viewport
      = extend (lookup2 data route viewport) (groupOf [file] route viewport).
Proof.
  intros Hplain. unfold group_file.
  fold (segments file). fold (routeOf file). fold (viewportOf file). fold (grouped file).
  unfold plain in Hplain.
  destruct (grouped file) eqn:Hg.
  - destruct (Hplain eq_refl) as [Hr Hv].
    rewrite (get_property_plain data _ Hr).
    destruct (data !! routeOf file) as [views|] eqn:Hviews;
      rewrite (get_property_plain _ _ Hv);
      [destruct (views !! viewportOf file) as [l|] eqn:Hl | rewrite lookup_empty];
      (eexists; split; [reflexivity|]);
      intros route viewport; rewrite groupOf_one, Hg; cbn [andb]; unfold lookup2;
      (destruct (decide (routeOf file = route)) as [<-|Hne];
       [ rewrite lookup_insert_eq, bool_decide_true by reflexivity; cbn [andb];
         destruct (decide (viewportOf file = viewport)) as [<-|Hne'];
         [ rewrite lookup_insert_eq, bool_decide_true by reflexivity;
           rewrite ?Hviews, ?Hl; reflexivity
         | rewrite lookup_insert_ne, bool_decide_false by assumption;
           rewrite ?Hviews, ?lookup_empty, ?extend_nil; reflexivity ]
       | rewrite lookup_insert_ne, bool_decide_false by assumption; cbn [andb];
         now rewrite extend_nil ]).
  - exists data. split; [reflexivity|].
    intros route viewport. rewrite groupOf_one, Hg. cbn [andb]. now rewrite extend_nil.
Qed.

(** A file with fewer than two segments is passed over, whatever its
    name and whatever was grouped before. *)
Lemma group_file_short file (data : reportData) :
  grouped file = false -> group_file file data = Groups data.
Proof.
  intros Hg. unfold group_file. fold (segments file). fold (grouped file). now rewrite Hg.
Qed.

Lemma forEach_group_plain files : forall data : reportData,
  Forall plain files ->
  exists data',
    forEach_group files data = Groups data' /\
    forall route viewport,
      lookup2 data' route viewport
      = extend (lookup2 data route viewport) (groupOf files route viewport).
Proof.
  induction files as [|file files IH]; intros data Hall.
  - exists data. split; [reflexivity|]. intros. cbn. now rewrite extend_nil.
  - inversion Hall as [|? ? Hfile Hrest]; subst.
    destruct (group_file_plain file data Hfile) as (data1 & Hstep & Hdata1).
    destruct (IH data1 Hrest) as (data' & Hloop & Hdata').
    exists data'. cbn [forEach_group]. rewrite Hstep. split; [exact Hloop|].
    intros route viewport.
    now rewrite Hdata', Hdata1, extend_app, (groupOf_cons file files).
Qed.

(** On screenshot files whose route and viewport segments are plain
    names, the grouping is as the specification says: it ends without an
    error, and the group of a route and viewport holds, in order, the
    files with at least two segments that begin with that route and
    viewport; no other group exists, so the files with fewer segments are
    in none. *)
Lemma generateReport_groups_plain allFiles :
  Forall plain (List.filter (fun file => endsWith file ".png") allFiles) ->
  exists data,
    generateReport allFiles = Groups data /\
    forall route viewport,
      lookup2 data route viewport
      = match groupOf (List.filter (fun file => endsWith file ".png") allFiles) route viewport with
        | [] => None
        | l => Some l
        end.
Proof.
  intros Hall. unfold generateReport.
  destruct (forEach_group_plain _ ∅ Hall) as (data & Hloop & Hdata).
  exists data. split; [exact Hloop|].
  intros route viewport. rewrite Hdata. unfold lookup2. rewrite lookup_empty.
  cbn. now destruct (groupOf _ route viewport).
Qed.

(** The example of the specification: two groups of one file under the
    route home, and [bad.png] in none. *)
Lemma generateReport_example :
  generateReport ["home-desktop-a.png"; "home-mobile-b.png"; "bad.png"]
  = Groups {[ "home" := {[ "desktop" := ["home-desktop-a.png"];
                           "mobile" := ["home-mobile-b.png"] ]} ]}.
Proof. vm_compute. reflexivity. Qed.

(** C4. The screenshot [home-constructor-a.png] in the screenshots
    directory has the three segments home, constructor and a, so it
    belongs to the group of route home and viewport constructor; the
    grouping throws a [TypeError] on it in place of putting it there,
    because the fresh group object of the route inherits a property named
    constructor. *)
Theorem generateReport_inherited_viewport :
  segments "cypress/screenshots/home-constructor-a.png" = ["home"; "constructor"; "a"] /\
  grouped "cypress/screenshots/home-constructor-a.png" = true /\
  get_property (∅ : gmap string (list string)) "constructor" = Inherited /\
  generateReport ["cypress/screenshots/home-constructor-a.png"]
  = Raised (TypeError "reportData[route][viewport].push is not a function").
Proof. vm_compute. repeat split. Qed.

End Grouping.

(** ** The report renderers *)

Section Reports.
Import JS Spec.

(** With a total of zero the fluent builder reports a pass rate of 0. *)
Lemma Cypress_passRate_zero_total passedTests : Cypress.passRate passedTests 0 = RInt 0.
Proof. reflexivity. Qed.

Lemma occurs_append_r a s t :
  (exists before after, s = before +:+ t +:+ after) ->
  exists before after, a +:+ s = before +:+ t +:+ after.
Proof.
  intros (before & after & ->). exists (a +:+ before), after.
  now rewrite append_assoc.
Qed.

Lemma Cypress_summary_zero_total r :
  default 0%N (Cypress.totalTests r) = 0%N ->
  includes (Cypress.summary r) "<p>Pass Rate: 0%</p>" = true.
Proof.
  intros Hzero. apply includes_spec.
  unfold Cypress.summary. cbv zeta. rewrite Hzero, Cypress_passRate_zero_total.
  do 20 apply occurs_append_r.
  exists "        ", (newline +:+ "      </div>"). reflexivity.
Qed.

(** After a run that reports no totals the fluent builder writes a pass
    rate of 0 percent; before any run it writes no report. *)
Example Cypress_generateReport_example :
  (match Cypress.generateReport afterRun with
   | Some html => includes html "<p>Pass Rate: 0%</p>"
   | None => false
   end) = true /\
  Cypress.generateReport fresh = None.
Proof. vm_compute. split; reflexivity. Qed.

(** With a positive total both renderers compute the same rounding; the
    run of the end-to-end scenario, one test that passes, gives 100, and
    the product 29/200 * 100 rounds as the binary64 arithmetic has it. *)
Lemma passRate_examples :
  Cypress.passRate 1 1 = RInt 100 /\ Cypress.passRate 1 3 = RInt 33 /\
  Cypress.passRate 2 3 = RInt 67 /\ Cypress.passRate 29 200 = RInt 14 /\
  Cypress.passRate 1 200 = RInt 1.
Proof. vm_compute. repeat split. Qed.

(** With a positive total the fluent builder computes the rounding that
    the direct driver computes for every total. *)
Lemma Cypress_passRate_positive_total passedTests totalTests :
  (0 < totalTests)%N ->
  Cypress.passRate passedTests totalTests
  = Math_round (multiply (divide (Number_of_N passedTests) (Number_of_N totalTests))
                         (Number_of_N 100)).
Proof. intros Hpos. unfold Cypress.passRate. now rewrite (proj2 (N.ltb_lt _ _) Hpos). Qed.

(** C1. On an agent of the direct driver that has run no assertion, the
    total is 0, the quotient 0/0 is not a number, and the report states
    the pass rate as NaN percent, not as 0 percent. *)
Theorem Playwright_generateReport_no_results :
  Playwright.totalTests [] = 0%N /\
  Playwright.passRate [] = RNaN /\
  includes (Playwright.generateReport
              (Playwright.Agent (JStr "https://example.com") "./test-results" []))
           "<p>Pass Rate: NaN%</p>" = true /\
  includes (Playwright.generateReport
              (Playwright.Agent (JStr "https://example.com") "./test-results" []))
           "<p>Pass Rate: 0%</p>" = false.
Proof. vm_compute. repeat split. Qed.

End Reports.



(** ** Expected values of the form name=value *)

Section Pairs.
Import JS Cypress Spec Notions.

Lemma upTo_lacks c s : lacks c (upTo c s) = true.
Proof.
  unfold upTo. pose proof (split_pieces_lack c s) as Hall.
  destruct (split c s); [reflexivity|]. now inversion Hall.
Qed.

Lemma upTo_id c s : lacks c s = true -> upTo c s = s.
Proof. intros Hs. unfold upTo. now rewrite split_lacks. Qed.

Lemma upTo_first c a b : lacks c a = true -> upTo c (a +:+ String c b) = a.
Proof. intros Ha. unfold upTo. now rewrite split_first. Qed.

(** The two names read from an expected value name=value: the name, and
    the value up to its first [=]. *)
Lemma split_expected_pair name rest :
  lacks "=" name = true ->
  exists more,
    split_expected (JStr (name +:+ "=" +:+ rest)) = Return (name :: upTo "=" rest :: more).
Proof.
  intros Hn. cbn [split_expected].
  change (name +:+ "=" +:+ rest) with (name +:+ String "="%char rest).
  rewrite (split_first _ _ _ Hn). unfold upTo.
  pose proof (split_nonempty "=" rest).
  destruct (split "=" rest) as [|piece more]; [congruence|]. now exists more.
Qed.

Lemma switch_testType_attribute selector expectedValue parts st :
  split_expected expectedValue = Return parts ->
  switch_testType selector "attribute" expectedValue st
  = (Return (("cy.get('" +:+ selector +:+ "')") +:+ ".should('have.attr', '"
               +:+ ToString (element parts 0) +:+ "', '"
               +:+ ToString (element parts 1) +:+ "')"), st).
Proof.
  intros Hs. unfold switch_testType.
  repeat (case_decide; [discriminate|]). case_decide; [|congruence].
  unfold bind, lift. rewrite Hs. reflexivity.
Qed.

Lemma switch_testType_cssProperty selector expectedValue parts st :
  split_expected expectedValue = Return parts ->
  switch_testType selector "cssProperty" expectedValue st
  = (Return (("cy.get('" +:+ selector +:+ "')") +:+ ".should('have.css', '"
               +:+ ToString (element parts 0) +:+ "', '"
               +:+ ToString (element parts 1) +:+ "')"), st).
Proof.
  intros Hs. unfold switch_testType.
  repeat (case_decide; [discriminate|]). case_decide; [|congruence].
  unfold bind, lift. rewrite Hs. reflexivity.
Qed.

(** What the compiler returns for the two kinds that split their expected
    value, on an agent that still collects compiled assertions. *)
Lemma generateElementTest_split selector expectedValue parts st :
  split_expected expectedValue = Return parts ->
  pushes st = true ->
  fst (generateElementTest selector "attribute" expectedValue st)
  = Return (("cy.get('" +:+ selector +:+ "')") +:+ ".should('have.attr', '"
              +:+ ToString (element parts 0) +:+ "', '"
              +:+ ToString (element parts 1) +:+ "')") /\
  fst (generateElementTest selector "cssProperty" expectedValue st)
  = Return (("cy.get('" +:+ selector +:+ "')") +:+ ".should('have.css', '"
              +:+ ToString (element parts 0) +:+ "', '"
              +:+ ToString (element parts 1) +:+ "')").
Proof.
  intros Hs Hp. split.
  - rewrite (generateElementTest_unfold _ _ _ _ _
               (fun st' => switch_testType_attribute selector expectedValue parts st' Hs)).
    now rewrite Hp.
  - rewrite (generateElementTest_unfold _ _ _ _ _
               (fun st' => switch_testType_cssProperty selector expectedValue parts st' Hs)).
    now rewrite Hp.
Qed.

(** X1. An expected value name=value, neither part holding a further
    [=], compiles to an assertion on exactly that name and that value,
    [have.attr] for the kind attribute, [have.css] for cssProperty, and
    the call pushes one entry to the log, with the selector, the kind,
    the expected value and the statement returned; nothing else of the
    state changes. *)
Theorem generateElementTest_name_value selector name val st log :
  lacks "=" name = true ->
  lacks "=" val = true ->
  testResults (this st) = Compiled log ->
  let expected := JStr (name +:+ "=" +:+ val) in
  let attribute :=
    "cy.get('" +:+ selector +:+ "').should('have.attr', '" +:+ name +:+ "', '" +:+ val +:+ "')" in
  let cssProperty :=
    "cy.get('" +:+ selector +:+ "').should('have.css', '" +:+ name +:+ "', '" +:+ val +:+ "')" in
  generateElementTest selector "attribute" expected st
  = (Return attribute,
     {| this := {| baseUrl := baseUrl (this st);
                   outputDir := outputDir (this st);
                   testResults :=
                     Compiled (log ++ [LogEntry selector "attribute" expected attribute]);
                   specFiles := specFiles (this st) |};
        files := files st |}) /\
  generateElementTest selector "cssProperty" expected st
  = (Return cssProperty,
     {| this := {| baseUrl := baseUrl (this st);
                   outputDir := outputDir (this st);
                   testResults :=
                     Compiled (log ++ [LogEntry selector "cssProperty" expected cssProperty]);
                   specFiles := specFiles (this st) |};
        files := files st |}).
Proof.
  intros Hn Hv Hlog expected attribute cssProperty. subst expected attribute cssProperty.
  destruct (split_expected_pair name val Hn) as [more Hs].
  rewrite (generateElementTest_unfold _ _ _ _ _
             (fun st' => switch_testType_attribute selector _ _ st' Hs)).
  rewrite (generateElementTest_unfold _ _ _ _ _
             (fun st' => switch_testType_cssProperty selector _ _ st' Hs)).
  unfold pushes, pushed. rewrite Hlog.
  cbn [element lookup list_lookup ToString]. rewrite (upTo_id _ _ Hv).
  rewrite !append_assoc. split; reflexivity.
Qed.

Lemma generateElementTest_name_value_witness :
  fst (generateElementTest "a" "attribute" (JStr "href=https://www.iana.org/domains/example")
         fresh)
  = Return "cy.get('a').should('have.attr', 'href', 'https://www.iana.org/domains/example')".
Proof.
  destruct (generateElementTest_name_value "a" "href" "https://www.iana.org/domains/example"
              fresh [] eq_refl eq_refl eq_refl) as [Hattribute _].
  change (JStr ("href" +:+ "=" +:+ "https://www.iana.org/domains/example"))
    with (JStr "href=https://www.iana.org/domains/example") in Hattribute.
  rewrite Hattribute. reflexivity.
Defined.

(** X2. Of an expected value the compiler reads the name before the first
    [=] and the text between the first and the second [=]: what follows a
    second [=] is dropped without an error, so name=value=more compiles
    to the statement of name=value. *)
Theorem generateElementTest_value_cut selector name val more st :
  lacks "=" name = true ->
  lacks "=" val = true ->
  fst (generateElementTest selector "attribute"
         (JStr (name +:+ "=" +:+ val +:+ "=" +:+ more)) st)
  = fst (generateElementTest selector "attribute" (JStr (name +:+ "=" +:+ val)) st) /\
  fst (generateElementTest selector "cssProperty"
         (JStr (name +:+ "=" +:+ val +:+ "=" +:+ more)) st)
  = fst (generateElementTest selector "cssProperty" (JStr (name +:+ "=" +:+ val)) st).
Proof.
  intros Hn Hv.
  destruct (split_expected_pair name (val +:+ "=" +:+ more) Hn) as [more1 Hs1].
  destruct (split_expected_pair name val Hn) as [more2 Hs2].
  change (val +:+ "=" +:+ more) with (val +:+ String "="%char more) in Hs1.
  rewrite (upTo_first _ _ _ Hv) in Hs1. rewrite (upTo_id _ _ Hv) in Hs2.
  split.
  - rewrite (generateElementTest_unfold _ _ _ _ _
               (fun st' => switch_testType_attribute selector _ _ st' Hs1)).
    rewrite (generateElementTest_unfold _ _ _ _ _
               (fun st' => switch_testType_attribute selector _ _ st' Hs2)).
    destruct (pushes st); reflexivity.
  - rewrite (generateElementTest_unfold _ _ _ _ _
               (fun st' => switch_testType_cssProperty selector _ _ st' Hs1)).
    rewrite (generateElementTest_unfold _ _ _ _ _
               (fun st' => switch_testType_cssProperty selector _ _ st' Hs2)).
    destruct (pushes st); reflexivity.
Qed.

Lemma generateElementTest_value_cut_witness :
  fst (generateElementTest "a" "attribute" (JStr "href=/search?q=1") fresh)
  = Return "cy.get('a').should('have.attr', 'href', '/search?q')".
Proof.
  destruct (generateElementTest_value_cut "a" "href" "/search?q" "1" fresh eq_refl eq_refl)
    as [Hcut _].
  change (JStr ("href" +:+ "=" +:+ "/search?q" +:+ "=" +:+ "1")) with (JStr "href=/search?q=1")
    in Hcut.
  rewrite Hcut. reflexivity.
Defined.

(** X3. An expected value without [=] is taken as a name with no value:
    the compiled assertion expects the text undefined. *)
Theorem generateElementTest_no_value selector expected st :
  lacks "=" expected = true ->
  pushes st = true ->
  fst (generateElementTest selector "attribute" (JStr expected) st)
  = Return ("cy.get('" +:+ selector +:+ "').should('have.attr', '" +:+ expected
              +:+ "', 'undefined')") /\
  fst (generateElementTest selector "cssProperty" (JStr expected) st)
  = Return ("cy.get('" +:+ selector +:+ "').should('have.css', '" +:+ expected
              +:+ "', 'undefined')").
Proof.
  intros He Hp.
  assert (split_expected (JStr expected) = Return [expected]) as Hs.
  { cbn [split_expected]. now rewrite (split_lacks _ _ He). }
  destruct (generateElementTest_split selector _ _ st Hs Hp) as [Ha Hc].
  rewrite Ha, Hc. cbn [element lookup list_lookup ToString].
  rewrite !append_assoc. split; reflexivity.
Qed.

Lemma generateElementTest_no_value_witness :
  fst (generateElementTest "input" "attribute" (JStr "disabled") fresh)
  = Return "cy.get('input').should('have.attr', 'disabled', 'undefined')".
Proof. apply (generateElementTest_no_value "input" "disabled" fresh); reflexivity. Defined.

End Pairs.

(** ** The log of compiled assertions and the spec files *)

Section LogAndFiles.
Import JS Cypress Spec Notions.

Lemma logOf_pushed entry st : pushes st = true -> logOf (pushed entry st) = logOf st ++ [entry].
Proof. destruct st as [[b o [log|r] f] fs]; [reflexivity | discriminate]. Qed.

(** What one action adds to the log. *)
Lemma buildTestSuite_loop_one_log a st :
  pushes st = true ->
  match buildTestSuite_loop [a] [] st with
  | (Return _, st1) => logOf st1 = logOf st ++ elementEntries st [a]
  | (Throw _, st1) => logOf st1 = logOf st
  end.
Proof.
  intros Hp. unfold elementEntries, isElementTest. cbn [flat_map]. rewrite app_nil_r.
  rewrite statementsOf_unfold. cbn [buildTestSuite_loop].
  destruct (decide (type a = "navigate")) as [Hn|Hn].
  { rewrite bool_decide_false by congruence. cbn. now rewrite app_nil_r. }
  destruct (decide (type a = "testElement")) as [Ht|Ht].
  - rewrite bool_decide_true by assumption. unfold bind.
    destruct (switch_testType_pure (selector a) (testType a) (expectedValue a)) as [c Hc].
    rewrite (generateElementTest_unfold _ _ _ _ c Hc), Hp.
    destruct c as [t|e]; cbn; [|reflexivity]. now apply logOf_pushed.
  - rewrite bool_decide_false by assumption.
    repeat case_decide; cbn; now rewrite app_nil_r.
Qed.

Lemma elementEntries_same_mode st1 st2 actions :
  pushes st1 = pushes st2 -> elementEntries st1 actions = elementEntries st2 actions.
Proof.
  intros Hm. unfold elementEntries. induction actions as [|a rest IH]; [reflexivity|].
  cbn [flat_map]. now rewrite IH, (statementsOf_same_mode st1 st2 a Hm).
Qed.

Lemma buildTestSuite_loop_log actions : forall testActions st,
  pushes st = true ->
  match buildTestSuite_loop actions testActions st with
  | (Return _, st') => logOf st' = logOf st ++ elementEntries st actions
  | (Throw _, _) => True
  end.
Proof.
  induction actions as [|a rest IH]; intros testActions st Hp.
  - cbn. now rewrite app_nil_r.
  - rewrite buildTestSuite_loop_cons.
    pose proof (buildTestSuite_loop_one_log a st Hp) as Hone.
    destruct (buildTestSuite_loop_one_state a st) as [Hp1 _].
    destruct (buildTestSuite_loop [a] [] st) as [[l|e] st1]; [|exact I].
    cbn [snd] in Hp1.
    specialize (IH (testActions ++ l) st1 (eq_trans Hp1 Hp)).
    destruct (buildTestSuite_loop rest (testActions ++ l) st1) as [[stmts|e'] st']; [|exact I].
    rewrite IH, Hone, <- app_assoc. f_equal.
    change (a :: rest) with ([a] ++ rest). unfold elementEntries at 3.
    rewrite flat_map_app. fold (elementEntries st [a]). fold (elementEntries st rest).
    f_equal. apply elementEntries_same_mode. congruence.
Qed.

(** The entries added are the records of the element tests, in order. *)
Lemma elementEntries_entryFor st actions :
  Forall (fun a => exists l, statementsOf st a = Return l) actions ->
  Forall2 (entryFor st) (List.filter isElementTest actions) (elementEntries st actions).
Proof.
  induction 1 as [|a rest [l Hl] Hrest IH]; [constructor|].
  unfold elementEntries. cbn [List.filter flat_map]. fold (elementEntries st rest).
  destruct (isElementTest a) eqn:Ha; [|exact IH].
  assert (exists t, statementsOf st a = Return [t]) as [t Ht].
  { unfold isElementTest in Ha. apply bool_decide_eq_true in Ha.
    rewrite statementsOf_unfold in Hl |- *.
    destruct (decide (type a = "navigate")) as [Hn|Hn]; [congruence|].
    destruct (decide (type a = "testElement")) as [Ht|Ht]; [|congruence].
    destruct (fst (generateElementTest _ _ _ st)) as [t|e]; [now exists t | discriminate]. }
  rewrite Ht. cbn [app]. constructor; [|exact IH].
  unfold entryFor. cbn. auto.
Qed.

(** X4. When [buildTestSuite] returns on an agent that still collects
    compiled assertions, the log [testResults] has grown by exactly one
    entry per element-test action, in the order of the actions; each
    entry carries the selector, kind and expected value of its action and
    the very statement emitted for it.  No other entry is added. *)
Theorem buildTestSuite_log suiteName actions st path st' :
  pushes st = true ->
  buildTestSuite suiteName actions st = (Return path, st') ->
  exists added,
    logOf st' = logOf st ++ added /\
    Forall2 (entryFor st) (List.filter isElementTest actions) added.
Proof.
  intros Hp Hbuild. unfold buildTestSuite, bind in Hbuild.
  pose proof (buildTestSuite_loop_log actions [] st Hp) as Hlog.
  pose proof (buildTestSuite_loop_spec actions [] st) as Hspec.
  destruct (buildTestSuite_loop actions [] st) as [[stmts|e] st1]; [|discriminate].
  rewrite createTest_unfold in Hbuild.
  destruct (FS.writeFileSync _ _ (files st1)) as [[[]|e] fs]; [|discriminate].
  injection Hbuild as _ <-.
  exists (elementEntries st actions). split.
  - exact Hlog.
  - apply elementEntries_entryFor. now destruct Hspec as (_ & Hall & _).
Qed.

Lemma buildTestSuite_log_witness :
  exists added,
    logOf (snd (buildTestSuite "Example Test"
                  [navigateTo "/"; testElement "h1" "text" (JStr "Example Domain");
                   captureScreenshot "homepage"] fresh))
    = logOf fresh ++ added /\
    Forall2 (entryFor fresh)
            [testElement "h1" "text" (JStr "Example Domain")] added.
Proof.
  apply (buildTestSuite_log "Example Test"
           [navigateTo "/"; testElement "h1" "text" (JStr "Example Domain");
            captureScreenshot "homepage"] fresh "./cypress/e2e/example_test.cy.js").
  - reflexivity.
  - vm_compute. reflexivity.
Defined.

(** Once the result list is replaced, an element test throws and an
    action of another type works as before; neither changes the state. *)
Lemma buildTestSuite_loop_one_after_run a st :
  pushes st = false ->
  snd (buildTestSuite_loop [a] [] st) = st /\
  (type a = "testElement" -> exists e, fst (buildTestSuite_loop [a] [] st) = Throw e).
Proof.
  intros Hp. cbn [buildTestSuite_loop].
  destruct (decide (type a = "navigate")) as [Hn|Hn].
  { split; [reflexivity | congruence]. }
  destruct (decide (type a = "testElement")) as [Ht|Ht].
  - unfold bind.
    destruct (switch_testType_pure (selector a) (testType a) (expectedValue a)) as [c Hc].
    rewrite (generateElementTest_unfold _ _ _ _ c Hc), Hp.
    destruct c as [t|e]; (split; [reflexivity | intros _; eexists; reflexivity]).
  - repeat case_decide; (split; [reflexivity | congruence]).
Qed.

Lemma buildTestSuite_loop_after_run actions : forall testActions st,
  pushes st = false ->
  snd (buildTestSuite_loop actions testActions st) = st /\
  (Exists (fun a => type a = "testElement") actions ->
   exists e, fst (buildTestSuite_loop actions testActions st) = Throw e).
Proof.
  induction actions as [|a rest IH]; intros testActions st Hp.
  - split; [reflexivity | intros Hex; inversion Hex].
  - rewrite buildTestSuite_loop_cons.
    destruct (buildTestSuite_loop_one_after_run a st Hp) as [Hst Hthrow].
    destruct (buildTestSuite_loop [a] [] st) as [[l|e] st1]; cbn [fst snd] in *; subst st1.
    + destruct (IH (testActions ++ l) st Hp) as [Hst' Hthrow']. split; [exact Hst'|].
      intros Hex. inversion Hex as [? ? Ha|? ? Hrest]; subst.
      * destruct (Hthrow Ha) as [e He]. discriminate.
      * now apply Hthrow'.
    + split; [reflexivity|]. intros _. now exists e.
Qed.





(** X6. Two suites whose names derive the same file name share one spec
    file.  With the tests directory there and a derived name that fits
    in it, both calls of [createTest] return the same path; after them
    the file holds the second suite, in the template of the suite, and
    the first is lost; the path is listed twice among the spec files
    handed to the runner; nothing else in the file system has changed. *)
Theorem createTest_last_write_wins testName1 testName2 testActions1 testActions2 st :
  specFileName testName1 = specFileName testName2 ->
  FS.isDirectory "./cypress/e2e" (files st) = true ->
  fits (specFileName testName1) = true ->
  FS.isDirectory ("./cypress/e2e/" +:+ specFileName testName1) (files st) = false ->
  let path := "./cypress/e2e/" +:+ specFileName testName1 in
  exists dir st1 st2,
    FS.resolve (files st) "./cypress/e2e" = inr dir /\
    createTest testName1 testActions1 st = (Return path, st1) /\
    createTest testName2 testActions2 st1 = (Return path, st2) /\
    FS.readFile path (files st2)
    = Some (newline +:+ "    describe('" +:+ testName2 +:+ "', () => {" +:+ newline +:+
            "      it('performs UI testing', () => {" +:+ newline +:+
            "        " +:+ join (newline +:+ "        ") testActions2 +:+ newline +:+
            "      })" +:+ newline +:+
            "    })" +:+ newline +:+
            "    ") /\
    specFiles (this st2) = specFiles (this st) ++ [path; path] /\
    FS.cwd (files st2) = FS.cwd (files st) /\
    (forall loc,
        loc <> dir ++ [specFileName testName1] ->
        FS.nodes (files st2) !! loc = FS.nodes (files st) !! loc).
Proof.
  intros Hname Hdir Hfits Hfile path. subst path.
  destruct (createTest_returns testName1 testActions1 st Hdir Hfits Hfile)
    as (dir & Hres & Hnode & Hcreate1).
  set (st1 := snd (createTest testName1 testActions1 st)).
  assert (createTest testName1 testActions1 st
          = (Return ("./cypress/e2e/" +:+ specFileName testName1), st1)) as Hst1
    by (subst st1; now rewrite Hcreate1).
  assert (files st1
          = {| FS.cwd := FS.cwd (files st);
               FS.nodes := <[dir ++ [specFileName testName1]
                             := FS.File (testContent testName1 testActions1)]>
                             (FS.nodes (files st)) |}) as Hfiles1
    by (subst st1; now rewrite Hcreate1).
  destruct (createTest_returns testName2 testActions2 st1) as (dir2 & Hres2 & _ & Hcreate2).
  { rewrite Hfiles1, isDirectory_insert_file; assumption. }
  { now rewrite <- Hname. }
  { rewrite <- Hname, Hfiles1, isDirectory_insert_file; assumption. }
  assert (dir2 = dir) as ->.
  { rewrite Hfiles1 in Hres2. unfold FS.resolve, FS.origin in *. cbn [FS.cwd FS.nodes] in Hres2.
    destruct (bool_decide _); [discriminate|]. destruct (_ <=? _)%nat; [discriminate|].
    rewrite (walk_insert_file _ _ _ _ _ _ Hnode Hres) in Hres2. congruence. }
  assert (FS.readFile ("./cypress/e2e/" +:+ specFileName testName2)
            (files (snd (createTest testName2 testActions2 st1)))
          = Some (testContent testName2 testActions2)) as Hread.
  { rewrite createTest_unfold.
    destruct (FS.writeFileSync _ _ (files st1)) as [[[]|e] fs] eqn:Hwrite.
    - cbn [snd files]. exact (writeFileSync_read _ _ _ _ Hwrite).
    - exfalso. rewrite createTest_unfold, Hwrite in Hcreate2. discriminate. }
  rewrite Hcreate2 in Hread. cbn [snd files] in Hread.
  rewrite <- Hname in Hread, Hcreate2.
  exists dir, st1. eexists. split; [exact Hres|]. split; [exact Hst1|].
  split; [exact Hcreate2|]. cbn [files this specFiles FS.cwd FS.nodes].
  split; [|split; [|split]].
  - exact Hread.
  - subst st1. rewrite Hcreate1. cbn [snd this specFiles]. now rewrite <- app_assoc.
  - now rewrite Hfiles1.
  - intros loc Hne. rewrite Hfiles1. cbn [FS.nodes]. now rewrite !lookup_insert_ne by congruence.
Qed.

Lemma createTest_last_write_wins_witness :
  specFileName "login  page" = specFileName "Login Page" /\
  FS.readFile "./cypress/e2e/login_page.cy.js"
    (files (snd (createTest "Login Page" ["cy.visit('/login')"]
                   (snd (createTest "login  page" ["cy.wait(2)"] fresh)))))
  = Some (testContent "Login Page" ["cy.visit('/login')"]).
Proof.
  split; [reflexivity|].
  destruct (createTest_last_write_wins "login  page" "Login Page" ["cy.wait(2)"]
              ["cy.visit('/login')"] fresh eq_refl eq_refl eq_refl eq_refl)
    as (dir & st1 & st2 & _ & Hcreate1 & Hcreate2 & Hread & _).
  rewrite Hcreate1. cbn [snd]. rewrite Hcreate2. cbn [snd]. exact Hread.
Defined.

End LogAndFiles.

(** ** File names: what they do not tell apart *)

Section FileNames.
Import JS Cypress CypressFiles Spec Notions.

Lemma toLowerCase_app a b : toLowerCase (a +:+ b) = toLowerCase a +:+ toLowerCase b.
Proof.
  induction a as [|c a IH]; [reflexivity|].
  rewrite append_cons. cbn [toLowerCase]. now rewrite IH, append_cons.
Qed.

(** The scan of a text followed by another. *)
Lemma replaceWhitespaceRuns_aux_app r a : forall inRun s,
  replaceWhitespaceRuns_aux inRun r (a +:+ s)
  = replaceWhitespaceRuns_aux inRun r a +:+ replaceWhitespaceRuns_aux (inRunAfter inRun a) r s.
Proof.
  induction a as [|c a IH]; intros inRun s; [reflexivity|].
  rewrite append_cons. cbn [replaceWhitespaceRuns_aux].
  assert (forall b, isWhitespace c = b ->
            inRunAfter inRun (String c a) = inRunAfter b a) as Hafter.
  { intros b <-. destruct a; reflexivity. }
  destruct (isWhitespace c) eqn:Hc.
  - rewrite (Hafter true eq_refl). destruct inRun.
    + apply IH.
    + rewrite IH. now rewrite append_assoc.
  - rewrite (Hafter false eq_refl), IH. now rewrite append_cons.
Qed.

(** A run of whitespace in front of a text, inside a run or not. *)
Lemma replaceWhitespaceRuns_aux_front r ws b inRun :
  Forall (fun c => isWhitespace c = true) (list_ascii_of_string ws) ->
  ws <> EmptyString ->
  replaceWhitespaceRuns_aux inRun r (ws +:+ b)
  = (if inRun then EmptyString else r) +:+ replaceWhitespaceRuns_aux true r b.
Proof.
  intros Hws Hne. destruct inRun.
  - rewrite append_empty. now apply replaceWhitespaceRuns_aux_run.
  - destruct ws as [|c ws]; [congruence|].
    simpl in Hws. inversion Hws as [|? ? Hc Hws']; subst.
    rewrite append_cons. cbn [replaceWhitespaceRuns_aux]. rewrite Hc.
    now rewrite replaceWhitespaceRuns_aux_run.
Qed.

Lemma toLowerCase_replace_toLowerCase s : forall inRun,
  toLowerCase (replaceWhitespaceRuns_aux inRun "_" (toLowerCase s))
  = toLowerCase (replaceWhitespaceRuns_aux inRun "_" s).
Proof.
  induction s as [|c s IH]; intros inRun; [reflexivity|].
  cbn [toLowerCase replaceWhitespaceRuns_aux]. rewrite isWhitespace_toLowerCase_unit.
  destruct (isWhitespace c).
  - destruct inRun; [apply IH|].
    rewrite !append_cons, !append_empty. cbn [toLowerCase]. now rewrite IH.
  - cbn [toLowerCase]. now rewrite toLowerCase_unit_idempotent, IH.
Qed.

(** X7. The file name of a suite does not tell apart names that differ
    in letter case, nor names that differ in the whitespace between two
    parts: any two non-empty runs of whitespace at the same place give
    the same file name. *)
Theorem specFileName_insensitive :
  (forall testName, specFileName (toLowerCase testName) = specFileName testName) /\
  (forall a ws1 ws2 b,
      Forall (fun c => isWhitespace c = true) (list_ascii_of_string ws1) ->
      Forall (fun c => isWhitespace c = true) (list_ascii_of_string ws2) ->
      ws1 <> EmptyString ->
      ws2 <> EmptyString ->
      specFileName (a +:+ ws1 +:+ b) = specFileName (a +:+ ws2 +:+ b)).
Proof.
  split.
  - intros testName. unfold specFileName, replaceWhitespaceRuns.
    now rewrite toLowerCase_replace_toLowerCase.
  - intros a ws1 ws2 b H1 H2 Hne1 Hne2. unfold specFileName, replaceWhitespaceRuns.
    rewrite (replaceWhitespaceRuns_aux_app "_" a false (ws1 +:+ b)).
    rewrite (replaceWhitespaceRuns_aux_app "_" a false (ws2 +:+ b)).
    rewrite (replaceWhitespaceRuns_aux_front "_" ws1 b _ H1 Hne1).
    now rewrite (replaceWhitespaceRuns_aux_front "_" ws2 b _ H2 Hne2).
Qed.

(** Making sure of a directory leaves the agent alone and adds
    directories only. *)
Lemma ensureDir_spec dir st :
  exists c fs,
    ensureDir dir st = (c, {| this := this st; files := fs |}) /\
    grows (files st) fs /\ sameFiles (files st) fs.
Proof.
  unfold ensureDir, bind, get. destruct (negb (existsSync dir st)).
  - unfold mkdirSync, on_files.
    destruct (mkdirSync_grows dir (files st)) as [Hgrows Hsame].
    destruct (FS.mkdirSync dir (files st)) as [c fs]. now exists c, fs.
  - exists (Return tt), (files st). split; [now destruct st|].
    split; [apply grows_refl | apply sameFiles_refl].
Qed.

Lemma bind_get {S A} (k : S -> method S A) s : (x <~ get ;; k x) s = k s s.
Proof. reflexivity. Qed.

(** Making sure of a directory, and then going on. *)
Lemma ensureDir_then {A} dir (k : method state A) st :
  exists (c : completion unit) fs,
    grows (files st) fs /\ sameFiles (files st) fs /\
    (ensureDir dir ;;; k) st
    = match c with
      | Return _ => k {| this := this st; files := fs |}
      | Throw e => (Throw e, {| this := this st; files := fs |})
      end.
Proof.
  destruct (ensureDir_spec dir st) as (c & fs & Heq & Hgrows & Hsame).
  exists c, fs. split; [exact Hgrows|]. split; [exact Hsame|].
  unfold bind. rewrite Heq. now destruct c.
Qed.





(** On a project with nothing in it [initialize] makes the directories
    and writes the configuration; an [outputDir] that names the path of
    the configuration makes a directory there, and no configuration is
    written. *)
Example initialize_examples :
  (let st' := snd (initialize {| this := this fresh; files := emptyProject |}) in
   FS.isDirectory "./cypress/e2e" (files st') = true /\
   FS.isDirectory "./cypress/screenshots" (files st') = true /\
   FS.isDirectory "./cypress/videos" (files st') = true /\
   FS.isDirectory "./cypress/results" (files st') = true /\
   FS.readFile "./cypress.config.js" (files st') = Some (configContent (this fresh))) /\
  (let st' :=
     snd (initialize {| this := constructor (JStr "https://example.com")
                                  (Some "./cypress.config.js");
                        files := emptyProject |}) in
   FS.isDirectory "./cypress.config.js" (files st') = true /\
   FS.readFile "./cypress.config.js" (files st') = None).
Proof. vm_compute. repeat split. Qed.

Lemma npm_then {A} (npm : FS.t -> FS.t) (k : method state A) st :
  (on_files (fun fs => (Return tt, npm fs)) ;;; k) st
  = k {| this := this st; files := npm (files st) |}.
Proof. reflexivity. Qed.

Lemma writeSpec_unfold specFilePath content st :
  writeSpec specFilePath content st
  = match FS.writeFileSync specFilePath content (files st) with
    | (Return _, fs') =>
        (Return specFilePath,
         {| this := {| baseUrl := baseUrl (this st);
                       outputDir := outputDir (this st);
                       testResults := testResults (this st);
                       specFiles := specFiles (this st) ++ [specFilePath] |};
            files := fs' |})
    | (Throw e, fs') => (Throw e, {| this := this st; files := fs' |})
    end.
Proof.
  unfold writeSpec, bind, writeFileSync, on_files.
  now destruct (FS.writeFileSync _ _ (files st)) as [[[]|e] fs'].
Qed.

(** The support file is written only where nothing exists; then it
    exists. *)
Lemma ensureSupportFile_then {A} (k : method state A) st :
  exists (c : completion unit) fs,
    grows (files st) fs /\
    (forall loc content,
        FS.nodes fs !! loc = Some (FS.File content) ->
        FS.nodes (files st) !! loc = Some (FS.File content) \/
        (content = supportContent /\ FS.resolve fs "./cypress/support/e2e.js" = inr loc)) /\
    (ensureSupportFile "./cypress/support" ;;; k) st
    = match c with
      | Return _ => k {| this := this st; files := fs |}
      | Throw e => (Throw e, {| this := this st; files := fs |})
      end /\
    (c = Return tt -> FS.existsSync "./cypress/support/e2e.js" fs = true).
Proof.
  assert ("./cypress/support" +:+ "/e2e.js" = "./cypress/support/e2e.js") as Hpath
    by reflexivity.
  unfold ensureSupportFile. rewrite Hpath. unfold bind at 1. rewrite bind_get.
  unfold existsSync.
  destruct (FS.existsSync "./cypress/support/e2e.js" (files st)) eqn:Hex; cbn [negb].
  - exists (Return tt), (files st). split; [apply grows_refl|]. split; [auto|].
    split; [now destruct st | trivial].
  - unfold writeFileSync, on_files.
    destruct (FS.writeFileSync "./cypress/support/e2e.js" supportContent (files st))
      as [[[]|e] fs] eqn:Hwrite.
    + destruct (writeFileSync_new _ _ _ _ Hex Hwrite) as (sup & Hres & Hnone & Hfs & Hg).
      assert (FS.readFile "./cypress/support/e2e.js" fs = Some supportContent) as Hread
        by exact (writeFileSync_read _ _ _ _ Hwrite).
      exists (Return tt), fs. split; [exact Hg|]. split; [|split; [reflexivity|]].
      * intros loc content Hloc. rewrite Hfs in Hloc. cbn [FS.nodes] in Hloc.
        destruct (decide (loc = sup)) as [->|Hne].
        -- rewrite lookup_insert_eq in Hloc. injection Hloc as <-. right.
           split; [reflexivity|]. exact (resolve_grows _ _ _ _ Hg Hres).
        -- rewrite lookup_insert_ne in Hloc by congruence. now left.
      * intros _. apply (readFile_existsSync "./cypress/support/e2e.js" _ supportContent);
          [reflexivity | exact Hread].
    + rewrite (writeFileSync_Throw _ _ _ _ _ Hwrite).
      exists (Throw e), (files st). split; [apply grows_refl|]. split; [auto|].
      split; [reflexivity | discriminate].
Qed.

(** The run of [generateAccessibilityTest] up to the write of the spec:
    after the command the support directory is made sure of and the
    support file written if there is none; these add directories and at
    most the support file. *)
Lemma generateAccessibilityTest_steps npm testName st :
  exists fs,
    grows (npm (files st)) fs /\
    (forall loc content,
        FS.nodes fs !! loc = Some (FS.File content) ->
        FS.nodes (npm (files st)) !! loc = Some (FS.File content) \/
        (content = supportContent /\ FS.resolve fs "./cypress/support/e2e.js" = inr loc)) /\
    ((exists e,
         generateAccessibilityTest npm testName st
         = (Throw e, {| this := this st; files := fs |})) \/
     (FS.existsSync "./cypress/support/e2e.js" fs = true /\
      generateAccessibilityTest npm testName st
      = match FS.writeFileSync ("./cypress/e2e/" +:+ a11yFileName testName)
                (a11yContent testName) fs with
        | (Return _, fs') =>
            (Return ("./cypress/e2e/" +:+ a11yFileName testName),
             {| this := {| baseUrl := baseUrl (this st);
                           outputDir := outputDir (this st);
                           testResults := testResults (this st);
                           specFiles := specFiles (this st)
                                        ++ ["./cypress/e2e/" +:+ a11yFileName testName] |};
                files := fs' |})
        | (Throw e, fs') => (Throw e, {| this := this st; files := fs' |})
        end)).
Proof.
  unfold generateAccessibilityTest. cbv zeta. rewrite npm_then.
  destruct (ensureDir_then "./cypress/support"
              (ensureSupportFile "./cypress/support" ;;;
               writeSpec ("./cypress/e2e/" +:+ a11yFileName testName) (a11yContent testName))
              {| this := this st; files := npm (files st) |})
    as (c1 & fs1 & Hg1 & Hs1 & ->).
  cbn [this files] in Hg1, Hs1 |- *.
  destruct c1 as [[]|e].
  2:{ exists fs1. split; [exact Hg1|]. split; [|left; now exists e].
      intros loc content Hloc. left. now apply Hs1. }
  destruct (ensureSupportFile_then
              (writeSpec ("./cypress/e2e/" +:+ a11yFileName testName) (a11yContent testName))
              {| this := this st; files := fs1 |})
    as (c2 & fs2 & Hg2 & Hnew2 & -> & Hex).
  cbn [this files] in Hg2, Hnew2 |- *.
  exists fs2. split; [exact (grows_trans _ _ _ Hg1 Hg2)|]. split.
  { intros loc content Hloc. destruct (Hnew2 _ _ Hloc) as [Hold|Hsup]; [|now right].
    left. now apply Hs1. }
  destruct c2 as [[]|e]; [|left; now exists e].
  right. split; [now apply Hex|]. now rewrite writeSpec_unfold.
Qed.

(** The spec of an accessibility test and the support file are two
    files. *)
Lemma resolve_walk fs path loc :
  FS.resolve fs path = inr loc ->
  FS.walk (FS.nodes fs) (FS.origin fs path) (split "/" path) = inr loc.
Proof.
  unfold FS.resolve. destruct (bool_decide _); [discriminate|].
  now destruct (_ <=? _)%nat.
Qed.

Lemma split_support :
  split "/" "./cypress/support/e2e.js" = ["."; "cypress"; "support"] ++ ["e2e.js"].
Proof. reflexivity. Qed.

Lemma a11y_not_support fs fs' testName spec sup :
  FS.resolve fs ("./cypress/e2e/" +:+ a11yFileName testName) = inr spec ->
  FS.resolve fs' "./cypress/support/e2e.js" = inr sup ->
  spec <> sup.
Proof.
  unfold a11yFileName. rewrite <- append_assoc. intros Hspec Hsup.
  assert (lacks "/" "_a11y.cy.js" = true) as Hsuffix by reflexivity.
  assert (3 <= String.length "_a11y.cy.js")%nat as Hlen by (simpl; lia).
  destruct (resolve_last _ _ _ _ Hsuffix Hlen Hspec) as (parent & piece & ->).
  apply resolve_walk in Hsup. rewrite split_support in Hsup.
  apply walk_last in Hsup as [parent' ->]; [|discriminate..].
  intros Heq. apply app_inj_tail in Heq as [_ Heq].
  apply (f_equal String.length) in Heq. rewrite length_append in Heq.
  simpl in Heq. lia.
Qed.

(** X8. When [generateAccessibilityTest] returns, it returns the path of
    the accessibility spec, [./cypress/e2e/] followed by the lower-cased
    name with underscores for whitespace and [_a11y.cy.js]; the spec is
    the content of the file at that path and the path is listed last
    among the spec files; the support file exists, and one that the
    command left there is kept as it is.  Of what the command left
    nothing is removed or changed but a file in the place of the spec;
    the only files that can be new are the spec and the support file.
    When it throws, nothing that the command left is removed or changed.
    The other fields of the agent are never changed. *)
Theorem generateAccessibilityTest_effects npm testName st :
  let path := "./cypress/e2e/" +:+ toLowerCase (replaceWhitespaceRuns "_" testName)
                +:+ "_a11y.cy.js" in
  match generateAccessibilityTest npm testName st with
  | (Return result, st') =>
      result = path /\
      FS.readFile path (files st')
      = Some (newline +:+
              "    describe('" +:+ testName +:+ " Accessibility', () => {" +:+ newline +:+
              "      it('checks accessibility', () => {" +:+ newline +:+
              "        cy.visit('/');" +:+ newline +:+
              "        cy.injectAxe();" +:+ newline +:+
              "        cy.checkA11y();" +:+ newline +:+
              "      })" +:+ newline +:+
              "    })" +:+ newline +:+
              "    ") /\
      FS.existsSync "./cypress/support/e2e.js" (files st') = true /\
      (forall old,
          FS.readFile "./cypress/support/e2e.js" (npm (files st)) = Some old ->
          FS.readFile "./cypress/support/e2e.js" (files st') = Some old) /\
      specFiles (this st') = specFiles (this st) ++ [path] /\
      baseUrl (this st') = baseUrl (this st) /\
      outputDir (this st') = outputDir (this st) /\
      testResults (this st') = testResults (this st) /\
      FS.cwd (files st') = FS.cwd (npm (files st)) /\
      exists spec,
        FS.resolve (files st') path = inr spec /\
        (forall loc n,
            loc <> spec ->
            FS.nodes (npm (files st)) !! loc = Some n ->
            FS.nodes (files st') !! loc = Some n) /\
        (forall loc content,
            FS.nodes (files st') !! loc = Some (FS.File content) ->
            FS.nodes (npm (files st)) !! loc = Some (FS.File content) \/
            loc = spec \/
            (content = supportContent /\
             FS.resolve (files st') "./cypress/support/e2e.js" = inr loc))
  | (Throw e, st') =>
      this st' = this st /\
      FS.cwd (files st') = FS.cwd (npm (files st)) /\
      (forall loc n,
          FS.nodes (npm (files st)) !! loc = Some n -> FS.nodes (files st') !! loc = Some n)
  end.
Proof.
  intros path. subst path. fold (a11yFileName testName).
  destruct (generateAccessibilityTest_steps npm testName st)
    as (fs & Hgrows & Hnew & [[e ->]|[Hex ->]]).
  { cbn [this files]. split; [reflexivity|]. split; [exact (proj1 Hgrows)|].
    intros loc n Hloc. exact (lookup_weaken _ _ _ _ Hloc (proj2 Hgrows)). }
  destruct (FS.writeFileSync _ _ fs) as [[[]|e] fs'] eqn:Hwrite.
  2:{ rewrite (writeFileSync_Throw _ _ _ _ _ Hwrite). cbn [this files].
      split; [reflexivity|]. split; [exact (proj1 Hgrows)|].
      intros loc n Hloc. exact (lookup_weaken _ _ _ _ Hloc (proj2 Hgrows)). }
  destruct (writeFileSync_Return _ _ _ _ Hwrite) as (spec & Hres & Hnode & Hfs').
  cbn [this files baseUrl outputDir testResults specFiles].
  split; [reflexivity|]. split; [exact (writeFileSync_read _ _ _ _ Hwrite)|].
  split; [rewrite Hfs'; now apply existsSync_insert_file|].
  assert (FS.resolve fs' ("./cypress/e2e/" +:+ a11yFileName testName) = inr spec) as Hres'
    by (rewrite Hfs'; now apply resolve_insert_file).
  split.
  { intros old Hold. pose proof (readFile_grows _ _ _ _ Hgrows Hold) as Hold'.
    rewrite Hfs'. unfold FS.readFile in Hold'.
    destruct (FS.resolve fs "./cypress/support/e2e.js") as [e|sup] eqn:Hsup; [discriminate|].
    apply (readFile_insert_other _ _ _ _ sup); try assumption.
    - intros Heq. exact (a11y_not_support _ _ _ _ _ Hres Hsup (eq_sym Heq)).
    - unfold FS.readFile. now rewrite Hsup. }
  repeat (split; [reflexivity|]).
  split; [rewrite Hfs'; exact (proj1 Hgrows)|].
  exists spec. split; [exact Hres'|]. split.
  - intros loc n Hne Hloc. rewrite Hfs'. cbn [FS.nodes].
    rewrite lookup_insert_ne by congruence. exact (lookup_weaken _ _ _ _ Hloc (proj2 Hgrows)).
  - intros loc content Hloc. rewrite Hfs' in Hloc. cbn [FS.nodes] in Hloc.
    destruct (decide (loc = spec)) as [->|Hne]; [right; now left|].
    rewrite lookup_insert_ne in Hloc by congruence.
    destruct (Hnew _ _ Hloc) as [Hold|[-> Hsup]]; [now left|].
    right. right. split; [reflexivity|].
    rewrite Hfs'. now apply resolve_insert_file.
Qed.

Lemma generateAccessibilityTest_effects_witness :
  FS.readFile "./cypress/support/e2e.js"
    (files (snd (generateAccessibilityTest
                   (fun fs => snd (FS.writeFileSync "./package.json" "{}" fs))
                   "Login Page"
                   (snd (generateAccessibilityTest (fun fs => fs) "Home" fresh)))))
  = Some supportContent.
Proof.
  pose proof (generateAccessibilityTest_effects
                (fun fs => snd (FS.writeFileSync "./package.json" "{}" fs)) "Login Page"
                (snd (generateAccessibilityTest (fun fs => fs) "Home" fresh))) as Heffects.
  destruct (generateAccessibilityTest _ "Login Page" _) as [[result|e] st'] eqn:Hrun.
  - destruct Heffects as (_ & _ & _ & Hkept & _). apply Hkept. vm_compute. reflexivity.
  - vm_compute in Hrun. discriminate Hrun.
Defined.

(** X9. The accessibility spec of a name that does not end in whitespace
    has the file name of the suite called that name followed by a11y, so
    [generateAccessibilityTest] and [createTest] write the same file:
    when both return, they return the same path and the file holds what
    the one called later wrote, the suite in place of the accessibility
    spec or the accessibility spec in place of the suite. *)
Theorem generateAccessibilityTest_collides npm testName testActions st :
  endsInWhitespace testName = false ->
  a11yFileName testName = specFileName (testName +:+ " a11y") /\
  (forall path1 st1 path2 st2,
      generateAccessibilityTest npm testName st = (Return path1, st1) ->
      createTest (testName +:+ " a11y") testActions st1 = (Return path2, st2) ->
      path2 = path1 /\
      FS.readFile path1 (files st2)
      = Some (newline +:+ "    describe('" +:+ (testName +:+ " a11y") +:+ "', () => {"
                +:+ newline +:+
              "      it('performs UI testing', () => {" +:+ newline +:+
              "        " +:+ join (newline +:+ "        ") testActions +:+ newline +:+
              "      })" +:+ newline +:+
              "    })" +:+ newline +:+
              "    ")) /\
  (forall path1 st1 path2 st2,
      createTest (testName +:+ " a11y") testActions st = (Return path1, st1) ->
      generateAccessibilityTest npm testName st1 = (Return path2, st2) ->
      path2 = path1 /\
      FS.readFile path1 (files st2)
      = Some (newline +:+
              "    describe('" +:+ testName +:+ " Accessibility', () => {" +:+ newline +:+
              "      it('checks accessibility', () => {" +:+ newline +:+
              "        cy.visit('/');" +:+ newline +:+
              "        cy.injectAxe();" +:+ newline +:+
              "        cy.checkA11y();" +:+ newline +:+
              "      })" +:+ newline +:+
              "    })" +:+ newline +:+
              "    ")).
Proof.
  intros Hend.
  assert (a11yFileName testName = specFileName (testName +:+ " a11y")) as Hname.
  { unfold a11yFileName, specFileName, replaceWhitespaceRuns.
    rewrite replaceWhitespaceRuns_aux_app.
    assert (inRunAfter false testName = false) as ->
      by (destruct testName; [reflexivity | exact Hend]).
    rewrite toLowerCase_app, append_assoc. reflexivity. }
  assert (forall st0 path0 st0',
             generateAccessibilityTest npm testName st0 = (Return path0, st0') ->
             path0 = "./cypress/e2e/" +:+ a11yFileName testName /\
             FS.readFile path0 (files st0') = Some (a11yContent testName)) as Ha11y.
  { intros st0 path0 st0' Hrun.
    destruct (generateAccessibilityTest_steps npm testName st0)
      as (fs & _ & _ & [[e Heq]|[_ Heq]]); rewrite Heq in Hrun; [discriminate|].
    destruct (FS.writeFileSync _ _ fs) as [[[]|e] fs'] eqn:Hwrite; [|discriminate].
    injection Hrun as <- <-. split; [reflexivity|]. cbn [files].
    exact (writeFileSync_read _ _ _ _ Hwrite). }
  assert (forall st0 path0 st0',
             createTest (testName +:+ " a11y") testActions st0 = (Return path0, st0') ->
             path0 = "./cypress/e2e/" +:+ a11yFileName testName /\
             FS.readFile path0 (files st0')
             = Some (testContent (testName +:+ " a11y") testActions)) as Hsuite.
  { intros st0 path0 st0' Hrun. rewrite createTest_unfold in Hrun.
    destruct (FS.writeFileSync _ _ (files st0)) as [[[]|e] fs'] eqn:Hwrite; [|discriminate].
    injection Hrun as <- <-. rewrite Hname. split; [reflexivity|]. cbn [files].
    exact (writeFileSync_read _ _ _ _ Hwrite). }
  split; [exact Hname|]. split.
  - intros path1 st1 path2 st2 H1 H2.
    destruct (Ha11y _ _ _ H1) as [-> _]. destruct (Hsuite _ _ _ H2) as [-> Hread].
    split; [reflexivity | exact Hread].
  - intros path1 st1 path2 st2 H1 H2.
    destruct (Hsuite _ _ _ H1) as [-> _]. destruct (Ha11y _ _ _ H2) as [-> Hread].
    split; [reflexivity | exact Hread].
Qed.

Lemma generateAccessibilityTest_collides_witness :
  FS.readFile "./cypress/e2e/login_a11y.cy.js"
    (files (snd (createTest "Login a11y" ["cy.visit('/login')"]
                   (snd (generateAccessibilityTest (fun fs => fs) "Login" fresh)))))
  = Some (testContent "Login a11y" ["cy.visit('/login')"]).
Proof.
  destruct (generateAccessibilityTest_collides (fun fs => fs) "Login" ["cy.visit('/login')"]
              fresh eq_refl) as (_ & Hover & _).
  apply (Hover "./cypress/e2e/login_a11y.cy.js"
           (snd (generateAccessibilityTest (fun fs => fs) "Login" fresh))
           "./cypress/e2e/login_a11y.cy.js").
  - vm_compute. reflexivity.
  - vm_compute. reflexivity.
Defined.

End FileNames.

(** ** The artifact lists of the report of the fluent builder *)

Section Artifacts.
Import JS Cypress CypressReport Notions.

Lemma join_empty_cons x l : join EmptyString (x :: l) = x +:+ join EmptyString l.
Proof. destruct l; cbn [join]; [now rewrite append_empty_r | reflexivity]. Qed.

Lemma join_empty_app l1 l2 :
  join EmptyString (l1 ++ l2) = join EmptyString l1 +:+ join EmptyString l2.
Proof.
  induction l1 as [|x l1 IH]; [reflexivity|].
  rewrite <- app_comm_cons, !join_empty_cons, IH. now rewrite append_assoc.
Qed.

Lemma lacks_substring c s : forall n m,
  lacks c s = true -> lacks c (String.substring n m s) = true.
Proof.
  induction s as [|x s IH]; intros n m Hs.
  - now destruct n, m.
  - rewrite lacks_cons, andb_true_iff in Hs. destruct Hs as [Hx Hs].
    destruct n as [|n]; destruct m as [|m]; cbn [String.substring]; try reflexivity.
    + rewrite lacks_cons, Hx. now apply IH.
    + now apply IH.
    + now apply IH.
Qed.

(** The base name of a path holds no slash. *)
Lemma basename_lacks_slash p ext : lacks "/" (Generator.basename p ext) = true.
Proof.
  unfold Generator.basename. case_bool_decide; [reflexivity|].
  assert (lacks "/" (List.last
            (List.filter (fun c => negb (bool_decide (c = EmptyString))) (split "/" p))
            EmptyString) = true) as Hlast.
  { pose proof (split_pieces_lack "/" p) as Hall.
    induction (split "/" p) as [|piece rest IH]; [reflexivity|].
    inversion Hall as [|? ? Hp Hr]; subst. cbn [List.filter].
    destruct (negb (bool_decide (piece = EmptyString))); [|now apply IH].
    specialize (IH Hr). cbn [List.last].
    destruct (List.filter _ rest); [exact Hp | exact IH]. }
  destruct (_ && _); [now apply lacks_substring | exact Hlast].
Qed.

Lemma videoItem_none r : hasVideo r = false -> videoItem r = EmptyString.
Proof.
  unfold hasVideo, videoItem. destruct (video r) as [v|]; [|reflexivity].
  cbn [ToBoolean]. now intros ->.
Qed.

(** X11. The list of videos of the report is, in the order of the runs,
    one item for each run that has a video and nothing at all for a run
    without one (no video property, or an empty path); the item of a run
    links to the base name of its video path under [./videos/], a name
    without any slash, and shows the name of its spec. *)
Theorem videoList_omits_missing :
  (forall runs,
      videoList runs
      = join EmptyString
          (map (fun r =>
                  "<li><a href="
                    +:+ quoted ("./videos/" +:+ Path.basename (default EmptyString (video r)))
                    +:+ ">" +:+ spec_name r +:+ " Video</a></li>")
               (List.filter hasVideo runs))) /\
  (forall r, hasVideo r = false -> videoItem r = EmptyString) /\
  (forall v, lacks "/" (Path.basename v) = true).
Proof.
  split; [|split].
  - intros runs. unfold videoList. induction runs as [|r runs IH]; [reflexivity|].
    cbn [map List.filter]. rewrite join_empty_cons, IH.
    destruct (hasVideo r) eqn:Hr.
    + cbn [map]. rewrite join_empty_cons. f_equal.
      unfold hasVideo in Hr. unfold videoItem.
      destruct (video r) as [v|]; [|discriminate].
      unfold default. cbn [ToBoolean ToString from_option id]. now rewrite Hr.
    + now rewrite (videoItem_none r Hr).
  - exact videoItem_none.
  - intros v. apply basename_lacks_slash.
Qed.

(** X12. The list of screenshots of the report has one item per
    screenshot of every run, in the order of the runs and of their
    screenshots; a run without screenshots adds nothing.  The link of an
    item is the base name of the screenshot path, a name without any
    slash. *)
Theorem screenshotList_flat :
  (forall runs,
      screenshotList runs
      = join EmptyString (map screenshotItem (flat_map screenshots runs))) /\
  (forall name path,
      screenshotItem (name, path)
      = "<li><a href=" +:+ quoted ("./screenshots/" +:+ Path.basename path) +:+ ">" +:+ name
          +:+ "</a></li>" /\
      lacks "/" (Path.basename path) = true).
Proof.
  split.
  - intros runs. unfold screenshotList. induction runs as [|r runs IH]; [reflexivity|].
    cbn [map flat_map]. rewrite join_empty_cons, IH, map_app, join_empty_app. f_equal.
    unfold screenshotItems. now destruct (screenshots r).
  - intros name path. split; [reflexivity | apply basename_lacks_slash].
Qed.

End Artifacts.

(** ** The direct driver: table of the report, navigation and forms *)

Section DriverReport.
Import JS Playwright PlaywrightDriver Spec Notions.

Lemma passedTests_le results : (passedTests results <= totalTests results)%N.
Proof.
  unfold passedTests, totalTests.
  assert (length (List.filter passed results) <= length results)%nat as Hle; [|lia].
  induction results as [|t results IH]; [reflexivity|].
  cbn [List.filter]. destruct (passed t); simpl; lia.
Qed.

Lemma rowClass_failed t : bool_decide (rowClass t = "test-failed") = negb (passed t).
Proof. unfold rowClass. now destruct (passed t). Qed.

(** X13. In the report of the direct driver the counts agree: the passed
    entries are at most the total, passed and failed add up to the
    total, and the Failed count of the summary is the number of rows
    of the table that are marked [test-failed]. *)
Theorem report_counts_agree results :
  (passedTests results <= totalTests results)%N /\
  (passedTests results + (totalTests results - passedTests results) = totalTests results)%N /\
  (totalTests results - passedTests results)%N
  = N.of_nat (length (List.filter (fun t => bool_decide (rowClass t = "test-failed")) results)).
Proof.
  pose proof (passedTests_le results) as Hle.
  split; [exact Hle|]. split; [lia|].
  assert (totalTests results
          = (passedTests results
             + N.of_nat (length (List.filter
                                   (fun t => bool_decide (rowClass t = "test-failed")) results)))%N)
    as Htotal; [|lia].
  unfold passedTests, totalTests. rewrite <- Nat2N.inj_add. f_equal.
  clear Hle. induction results as [|t results IH]; [reflexivity|].
  cbn [List.filter length]. rewrite rowClass_failed.
  destruct (passed t); cbn [negb length]; lia.
Qed.

(** The table of a list of results followed by another. *)
Lemma rows_app results1 results2 : rows (results1 ++ results2) = rows results1 +:+ rows results2.
Proof. unfold rows. now rewrite map_app, join_empty_app. Qed.

End DriverReport.

Section DriverRows.
Import JS Playwright PlaywrightDriver Spec Notions.
Context {W : Type} `{Page W}.

(** X14. When the wait for the element throws, the row that the report
    shows for the recorded entry is a failed one: it is marked
    [test-failed], its status reads FAIL and its Actual cell shows the
    message of the error, or N/A when the message is empty. *)
Theorem testElement_error_row selector kind expectedValue (st : @state W) e w :
  waitForSelector selector (page st) = (Throw e, w) ->
  exists entry st',
    testElement selector kind expectedValue st = (Return false, st') /\
    recorded st st' entry /\
    rowClass entry = "test-failed" /\
    statusCell entry = "FAIL" /\
    actualCell entry
    = (if bool_decide (message e = EmptyString) then "N/A" else message e).
Proof.
  intros Hw.
  destruct (testElement_catches selector kind expectedValue st e _
              (testElement_try_wait_throws selector kind expectedValue st e w Hw))
    as (entry & st' & Hcall & Hrec & Hpassed & Herror & Hactual).
  exists entry, st'. split; [exact Hcall|]. split; [exact Hrec|].
  unfold rowClass, statusCell, actualCell. rewrite Hpassed, Herror, Hactual.
  repeat split. cbn [optional orElse ToBoolean].
  unfold orElse at 1. cbn [ToBoolean].
  case_bool_decide as Hm; [rewrite Hm|]; reflexivity.
Qed.

(** X15. An attribute assertion with the expected value name=value reads
    the attribute called name and compares it with the value up to its
    first [=]: it passes exactly when the attribute is that text.  So an
    attribute whose value holds a [=] fails the assertion that expects
    exactly this value. *)
Theorem testElement_attribute_verdict selector name val (st : @state W) w1 attr w2 :
  lacks "=" name = true ->
  waitForSelector selector (page st) = (Return tt, w1) ->
  getAttribute selector name w1 = (Return attr, w2) ->
  fst (testElement selector "attribute" (JStr (name +:+ "=" +:+ val)) st)
  = Return (bool_decide (attr = Some (upTo "=" val))) /\
  (lacks "=" val = true -> upTo "=" val = val) /\
  (lacks "=" val = false -> attr = Some val ->
   fst (testElement selector "attribute" (JStr (name +:+ "=" +:+ val)) st) = Return false).
Proof.
  intros Hn Hw Hattr.
  assert (fst (testElement selector "attribute" (JStr (name +:+ "=" +:+ val)) st)
          = Return (bool_decide (attr = Some (upTo "=" val)))) as Hverdict.
  { destruct (split_expected_pair name val Hn) as [more Hs].
    unfold testElement, try_catch, testElement_try, bind at 1.
    rewrite (on_page_Return _ _ _ _ Hw). unfold bind at 1, switch_testType.
    repeat (case_decide; [discriminate|]). case_decide; [|congruence].
    unfold bind at 1, lift. rewrite Hs. cbn [element lookup list_lookup ToString].
    unfold bind at 1.
    rewrite (on_page_Return _ {| this := this st; page := w1 |} attr w2 Hattr).
    unfold bind, push_testResults, ret. cbn [fst snd]. f_equal.
    unfold strict_equal. destruct attr as [s|]; cbn [string_or_null].
    - apply bool_decide_ext. split; intros Heq; congruence.
    - apply bool_decide_ext. split; intros Heq; discriminate. }
  split; [exact Hverdict|]. split; [apply upTo_id|].
  intros Hval ->. rewrite Hverdict. f_equal. apply bool_decide_eq_false.
  intros Heq. injection Heq as Heq.
  pose proof (upTo_lacks "=" val) as Hup. rewrite <- Heq in Hup. congruence.
Qed.

End DriverRows.

Section DriverRowsExamples.
Import JS Playwright PlaywrightDriver Spec Notions.

Lemma testElement_error_row_witness :
  exists entry st',
    testElement "h2" "exists" JUndefined examplePage = (Return false, st') /\
    recorded examplePage st' entry /\
    rowClass entry = "test-failed" /\
    statusCell entry = "FAIL" /\
    actualCell entry = "Timeout 5000ms exceeded.".
Proof.
  apply (testElement_error_row "h2" "exists" JUndefined examplePage
           (Error "Timeout 5000ms exceeded.") (page examplePage)).
  reflexivity.
Defined.

Lemma testElement_attribute_verdict_witness :
  fst (testElement "h1" "attribute" (JStr "href=/search?q=1") examplePage)
  = Return (bool_decide ((None : option string) = Some "/search?q")).
Proof.
  destruct (testElement_attribute_verdict "h1" "href" "/search?q=1" examplePage
              (page examplePage) None (page examplePage)) as [Hverdict _];
    [reflexivity | reflexivity | reflexivity |].
  exact Hverdict.
Defined.

End DriverRowsExamples.

Section DriverNavigation.
Import JS Playwright PlaywrightDriver Spec Notions.
Context {W : Type} `{Browser W}.

Lemma startsWith_append s p t : startsWith s p = true -> startsWith (s +:+ t) p = true.
Proof.
  unfold startsWith. rewrite !prefix_spec. intros [b ->]. exists (b +:+ t).
  now rewrite append_assoc.
Qed.

(** X16. [navigateTo] asks the page for the url itself when it starts
    with http and for the base url followed by the url otherwise (a
    relative path that starts with the letters http is taken for an
    address); when the base url starts with http, so does every address
    asked for.  The address of an address is itself. *)
Theorem navigateTo_address a url :
  (forall st : @state W,
      navigateTo url st = on_page (goto (fullUrl (this st) url)) st) /\
  (startsWith url "http" = true -> fullUrl a url = url) /\
  (startsWith url "http" = false -> fullUrl a url = ToString (baseUrl a) +:+ url) /\
  (startsWith (ToString (baseUrl a)) "http" = true ->
   startsWith (fullUrl a url) "http" = true /\
   fullUrl a (fullUrl a url) = fullUrl a url).
Proof.
  split; [reflexivity|]. unfold fullUrl. split; [|split].
  - now intros ->.
  - now intros ->.
  - intros Hbase.
    assert (startsWith (if startsWith url "http" then url else ToString (baseUrl a) +:+ url)
                       "http" = true) as Hhttp.
    { destruct (startsWith url "http") eqn:Hurl; [exact Hurl|].
      now apply startsWith_append. }
    split; [exact Hhttp|]. now rewrite Hhttp.
Qed.



End DriverNavigation.

(** ** Paths: joining plain names and taking the base name back *)

Section Paths.
Import JS Notions.

Lemma plainSegment_spec s :
  plainSegment s = true ->
  lacks "/" s = true /\ s <> EmptyString /\ s <> "." /\ s <> "..".
Proof.
  unfold plainSegment. rewrite !andb_true_iff, !negb_true_iff.
  intros [[[Hl H0] H1] H2].
  apply bool_decide_eq_false in H0, H1, H2. auto.
Qed.

(** [endsWith] for one code unit looks at the last code unit. *)
Lemma endsWith_unit c s : endsWith s (String c EmptyString) = lastIs c s.
Proof.
  induction s as [|x s IH]; [reflexivity|].
  destruct s as [|y s].
  - unfold endsWith. cbn. destruct (Ascii.eqb_spec x c) as [->|Hne].
    + now rewrite bool_decide_true.
    + rewrite bool_decide_false; [reflexivity | congruence].
  - change (lastIs c (String x (String y s))) with (lastIs c (String y s)).
    rewrite <- IH. unfold endsWith. cbn [String.length Nat.leb].
    replace (S (S (String.length s)) - 1)%nat with (S (String.length s)) by lia.
    replace (S (String.length s) - 1)%nat with (String.length s) by lia.
    reflexivity.
Qed.

Lemma lastIs_append c a s : s <> EmptyString -> lastIs c (a +:+ s) = lastIs c s.
Proof.
  intros Hs. induction a as [|x a IH]; [reflexivity|].
  rewrite append_cons. cbn [lastIs]. rewrite IH.
  destruct (a +:+ s) eqn:E; [|reflexivity].
  destruct a; [rewrite append_empty in E; congruence | discriminate].
Qed.

Lemma lastIs_lacks c s : lacks c s = true -> lastIs c s = false.
Proof.
  induction s as [|x s IH]; [reflexivity|].
  rewrite lacks_cons, andb_true_iff, negb_true_iff. intros [Hx Hs].
  cbn [lastIs]. destruct s; [exact Hx | now apply IH].
Qed.

Lemma lastIs_unit_append c a : lastIs c (a +:+ String c EmptyString) = true.
Proof.
  rewrite lastIs_append by discriminate. cbn. apply Ascii.eqb_refl.
Qed.

Lemma join_snoc sep l s :
  join sep (l ++ [s]) = match l with [] => s | _ => join sep l +:+ sep +:+ s end.
Proof.
  induction l as [|x l IH]; [reflexivity|].
  destruct l as [|y l]; [reflexivity|].
  change ((x :: y :: l) ++ [s]) with (x :: ((y :: l) ++ [s])).
  change (join sep (x :: (y :: l) ++ [s]))
    with (x +:+ sep +:+ join sep ((y :: l) ++ [s])).
  rewrite IH. change (join sep (x :: y :: l)) with (x +:+ sep +:+ join sep (y :: l)).
  now rewrite !append_assoc.
Qed.

(** The pieces of joined paths followed by plain names. *)
Lemma split_join_snoc l s :
  split "/" (join "/" (l ++ [s]))
  = match l with [] => [] | _ => split "/" (join "/" l) end ++ split "/" s.
Proof.
  rewrite join_snoc. destruct l as [|x l]; [reflexivity|].
  change (join "/" (x :: l) +:+ "/" +:+ s) with (join "/" (x :: l) +:+ String "/"%char s).
  apply split_app.
Qed.

Lemma split_join_plain segs : forall l,
  Forall (fun s => plainSegment s = true) segs ->
  match l ++ segs with [] => [] | _ => split "/" (join "/" (l ++ segs)) end
  = match l with [] => [] | _ => split "/" (join "/" l) end ++ segs.
Proof.
  induction segs as [|s segs IH]; intros l Hall.
  - now rewrite !app_nil_r.
  - inversion Hall as [|? ? Hs Hrest]; subst.
    destruct (plainSegment_spec s Hs) as (Hl & _).
    change (l ++ s :: segs) with (l ++ [s] ++ segs). rewrite app_assoc.
    rewrite (IH (l ++ [s]) Hrest).
    assert (l ++ [s] <> []) as Hne by (destruct l; discriminate).
    destruct (l ++ [s]) as [|y l'] eqn:E; [congruence|]. rewrite <- E.
    rewrite split_join_snoc, (split_lacks _ _ Hl), <- app_assoc. reflexivity.
Qed.

(** Plain names are kept, in order. *)
Lemma normalizeStep_plain allowAboveRoot segs : forall kept,
  Forall (fun s => plainSegment s = true) segs ->
  fold_left (Path.normalizeStep allowAboveRoot) segs kept = rev segs ++ kept.
Proof.
  induction segs as [|s segs IH]; intros kept Hall; [reflexivity|].
  inversion Hall as [|? ? Hs Hrest]; subst.
  destruct (plainSegment_spec s Hs) as (_ & H0 & H1 & H2).
  cbn [fold_left rev]. rewrite (IH _ Hrest), <- app_assoc. f_equal.
  unfold Path.normalizeStep. now rewrite !bool_decide_false by assumption.
Qed.

Lemma join_app_sep sep segs : forall l,
  segs <> [] ->
  join sep (l ++ segs)
  = match l with [] => EmptyString | _ => join sep l +:+ sep end +:+ join sep segs.
Proof.
  induction segs as [|s segs IH] using rev_ind; intros l Hne; [congruence|].
  rewrite app_assoc, !join_snoc.
  destruct segs as [|s' segs].
  - rewrite app_nil_r. destruct l; [reflexivity | now rewrite append_assoc].
  - rewrite (IH l) by discriminate.
    destruct (l ++ s' :: segs) eqn:E; [destruct l; discriminate|].
    now rewrite !append_assoc.
Qed.

(** Joined plain names are not empty and do not end in a slash. *)
Lemma join_plain_last segs :
  segs <> [] ->
  Forall (fun s => plainSegment s = true) segs ->
  join "/" segs <> EmptyString /\ forall a, lastIs "/" (a +:+ join "/" segs) = false.
Proof.
  intros Hne Hall. destruct (exists_last Hne) as (init & s & ->).
  apply Forall_app in Hall as [_ Hs]. inversion Hs as [|? ? Hplain _]; subst.
  destruct (plainSegment_spec s Hplain) as (Hl & H0 & _).
  rewrite join_snoc.
  assert (forall x, lastIs "/" (x +:+ s) = false) as Hlast.
  { intros x. rewrite lastIs_append by assumption. now apply lastIs_lacks. }
  destruct init as [|y init].
  - split; [assumption | exact Hlast].
  - split.
    + intros Heq. apply append_eq_empty in Heq as [_ Heq].
      apply append_eq_empty in Heq as [_ Heq]. congruence.
    + intros a. rewrite <- !append_assoc. apply Hlast.
Qed.

(** Joining paths and then plain names: the plain names are the last
    segments of the result, after a directory part that is empty or ends
    in a slash. *)
Lemma join_plain paths segs :
  segs <> [] ->
  Forall (fun s => plainSegment s = true) segs ->
  exists dir,
    Path.join (paths ++ segs) = dir +:+ join "/" segs /\
    (dir = EmptyString \/ exists d, dir = d +:+ "/").
Proof.
  intros Hne Hall. unfold Path.join.
  set (nonEmpty := fun arg : string => negb (bool_decide (arg = EmptyString))).
  rewrite List.filter_app.
  assert (List.filter nonEmpty segs = segs) as ->.
  { clear Hne. induction Hall as [|s segs Hs Hrest IH]; [reflexivity|].
    destruct (plainSegment_spec s Hs) as (_ & H0 & _).
    cbn [List.filter]. unfold nonEmpty at 1. rewrite bool_decide_false by assumption.
    cbn [negb]. now rewrite IH. }
  set (l := List.filter nonEmpty paths).
  pose proof (split_join_plain segs l Hall) as Hsplit.
  pose proof (join_app_sep "/" segs l Hne) as Hjoin.
  destruct (join_plain_last segs Hne Hall) as [Hnonempty Hlast].
  destruct (l ++ segs) as [|x rest] eqn:E; [apply app_eq_nil in E as [_ E]; congruence|].
  rewrite <- E in *. clear x rest E.
  unfold Path.normalize.
  assert (join "/" (l ++ segs) <> EmptyString) as Hj.
  { rewrite Hjoin. intros Heq. apply append_eq_empty in Heq as [_ Heq]. congruence. }
  rewrite bool_decide_false by exact Hj.
  assert (endsWith (join "/" (l ++ segs)) "/" = false) as ->.
  { rewrite endsWith_unit, Hjoin. apply Hlast. }
  unfold Path.normalizeString. rewrite Hsplit, fold_left_app.
  rewrite (normalizeStep_plain _ segs _ Hall), rev_app_distr, rev_involutive.
  rewrite (join_app_sep "/" segs _ Hne).
  set (kept := rev (fold_left _ _ [])).
  rewrite bool_decide_false.
  2:{ intros Heq. apply append_eq_empty in Heq as [_ Heq]. congruence. }
  rewrite append_empty_r.
  destruct (startsWith _ "/"); destruct kept as [|k kept'].
  - exists "/". split; [reflexivity|]. right. now exists EmptyString.
  - exists ("/" +:+ join "/" (k :: kept') +:+ "/"). split; [now rewrite !append_assoc|].
    right. exists ("/" +:+ join "/" (k :: kept')). now rewrite !append_assoc.
  - exists EmptyString. split; [reflexivity | now left].
  - exists (join "/" (k :: kept') +:+ "/"). split; [now rewrite !append_assoc|].
    right. now exists (join "/" (k :: kept')).
Qed.

Lemma substring_none s : forall n, String.substring n 0 s = EmptyString.
Proof. induction s as [|x s IH]; intros [|n]; cbn; auto. Qed.

Lemma substring_prefix a p : String.substring 0 (String.length a) (a +:+ p) = a.
Proof.
  induction a as [|x a IH]; [apply substring_none|].
  rewrite append_cons. cbn. now rewrite IH.
Qed.

Lemma substring_full s : String.substring 0 (String.length s) s = s.
Proof. rewrite <- (append_empty_r s) at 2. apply substring_prefix. Qed.

Lemma substring_skip a p m :
  String.substring (String.length a) m (a +:+ p) = String.substring 0 m p.
Proof. induction a as [|x a IH]; [reflexivity|]. rewrite append_cons. cbn. exact IH. Qed.

(** A text ends with what was appended to it, and taking that off gives
    the text back. *)
Lemma endsWith_append a p : endsWith (a +:+ p) p = true.
Proof.
  unfold endsWith. rewrite length_append.
  rewrite (proj2 (Nat.leb_le _ _)) by lia.
  replace (String.length a + String.length p - String.length p)%nat with (String.length a)
    by lia.
  rewrite substring_skip, substring_full. now apply bool_decide_eq_true.
Qed.

Lemma substring_strip a p :
  String.substring 0 (String.length (a +:+ p) - String.length p) (a +:+ p) = a.
Proof.
  rewrite length_append.
  replace (String.length a + String.length p - String.length p)%nat with (String.length a)
    by lia.
  apply substring_prefix.
Qed.

(** The base name of a plain name after a directory part. *)
Lemma basename_dir_plain dir s ext :
  dir = EmptyString \/ (exists d, dir = d +:+ "/") ->
  plainSegment s = true ->
  dir +:+ s <> ext ->
  Generator.basename (dir +:+ s) ext
  = if endsWith s ext && negb (bool_decide (s = ext))
    then String.substring 0 (String.length s - String.length ext) s else s.
Proof.
  intros Hdir Hs Hne. destruct (plainSegment_spec s Hs) as (Hl & H0 & _).
  unfold Generator.basename. rewrite bool_decide_false by exact Hne.
  assert (List.last
            (List.filter (fun c => negb (bool_decide (c = EmptyString))) (split "/" (dir +:+ s)))
            EmptyString = s) as ->; [|reflexivity].
  assert (List.filter (fun c => negb (bool_decide (c = EmptyString))) [s] = [s]) as Hone.
  { cbn. now rewrite bool_decide_false by exact H0. }
  destruct Hdir as [->|[d ->]].
  - rewrite append_empty, (split_lacks _ _ Hl), Hone. reflexivity.
  - rewrite append_assoc. change ("/" +:+ s) with (String "/"%char s).
    rewrite split_app, (split_lacks _ _ Hl), List.filter_app, Hone.
    apply last_last.
Qed.

Lemma basename_plain dir s :
  dir = EmptyString \/ (exists d, dir = d +:+ "/") ->
  plainSegment s = true ->
  Path.basename (dir +:+ s) = s.
Proof.
  intros Hdir Hs. destruct (plainSegment_spec s Hs) as (_ & H0 & _).
  unfold Path.basename. rewrite basename_dir_plain; try assumption.
  - rewrite bool_decide_false by exact H0.
    destruct (endsWith s EmptyString); [|reflexivity].
    cbn [andb negb String.length]. rewrite Nat.sub_0_r. apply substring_full.
  - intros Heq. apply append_eq_empty in Heq as [_ Heq]. congruence.
Qed.

Lemma plainSegment_png name : lacks "/" name = true -> plainSegment (name +:+ ".png") = true.
Proof.
  intros Hn. unfold plainSegment. rewrite lacks_append, Hn.
  assert (4 <= String.length (name +:+ ".png"))%nat as Hlen
    by (rewrite length_append; simpl; lia).
  rewrite !bool_decide_false; [reflexivity|..]; intros Heq; rewrite Heq in Hlen; simpl in Hlen; lia.
Qed.

Lemma basename_png dir name :
  dir = EmptyString \/ (exists d, dir = d +:+ "/") ->
  lacks "/" name = true ->
  name <> EmptyString ->
  Generator.basename (dir +:+ name +:+ ".png") ".png" = name.
Proof.
  intros Hdir Hn Hne.
  rewrite basename_dir_plain; try assumption; [|now apply plainSegment_png|].
  - rewrite endsWith_append, bool_decide_false.
    + cbn [andb negb]. apply substring_strip.
    + intros Heq. apply (f_equal String.length) in Heq. rewrite length_append in Heq.
      destruct name; [congruence | simpl in Heq; lia].
  - intros Heq. apply (f_equal String.length) in Heq. rewrite !length_append in Heq.
    destruct name; [congruence | simpl in Heq; lia].
Qed.

End Paths.

(** ** Screenshots of the direct driver and the listing of the generator *)

Section ScreenshotPaths.
Import JS Playwright PlaywrightDriver GeneratorFiles Spec Notions.

(** X17. The path that [captureScreenshot] hands to the page and returns
    lies in the directory [screenshots]: it ends in
    [screenshots/name.png] for a name without slash, after a directory
    part that is empty or ends in a slash; for a name that is not empty,
    taking the base name of the path without [.png] gives the name
    back.  The path is returned when the page takes the screenshot; an
    error of the page is thrown on, with nothing recorded. *)
Theorem captureScreenshot_path {W : Type} `{Browser W} name (st : @state W) :
  lacks "/" name = true ->
  let path := Path.join [outputDir (this st); "screenshots"; name +:+ ".png"] in
  (exists dir,
      path = dir +:+ "screenshots/" +:+ name +:+ ".png" /\
      (dir = EmptyString \/ exists d, dir = d +:+ "/")) /\
  (name <> EmptyString -> Generator.basename path ".png" = name) /\
  captureScreenshot name st
  = match screenshot path (page st) with
    | (Return _, w) => (Return path, {| this := this st; page := w |})
    | (Throw e, w) => (Throw e, {| this := this st; page := w |})
    end.
Proof.
  intros Hn path.
  assert (exists dir,
             path = dir +:+ "screenshots/" +:+ name +:+ ".png" /\
             (dir = EmptyString \/ exists d, dir = d +:+ "/")) as Hpath.
  { subst path.
    destruct (join_plain [outputDir (this st)] ["screenshots"; name +:+ ".png"])
      as (dir & Hjoin & Hdir).
    - discriminate.
    - repeat constructor. now apply plainSegment_png.
    - exists dir. split; [|exact Hdir]. exact Hjoin. }
  split; [exact Hpath|]. split.
  - intros Hne. destruct Hpath as (dir & -> & Hdir).
    change (dir +:+ "screenshots/" +:+ name +:+ ".png")
      with (dir +:+ ("screenshots" +:+ "/") +:+ name +:+ ".png").
    rewrite <- !append_assoc, (append_assoc _ name ".png").
    apply basename_png; try assumption.
    right. exists (dir +:+ "screenshots"). reflexivity.
  - unfold captureScreenshot, bind, get, on_page, ret. cbn [fst snd]. fold path.
    now destruct (screenshot path (page st)) as [[[]|e] w].
Qed.

Lemma captureScreenshot_path_witness :
  Path.join ["./test-results"; "screenshots"; "homepage" +:+ ".png"]
  = "test-results/screenshots/homepage.png" /\
  Generator.basename (Path.join ["./test-results"; "screenshots"; "homepage" +:+ ".png"]) ".png"
  = "homepage".
Proof.
  split; [reflexivity|].
  destruct (captureScreenshot_path "homepage" loginPage eq_refl) as (_ & Hbase & _).
  apply Hbase. discriminate.
Defined.

(** The loop of the listing over the entries of a directory. *)
Lemma getAllFiles_entry_directory filePath entries fileList :
  getAllFiles_entry filePath (Directory entries) fileList
  = fold_left (fun fl entry =>
                 getAllFiles_entry (Path.join [filePath; fst entry]) (snd entry) fl)
              entries fileList.
Proof.
  cbn [getAllFiles_entry]. revert fileList.
  induction entries as [|[file child] rest IH]; intros fileList; [reflexivity|].
  cbn [fold_left fst snd]. apply IH.
Qed.

Lemma leafNames_entry_directory name entries :
  leafNames_entry name (Directory entries)
  = flat_map (fun entry => leafNames_entry (fst entry) (snd entry)) entries.
Proof.
  cbn [leafNames_entry].
  induction entries as [|[file child] rest IH]; [reflexivity|].
  cbn [flat_map fst snd]. now rewrite IH.
Qed.

Lemma wellNamed_node_directory entries :
  wellNamed_node (Directory entries)
  = forallb (fun entry => plainSegment (fst entry) && wellNamed_node (snd entry)) entries.
Proof.
  cbn [wellNamed_node].
  induction entries as [|[file child] rest IH]; [reflexivity|].
  cbn [forallb fst snd]. now rewrite IH.
Qed.

(** Induction on directory trees. *)
Lemma node_induction (P : node -> Prop) :
  P File ->
  (forall entries, Forall (fun entry => P (snd entry)) entries -> P (Directory entries)) ->
  forall n, P n.
Proof.
  intros HFile HDirectory.
  fix IH 1. intros [|entries]; [exact HFile|].
  apply HDirectory. induction entries as [|[file child] rest IHrest]; constructor.
  - apply IH.
  - exact IHrest.
Qed.

(** The listing of an entry with a plain name: the base names of the
    paths pushed are the names of the files of the entry. *)
Lemma getAllFiles_entry_names n : forall dir name fileList,
  plainSegment name = true ->
  wellNamed_node n = true ->
  map Path.basename (getAllFiles_entry (Path.join [dir; name]) n fileList)
  = map Path.basename fileList ++ leafNames_entry name n.
Proof.
  induction n as [|entries IH] using node_induction; intros dir name fileList Hname Hwell.
  - cbn [getAllFiles_entry leafNames_entry]. rewrite map_app. f_equal. cbn [map]. f_equal.
    destruct (join_plain [dir] [name]) as (d & Hjoin & Hd);
      [discriminate | repeat constructor; exact Hname|].
    cbn [app join] in Hjoin. rewrite Hjoin. now apply basename_plain.
  - rewrite getAllFiles_entry_directory, leafNames_entry_directory.
    rewrite wellNamed_node_directory in Hwell.
    revert fileList. induction entries as [|[file child] rest IHrest]; intros fileList.
    + cbn. now rewrite app_nil_r.
    + cbn [forallb fst snd] in Hwell. rewrite !andb_true_iff in Hwell.
      destruct Hwell as [[Hfile Hchild] Hrest].
      inversion IH as [|? ? IHchild IHothers]; subst. cbn [snd] in IHchild.
      cbn [fold_left flat_map fst snd].
      rewrite (IHrest IHothers Hrest).
      rewrite (IHchild _ file fileList Hfile Hchild). now rewrite <- app_assoc.
Qed.

(** X24. The listing [getAllFiles] of a directory tree pushes one path
    per file of the tree, directories giving none of their own, in the
    order of the listings, depth first; the base name of each path is
    the name of its file, whatever directory the listing starts from. *)
Theorem getAllFiles_lists_files dir entries fileList :
  wellNamed entries = true ->
  map Path.basename (getAllFiles dir entries fileList)
  = map Path.basename fileList ++ leafNames entries /\
  length (getAllFiles dir entries fileList)
  = (length fileList + length (leafNames entries))%nat.
Proof.
  intros Hwell.
  assert (map Path.basename (getAllFiles dir entries fileList)
          = map Path.basename fileList ++ leafNames entries) as Hnames.
  { unfold getAllFiles, leafNames, wellNamed in *.
    rewrite getAllFiles_entry_directory, leafNames_entry_directory.
    rewrite wellNamed_node_directory in Hwell.
    revert fileList. induction entries as [|[file child] rest IH]; intros fileList.
    - cbn. now rewrite app_nil_r.
    - cbn [forallb fst snd] in Hwell. rewrite !andb_true_iff in Hwell.
      destruct Hwell as [[Hfile Hchild] Hrest].
      cbn [fold_left flat_map fst snd]. rewrite (IH Hrest).
      rewrite (getAllFiles_entry_names child dir file fileList Hfile Hchild).
      now rewrite <- app_assoc. }
  split; [exact Hnames|].
  apply (f_equal (@length string)) in Hnames.
  now rewrite length_app, !length_map in Hnames.
Qed.

Lemma getAllFiles_lists_files_witness :
  map Path.basename
      (getAllFiles "./cypress/screenshots"
         [("home_spec.e2e.js",
           Directory [("home-desktop-page-loaded.png", File); ("empty", Directory [])]);
          ("bad.png", File)] [])
  = ["home-desktop-page-loaded.png"; "bad.png"].
Proof.
  apply (getAllFiles_lists_files "./cypress/screenshots"
           [("home_spec.e2e.js",
             Directory [("home-desktop-page-loaded.png", File); ("empty", Directory [])]);
            ("bad.png", File)] []).
  reflexivity.
Defined.

End ScreenshotPaths.

(** ** The generated tests: their files and their screenshots *)

Section GeneratedTests.
Import JS Generator GeneratorFiles Spec Notions.

Lemma replaceSlashes_lacks s : lacks "/" (replaceSlashes s) = true.
Proof.
  induction s as [|x s IH]; [reflexivity|].
  cbn [replaceSlashes]. rewrite lacks_cons, IH.
  destruct (Ascii.eqb x "/") eqn:Hx; [reflexivity|]. now rewrite Hx.
Qed.

Lemma routeName_lacks route : lacks "/" (routeName route) = true.
Proof.
  unfold routeName. case_bool_decide; [reflexivity|].
  pose proof (replaceSlashes_lacks route) as Hl.
  destruct (replaceSlashes route) as [|x s]; [reflexivity|].
  rewrite lacks_cons, andb_true_iff in Hl. apply Hl.
Qed.

Lemma plainSegment_spec_file name :
  lacks "/" name = true -> plainSegment (name +:+ "_spec.e2e.js") = true.
Proof.
  intros Hn. unfold plainSegment. rewrite lacks_append, Hn.
  assert (12 <= String.length (name +:+ "_spec.e2e.js"))%nat as Hlen
    by (rewrite length_append; simpl; lia).
  rewrite !bool_decide_false; [reflexivity|..]; intros Heq; rewrite Heq in Hlen; simpl in Hlen; lia.
Qed.

(** What normalization keeps of a path: segments that are not empty, not
    [.] and hold no slash. *)
Lemma normalizeStep_clean allowAboveRoot segs : forall kept,
  Forall (fun s => lacks "/" s = true) segs ->
  Forall (fun s => s <> EmptyString /\ s <> "." /\ lacks "/" s = true) kept ->
  Forall (fun s => s <> EmptyString /\ s <> "." /\ lacks "/" s = true)
         (fold_left (Path.normalizeStep allowAboveRoot) segs kept).
Proof.
  induction segs as [|seg segs IH]; intros kept Hsegs Hkept; [exact Hkept|].
  inversion Hsegs as [|? ? Hseg Hrest]; subst. cbn [fold_left]. apply IH; [exact Hrest|].
  unfold Path.normalizeStep.
  destruct (bool_decide (seg = EmptyString)) eqn:H0; [exact Hkept|].
  destruct (bool_decide (seg = ".")) eqn:H1; [exact Hkept|].
  apply bool_decide_eq_false in H0, H1. cbn [orb].
  assert (".." <> EmptyString /\ ".." <> "." /\ lacks "/" ".." = true) as Hup
    by (repeat split; discriminate).
  destruct (bool_decide (seg = "..")).
  - destruct kept as [|last before].
    + destruct allowAboveRoot; repeat constructor; apply Hup.
    + destruct (bool_decide (last = "..")).
      * destruct allowAboveRoot; [constructor; [exact Hup | exact Hkept] | exact Hkept].
      * now inversion Hkept.
  - constructor; [auto | exact Hkept].
Qed.

Lemma join_clean kept :
  kept <> [] ->
  Forall (fun s => s <> EmptyString /\ s <> "." /\ lacks "/" s = true) kept ->
  join "/" kept <> EmptyString /\ join "/" kept <> "." /\
  forall a, lastIs "/" (a +:+ join "/" kept) = false.
Proof.
  intros Hne Hall.
  assert (forall a, lastIs "/" (a +:+ join "/" kept) = false) as Hlast.
  { destruct (exists_last Hne) as (init & s & ->).
    apply Forall_app in Hall as [_ Hs]. inversion Hs as [|? ? (H0 & _ & Hl) _]; subst.
    intros a. rewrite join_snoc.
    destruct init as [|y init].
    - rewrite lastIs_append by assumption. now apply lastIs_lacks.
    - rewrite <- !append_assoc, lastIs_append by assumption. now apply lastIs_lacks. }
  split; [|split; [|exact Hlast]].
  - intros Heq. specialize (Hlast "/"). rewrite Heq in Hlast. discriminate Hlast.
  - destruct kept as [|k [|k' rest]]; [congruence| |].
    + inversion Hall as [|? ? (_ & H1 & _) _]; subst. exact H1.
    + inversion Hall as [|? ? (H0 & _ & _) _]; subst.
      change (join "/" (k :: k' :: rest)) with (k +:+ "/" +:+ join "/" (k' :: rest)).
      destruct k as [|c k]; [congruence|]. rewrite append_cons. intros [= _ Heq].
      apply append_eq_empty in Heq as [_ Heq]. discriminate Heq.
Qed.

Lemma startsWith_lacks c s : lacks c s = true -> startsWith s (String c EmptyString) = false.
Proof.
  destruct s as [|x s]; [reflexivity|].
  rewrite lacks_cons, andb_true_iff, negb_true_iff. intros [Hx _].
  unfold startsWith. cbn [String.prefix].
  destruct (ascii_dec c x) as [->|_]; [|reflexivity]. now rewrite Ascii.eqb_refl in Hx.
Qed.

(** [path.join] of a directory and a plain name: the name after the
    normalized directory, which is nothing for the working directory and
    ends in one slash otherwise. *)
Lemma join_directory dir name :
  plainSegment name = true ->
  Path.join [dir; name]
  = (if bool_decide (Path.normalize dir = ".") || bool_decide (Path.normalize dir = "./")
     then EmptyString
     else if endsWith (Path.normalize dir) "/" then Path.normalize dir
          else Path.normalize dir +:+ "/") +:+ name.
Proof.
  intros Hname. destruct (plainSegment_spec name Hname) as (Hl & H0 & H1 & H2).
  assert (forall a, endsWith (a +:+ name) "/" = false) as Hends.
  { intros a. rewrite endsWith_unit, lastIs_append by assumption. now apply lastIs_lacks. }
  assert (forall b kept, Path.normalizeStep b kept name = name :: kept) as Hstep.
  { intros b kept. unfold Path.normalizeStep. now rewrite !bool_decide_false by assumption. }
  unfold Path.join. cbn [List.filter].
  rewrite (bool_decide_false (name = EmptyString)) by assumption. cbn [negb].
  destruct (decide (dir = EmptyString)) as [->|Hdir].
  - rewrite bool_decide_true by reflexivity. cbn [negb JS.join].
    change (Path.normalize EmptyString) with ".".
    rewrite (bool_decide_true ("." = ".")) by reflexivity. cbn [orb]. rewrite append_empty.
    unfold Path.normalize, Path.normalizeString.
    rewrite bool_decide_false by assumption.
    rewrite (startsWith_lacks _ _ Hl). specialize (Hends EmptyString).
    rewrite append_empty in Hends. rewrite Hends, (split_lacks _ _ Hl).
    cbn [fold_left negb]. rewrite Hstep. cbn [rev app join].
    rewrite bool_decide_false by assumption. now rewrite append_empty, append_empty_r.
  - rewrite (bool_decide_false (dir = EmptyString)) by assumption. cbn [negb JS.join].
    assert (dir +:+ "/" +:+ name <> EmptyString) as Hjoined.
    { intros Heq. apply append_eq_empty in Heq as [Heq _]. congruence. }
    unfold Path.normalize. rewrite (bool_decide_false _ Hjoined), (bool_decide_false _ Hdir).
    rewrite (startsWith_append_nonempty dir ("/" +:+ name) "/" Hdir).
    rewrite <- (append_assoc dir "/" name), (Hends (dir +:+ "/")).
    rewrite (append_assoc dir "/" name).
    unfold Path.normalizeString.
    change (dir +:+ "/" +:+ name) with (dir +:+ String "/" name).
    rewrite split_app, (split_lacks _ _ Hl), fold_left_app. cbn [fold_left].
    rewrite Hstep. cbn [rev].
    set (absolute := startsWith dir "/").
    pose proof (normalizeStep_clean (negb absolute) (split "/" dir) []
                  (split_pieces_lack "/" dir) (List.Forall_nil _)) as Hclean.
    apply List.Forall_rev in Hclean.
    set (kept := rev (fold_left (Path.normalizeStep (negb absolute)) (split "/" dir) [])) in *.
    rewrite join_snoc.
    destruct kept as [|k rest].
    + cbn [join]. rewrite (bool_decide_false _ H0), (bool_decide_true (EmptyString = EmptyString))
        by reflexivity.
      rewrite append_empty_r.
      destruct absolute; [reflexivity|].
      destruct (endsWith dir "/"); reflexivity.
    + destruct (join_clean (k :: rest)) as (Hn0 & Hn1 & Hlast); [discriminate | exact Hclean|].
      set (N := join "/" (k :: rest)) in *.
      rewrite (bool_decide_false (N = EmptyString)) by assumption.
      rewrite bool_decide_false.
      2:{ intros Heq. apply append_eq_empty in Heq as [Heq _]. congruence. }
      rewrite append_empty_r.
      destruct absolute, (endsWith dir "/").
      * change ("/" +:+ N +:+ "/") with (String "/" (N +:+ "/")).
        rewrite !bool_decide_false by discriminate. cbn [orb].
        change (String "/" (N +:+ "/")) with ("/" +:+ N +:+ "/").
        rewrite <- (append_assoc "/" N "/"), endsWith_append. now rewrite !append_assoc.
      * rewrite append_empty_r. change ("/" +:+ N) with (String "/" N).
        rewrite !bool_decide_false by discriminate. cbn [orb].
        change (String "/" N) with ("/" +:+ N).
        rewrite endsWith_unit, Hlast. now rewrite !append_assoc.
      * rewrite !append_empty.
        rewrite (bool_decide_false (N +:+ "/" = ".")).
        2:{ intros Heq. apply (f_equal String.length) in Heq. rewrite length_append in Heq.
            destruct N; [congruence | simpl in Heq; lia]. }
        rewrite (bool_decide_false (N +:+ "/" = "./")).
        2:{ destruct N as [|c [|c' N]]; [congruence| |].
            - rewrite append_cons, append_empty. intros [= ->]. congruence.
            - rewrite !append_cons. intros [= _ _ Heq].
              apply append_eq_empty in Heq as [_ Heq]. discriminate Heq. }
        cbn [orb]. rewrite endsWith_append. now rewrite !append_assoc.
      * rewrite !append_empty, !append_empty_r.
        rewrite (bool_decide_false (N = ".")) by assumption.
        rewrite (bool_decide_false (N = "./")).
        2:{ intros Heq. specialize (Hlast EmptyString). rewrite append_empty, Heq in Hlast.
            discriminate Hlast. }
        cbn [orb]. specialize (Hlast EmptyString). rewrite append_empty in Hlast.
        rewrite endsWith_unit, Hlast. now rewrite !append_assoc.
Qed.

(** X19. The name that [generateTests] derives from a route holds no
    slash, whatever the route, so the test of every route is a file of
    the tests directory itself, named after the route: the path of the
    test is the normalized tests directory (nothing for the working
    directory, and with one slash at its end otherwise) followed by the
    route name and [_spec.e2e.js], and that is its base name. *)
Theorem testFilePath_flat testsDir route :
  lacks "/" (routeName route) = true /\
  testFilePath testsDir route
  = (if bool_decide (Path.normalize testsDir = ".")
        || bool_decide (Path.normalize testsDir = "./")
     then EmptyString
     else if endsWith (Path.normalize testsDir) "/" then Path.normalize testsDir
          else Path.normalize testsDir +:+ "/")
      +:+ routeName route +:+ "_spec.e2e.js" /\
  Path.basename (testFilePath testsDir route) = routeName route +:+ "_spec.e2e.js" /\
  testFilePath "./cypress/e2e/auto-generated" "/about"
  = "cypress/e2e/auto-generated/about_spec.e2e.js".
Proof.
  pose proof (routeName_lacks route) as Hl.
  pose proof (plainSegment_spec_file _ Hl) as Hplain.
  split; [exact Hl|]. split; [|split; [|reflexivity]].
  - unfold testFilePath. now rewrite join_directory.
  - destruct (join_plain [testsDir] [routeName route +:+ "_spec.e2e.js"])
      as (dir & Hjoin & Hdir); [discriminate | repeat constructor; exact Hplain|].
    cbn [app join] in Hjoin. unfold testFilePath. rewrite Hjoin. now apply basename_plain.
Qed.

(** X20. Route names do not tell all routes apart: the first code unit
    of a route other than [/] is dropped whatever it is, so a route
    written without its leading slash loses a letter; a slash further
    on and an underscore in its place give the same name; and the route
    [/home] has the name of the route [/]. *)
Theorem routeName_collisions :
  (forall c x rest, routeName (String c (String x rest)) = replaceSlashes (String x rest)) /\
  (forall a b, routeName ("/" +:+ a +:+ "/" +:+ b) = routeName ("/" +:+ a +:+ "_" +:+ b)) /\
  routeName "/home" = routeName "/".
Proof.
  assert (forall c x rest,
             routeName (String c (String x rest)) = replaceSlashes (String x rest)) as Hdrop.
  { intros c x rest. unfold routeName. now rewrite bool_decide_false by discriminate. }
  split; [exact Hdrop|]. split; [|reflexivity].
  intros a b.
  assert (forall sep, replaceSlashes (a +:+ String sep b)
                      = replaceSlashes a +:+ replaceSlashes (String sep b)) as Happ.
  { intros sep. induction a as [|x a IH]; [now rewrite !append_empty|].
    rewrite append_cons. cbn [replaceSlashes]. rewrite append_cons. now rewrite IH. }
  change ("/" +:+ a +:+ "/" +:+ b) with (String "/" (a +:+ String "/" b)).
  change ("/" +:+ a +:+ "_" +:+ b) with (String "/" (a +:+ String "_" b)).
  destruct a as [|x a].
  - rewrite !append_empty, !Hdrop. reflexivity.
  - rewrite !append_cons, !Hdrop, <- !append_cons, !Happ. reflexivity.
Qed.

Section Written.
Variable generateTestContent : string -> string -> string.



End Written.


(** The segments of a screenshot of a generated test. *)
Lemma screenshotFile_segments dir routeName viewportName rest :
  directoryPart dir ->
  lacks "/" routeName = true ->
  lacks "/" viewportName = true ->
  lacks "/" rest = true ->
  segments (screenshotFile dir routeName viewportName rest)
  = split "-" routeName ++ split "-" viewportName ++ split "-" rest.
Proof.
  intros Hdir Hr Hv Hrest. unfold segments, screenshotFile.
  rewrite basename_png; [|exact Hdir| |].
  - unfold screenshotName.
    change ("-" +:+ viewportName +:+ "-" +:+ rest)
      with (String "-" (viewportName +:+ String "-" rest)).
    now rewrite !split_app.
  - unfold screenshotName. rewrite !lacks_append, Hr, Hv, Hrest. reflexivity.
  - unfold screenshotName. intros Heq. apply append_eq_empty in Heq as [_ Heq].
    discriminate Heq.
Qed.

Lemma groupName_spec s :
  groupName s = true ->
  lacks "/" s = true /\ lacks "-" s = true /\ s ∉ Object_prototype_keys.
Proof.
  unfold groupName. rewrite !andb_true_iff, negb_true_iff.
  intros [[Hs Hh] Hk]. apply bool_decide_eq_false in Hk. auto.
Qed.

(** The segments that the report reads from the name of a screenshot of
    a generated test whose route name and viewport hold no hyphen. *)
Lemma screenshotFile_parts dir routeName viewportName rest :
  directoryPart dir ->
  lacks "/" routeName = true -> lacks "-" routeName = true ->
  lacks "/" viewportName = true -> lacks "-" viewportName = true ->
  lacks "/" rest = true ->
  endsWith (screenshotFile dir routeName viewportName rest) ".png" = true /\
  grouped (screenshotFile dir routeName viewportName rest) = true /\
  routeOf (screenshotFile dir routeName viewportName rest) = routeName /\
  viewportOf (screenshotFile dir routeName viewportName rest) = viewportName.
Proof.
  intros Hdir Hr Hr' Hv Hv' Hrest.
  split.
  { unfold screenshotFile. rewrite <- append_assoc. apply endsWith_append. }
  unfold grouped, routeOf, viewportOf.
  rewrite (screenshotFile_segments _ _ _ _ Hdir Hr Hv Hrest).
  rewrite (split_lacks _ _ Hr'), (split_lacks _ _ Hv'). cbn [app nth length].
  repeat split.
Qed.

(** The callback of the grouping on a file whose first two segments are
    not names of inherited properties: the file is pushed to the group
    of the first segment and the second, made if need be. *)
Lemma group_file_segments file route viewport more (data : reportData) :
  segments file = route :: viewport :: more ->
  route ∉ Object_prototype_keys ->
  viewport ∉ Object_prototype_keys ->
  group_file file data
  = Groups (<[route := <[viewport := default [] (default ∅ (data !! route) !! viewport)
                                     ++ [file]]>
                         (default ∅ (data !! route))]> data).
Proof.
  intros Hsegments Hr Hv. unfold group_file. fold (segments file). rewrite Hsegments.
  cbn [length Nat.leb nth].
  rewrite (get_property_plain data _ Hr).
  destruct (data !! route) as [views|]; unfold default; cbn [from_option id];
    rewrite (get_property_plain _ _ Hv).
  - now destruct (views !! viewport).
  - now rewrite lookup_empty.
Qed.

Lemma generateReport_one file route viewport more :
  endsWith file ".png" = true ->
  segments file = route :: viewport :: more ->
  route ∉ Object_prototype_keys ->
  viewport ∉ Object_prototype_keys ->
  generateReport [file] = Groups {[ route := {[ viewport := [file] ]} ]}.
Proof.
  intros Hpng Hsegments Hr Hv. unfold generateReport. cbn [List.filter]. rewrite Hpng.
  cbn [forEach_group]. rewrite (group_file_segments _ _ _ _ _ Hsegments Hr Hv).
  rewrite lookup_empty. unfold default. cbn [from_option id]. rewrite lookup_empty.
  cbn [from_option id app]. now rewrite !insert_empty.
Qed.

(** X22. The names that the generated tests give their screenshots and
    the grouping of the report agree when neither the route name nor
    the name of the viewport holds a hyphen or is the name of an
    inherited property: the callback of [generateReport] pushes the
    screenshot to the group of that route name and that viewport,
    whatever was grouped before, in whatever directory the file lies and
    whatever the rest of its name; the report of the one file is the
    one group. *)
Theorem screenshotFile_round_trip dir routeName viewportName rest (data : reportData) :
  directoryPart dir ->
  groupName routeName = true ->
  groupName viewportName = true ->
  lacks "/" rest = true ->
  let file := screenshotFile dir routeName viewportName rest in
  group_file file data
  = Groups (<[routeName :=
               <[viewportName :=
                  default [] (default ∅ (data !! routeName) !! viewportName) ++ [file]]>
                 (default ∅ (data !! routeName))]> data) /\
  generateReport [file] = Groups {[ routeName := {[ viewportName := [file] ]} ]}.
Proof.
  intros Hdir Hr Hv Hrest file.
  apply groupName_spec in Hr as (Hr & Hr' & Hrk), Hv as (Hv & Hv' & Hvk).
  assert (segments file = routeName :: viewportName :: split "-" rest) as Hsegments.
  { subst file. rewrite (screenshotFile_segments _ _ _ _ Hdir Hr Hv Hrest).
    now rewrite (split_lacks _ _ Hr'), (split_lacks _ _ Hv'). }
  split.
  - exact (group_file_segments _ _ _ _ _ Hsegments Hrk Hvk).
  - apply (generateReport_one _ _ _ _ (proj1 (screenshotFile_parts _ _ _ _ Hdir Hr Hr' Hv Hv'
                                                 Hrest)) Hsegments Hrk Hvk).
Qed.

Lemma screenshotFile_round_trip_witness :
  generateReport
    ["cypress/screenshots/home_spec.e2e.js/home-desktop-element-0-before-click.png"]
  = Groups {[ "home" :=
                {[ "desktop" :=
                     ["cypress/screenshots/home_spec.e2e.js/home-desktop-element-0-before-click.png"]
                ]} ]}.
Proof.
  destruct (screenshotFile_round_trip "cypress/screenshots/home_spec.e2e.js/" "home" "desktop"
              "element-0-before-click" ∅) as (_ & Hreport);
    [right; now exists "cypress/screenshots/home_spec.e2e.js"
    | reflexivity | reflexivity | reflexivity |].
  exact Hreport.
Defined.

Lemma split_has_separator c s : lacks c s = false -> (2 <= length (split c s))%nat.
Proof.
  induction s as [|x s IH]; [discriminate|].
  rewrite lacks_cons. cbn [split]. destruct (Ascii.eqb x c) eqn:Hx.
  - intros _. pose proof (split_nonempty c s). destruct (split c s); [congruence | simpl; lia].
  - cbn [negb andb]. intros Hs. specialize (IH Hs).
    destruct (split c s) as [|piece pieces]; [simpl in IH; lia | exact IH].
Qed.

(** X23. A hyphen in the route name misfiles the screenshots of the
    route: the callback of [generateReport] pushes them to the group of
    the piece of the route name before its first hyphen, which is not
    the route name, and of the next piece of the route name, taken for
    the viewport whatever the viewport of the test was. *)
Theorem screenshotFile_hyphenated_route dir routeName viewportName rest (data : reportData) :
  directoryPart dir ->
  lacks "/" routeName = true -> lacks "/" viewportName = true -> lacks "/" rest = true ->
  lacks "-" routeName = false ->
  upTo "-" routeName ∉ Object_prototype_keys ->
  nth 1 (split "-" routeName) EmptyString ∉ Object_prototype_keys ->
  let file := screenshotFile dir routeName viewportName rest in
  let route := upTo "-" routeName in
  let viewport := nth 1 (split "-" routeName) EmptyString in
  route <> routeName /\
  group_file file data
  = Groups (<[route := <[viewport := default [] (default ∅ (data !! route) !! viewport)
                                     ++ [file]]>
                         (default ∅ (data !! route))]> data) /\
  generateReport [file] = Groups {[ route := {[ viewport := [file] ]} ]}.
Proof.
  intros Hdir Hr Hv Hrest Hhyphen Hrk Hvk file route viewport.
  pose proof (split_has_separator _ _ Hhyphen) as Hlen.
  pose proof (upTo_lacks "-" routeName) as Hup.
  assert (exists more, segments file = route :: viewport :: more) as [more Hsegments].
  { subst file route viewport. rewrite (screenshotFile_segments _ _ _ _ Hdir Hr Hv Hrest).
    unfold upTo. destruct (split "-" routeName) as [|a [|b pieces]]; [simpl in Hlen; lia..|].
    cbn [app nth]. eexists. reflexivity. }
  split; [|split].
  - subst route. intros Heq. rewrite Heq in Hup. congruence.
  - exact (group_file_segments _ _ _ _ _ Hsegments Hrk Hvk).
  - apply (generateReport_one _ _ _ more); try assumption.
    subst file. unfold screenshotFile. rewrite <- append_assoc. apply endsWith_append.
Qed.

Lemma screenshotFile_hyphenated_route_witness :
  routeName "/about-us" = "about-us" /\
  generateReport ["cypress/screenshots/about-us-mobile-page-loaded.png"]
  = Groups {[ "about" :=
                {[ "us" := ["cypress/screenshots/about-us-mobile-page-loaded.png"] ]} ]}.
Proof.
  split; [reflexivity|].
  destruct (screenshotFile_hyphenated_route "cypress/screenshots/" "about-us" "mobile"
              "page-loaded" ∅) as (_ & _ & Hreport).
  - right. now exists "cypress/screenshots".
  - reflexivity.
  - reflexivity.
  - reflexivity.
  - reflexivity.
  - vm_compute. intros H. repeat (apply elem_of_cons in H as [H|H]; [discriminate H|]).
    now apply elem_of_nil in H.
  - vm_compute. intros H. repeat (apply elem_of_cons in H as [H|H]; [discriminate H|]).
    now apply elem_of_nil in H.
  - exact Hreport.
Defined.

Lemma takenFor_segments file routeName viewportName :
  takenFor file routeName viewportName ->
  endsWith file ".png" = true /\ grouped file = true /\
  routeOf file = routeName /\ viewportOf file = viewportName.
Proof.
  intros (dir & rest & -> & Hdir & Hrest & Hr & Hv).
  apply groupName_spec in Hr as (Hr & Hr' & _), Hv as (Hv & Hv' & _).
  now apply screenshotFile_parts.
Qed.

Lemma taken_plain file : taken file -> plain file.
Proof.
  intros (routeName & viewportName & Htaken) _.
  destruct (takenFor_segments _ _ _ Htaken) as (_ & _ & -> & ->).
  destruct Htaken as (dir & rest & _ & _ & _ & Hr & Hv).
  apply groupName_spec in Hr as (_ & _ & Hr), Hv as (_ & _ & Hv). auto.
Qed.

Lemma filter_all {A} (f : A -> bool) l :
  Forall (fun x => f x = true) l -> List.filter f l = l.
Proof.
  induction 1 as [|x l Hx Hl IH]; [reflexivity|]. cbn [List.filter]. now rewrite Hx, IH.
Qed.

(** X25. Naming, listing and grouping fit together: when every file of
    the listing is a screenshot of a generated test, named for a route
    name and a viewport that hold no hyphen and are not names of
    inherited properties, the grouping of [generateReport] ends without
    an error, and every screenshot is in the group of the route name and
    viewport it was taken for; a group holds only files of the
    listing. *)
Theorem generateReport_generated_screenshots allFiles :
  Forall taken allFiles ->
  exists data,
    generateReport allFiles = Groups data /\
    (forall file routeName viewportName,
        In file allFiles -> takenFor file routeName viewportName ->
        exists group, lookup2 data routeName viewportName = Some group /\ In file group) /\
    (forall route viewport group file,
        lookup2 data route viewport = Some group -> In file group -> In file allFiles).
Proof.
  intros Hall.
  assert (List.filter (fun file => endsWith file ".png") allFiles = allFiles) as Hpng.
  { apply filter_all. eapply List.Forall_impl; [|exact Hall].
    intros file (routeName & viewportName & Htaken). cbv beta.
    now destruct (takenFor_segments _ _ _ Htaken). }
  destruct (generateReport_groups_plain allFiles) as (data & Hreport & Hdata).
  { rewrite Hpng. eapply List.Forall_impl; [|exact Hall]. exact taken_plain. }
  rewrite Hpng in Hdata.
  exists data. split; [exact Hreport|]. split.
  - intros file routeName viewportName Hin Htaken. rewrite Hdata.
    destruct (takenFor_segments _ _ _ Htaken) as (_ & Hg & Hr & Hv).
    assert (In file (groupOf allFiles routeName viewportName)) as Hfile.
    { unfold groupOf. apply filter_In. split; [exact Hin|].
      rewrite Hg, !bool_decide_true by assumption. reflexivity. }
    destruct (groupOf allFiles routeName viewportName) as [|f group]; [destruct Hfile|].
    eexists. split; [reflexivity | exact Hfile].
  - intros route viewport group file Hgroup Hin. rewrite Hdata in Hgroup.
    assert (In file (groupOf allFiles route viewport)) as Hfile.
    { destruct (groupOf allFiles route viewport); [discriminate|].
      injection Hgroup as <-. exact Hin. }
    unfold groupOf in Hfile. now apply filter_In in Hfile.
Qed.

Lemma generateReport_generated_screenshots_witness :
  exists data,
    generateReport ["cypress/screenshots/home-desktop-page-loaded.png";
                    "cypress/screenshots/about-desktop-page-loaded.png";
                    "cypress/screenshots/home-desktop-form-0-filled.png"]
    = Groups data.
Proof.
  destruct (generateReport_generated_screenshots
              ["cypress/screenshots/home-desktop-page-loaded.png";
               "cypress/screenshots/about-desktop-page-loaded.png";
               "cypress/screenshots/home-desktop-form-0-filled.png"])
    as (data & Hreport & _).
  - repeat constructor.
    + exists "home", "desktop", "cypress/screenshots/", "page-loaded".
      repeat split. right. now exists "cypress/screenshots".
    + exists "about", "desktop", "cypress/screenshots/", "page-loaded".
      repeat split. right. now exists "cypress/screenshots".
    + exists "home", "desktop", "cypress/screenshots/", "form-0-filled".
      repeat split. right. now exists "cypress/screenshots".
  - exists data. exact Hreport.
Defined.

End GeneratedTests.

(** ** Examples of the properties above *)

Section FurtherExamples.
Import JS Playwright PlaywrightDriver Spec Notions.

Lemma specFileName_insensitive_witness :
  Cypress.specFileName ("Login" +:+ " " +:+ "Page")
  = Cypress.specFileName ("Login" +:+ "   " +:+ "Page").
Proof.
  apply (proj2 specFileName_insensitive "Login" " " "   " "Page");
    [repeat constructor | repeat constructor | discriminate | discriminate].
Defined.

Lemma videoList_omits_missing_witness :
  CypressReport.videoItem
    (Cypress.Run "login_page.cy.js" (Cypress.RunStats 1 1 0 1200) None [])
  = EmptyString.
Proof.
  apply (proj1 (proj2 videoList_omits_missing)). reflexivity.
Defined.

Lemma navigateTo_address_witness :
  fullUrl (this loginPage) "/login" = "https://example.com/login".
Proof.
  apply (proj1 (proj2 (proj2 (@navigateTo_address _ listBrowser (this loginPage) "/login")))).
  reflexivity.
Defined.


End FurtherExamples.
